(** * ricer: a shallow embedding of [ricer.go]

    Ricer renders every [*.tmpl] file of its templates directory into the
    output file named by the configuration, at most four at a time.

    The program is almost entirely glue around the Go standard library
    ([path], [path/filepath], [strings], [os], [os/user], [html/template],
    [sync], channels) and the configuration library viper.  The embedding
    therefore has two layers:

    - the library layer: the byte-string functions are written out
      ([Strings], [Path], [Filepath]); the operating system is a finite map
      from absolute locations to nodes ([Os]); the template engine and the
      configuration parser, whose languages are outside this program, are
      the members of the class [Libs];
    - the program layer: [configHomeDirectory], [templatesDirectory],
      [parseConfiguration], [handleTemplate] as functions, and [main] as a
      transition system whose steps are the statements of the dispatch loop
      and of the goroutines it starts. *)

From Stdlib Require Import Ascii String.
From stdpp Require Import base tactics option list list_numbers gmap strings sorting pretty.

Set Warnings "-register-all,-abstract-large-number".

Local Open Scope string_scope.
Local Open Scope list_scope.
Local Open Scope nat_scope.

(** The line feed that ends a printed line. *)
Definition LF : string := String (ascii_of_nat 10) "".

(** ** Byte strings *)

Definition IsPathSeparator (c : ascii) : bool := (c =? "/")%char.

(** Go's [strings] package: the two functions [handleTemplate] relies on. *)
Module Strings.

Fixpoint HasPrefix (s prefix : string) : bool :=
  match prefix, s with
  | "", _ => true
  | String p prefix', String c s' => (c =? p)%char && HasPrefix s' prefix'
  | String _ _, "" => false
  end.

Definition HasSuffix (s suffix : string) : bool :=
  HasPrefix (String.rev s) (String.rev suffix).

Fixpoint take (n : nat) (s : string) : string :=
  match n, s with
  | S n', String c s' => String c (take n' s')
  | _, _ => ""
  end.

Fixpoint drop (n : nat) (s : string) : string :=
  match n, s with
  | S n', String _ s' => drop n' s'
  | _, _ => s
  end.

(** [strings.TrimSuffix]: [s] without the trailing [suffix], or [s]. *)
Definition TrimSuffix (s suffix : string) : string :=
  if HasSuffix s suffix
  then take (String.length s - String.length suffix) s
  else s.

Fixpoint ContainsByte (s : string) (b : ascii) : bool :=
  match s with
  | "" => false
  | String c s' => (c =? b)%char || ContainsByte s' b
  end.

(** [strings.ContainsAny] *)
Fixpoint ContainsAny (s chars : string) : bool :=
  match s with
  | "" => false
  | String c s' => ContainsByte chars c || ContainsAny s' chars
  end.

(** The elements of [s] between slashes, as [strings.Split s "/"]. *)
Fixpoint SplitSlash (s : string) : list string :=
  match s with
  | "" => [""]
  | String c s' =>
      if IsPathSeparator c then "" :: SplitSlash s'
      else match SplitSlash s' with
           | [] => [String c ""]
           | e :: es => String c e :: es
           end
  end.

(** [strings.Join elems "/"] *)
Fixpoint JoinSlash (elems : list string) : string :=
  match elems with
  | [] => ""
  | [e] => e
  | e :: es => e +:+ "/" +:+ JoinSlash es
  end.

End Strings.

(** Go's [path] package (slash-separated, purely lexical). *)
Module Path.

(** One element read by [Clean]; [out] is the stack of elements written
    so far, innermost first.  Empty and [.] elements vanish, [..] removes
    the element before it, is dropped at the root and is kept in front of
    a relative path. *)
Definition clean_elem (rooted : bool) (out : list string) (e : string)
  : list string :=
  if decide (e = "" ∨ e = ".") then out
  else if decide (e = "..") then
    match out with
    | top :: out' => if decide (top = "..") then e :: out else out'
    | [] => if rooted then out else [e]
    end
  else e :: out.

Definition clean_elems (rooted : bool) (es : list string) : list string :=
  rev (foldl (clean_elem rooted) [] es).

Definition IsRooted (p : string) : bool :=
  match p with String c _ => IsPathSeparator c | "" => false end.

(** [path.Clean]: the shortest path name equivalent to [p]. *)
Definition Clean (p : string) : string :=
  if decide (p = "") then "."
  else
    let es := clean_elems (IsRooted p) (Strings.SplitSlash p) in
    if IsRooted p then "/" +:+ Strings.JoinSlash es
    else if decide (es = []) then "." else Strings.JoinSlash es.

(** [path.Join]: empty elements are ignored, the result is cleaned; all
    empty gives the empty string. *)
Definition Join (elem : list string) : string :=
  match filter (λ e, e ≠ "") elem with
  | [] => ""
  | es => Clean (Strings.JoinSlash es)
  end.

(** [path.Split]: the text up to and including the final slash, and the
    rest. *)
Fixpoint Split (p : string) : string * string :=
  match p with
  | "" => ("", "")
  | String c p' =>
      let '(dir, file) := Split p' in
      if Strings.ContainsByte p "/"
      then (String c dir, file)
      else ("", p)
  end.

(** [path.Dir] *)
Definition Dir (p : string) : string := Clean (fst (Split p)).

End Path.


(** Go errors are values that print as a message. *)
Definition error := string.

(** The outcome of a library loop that is run on a bounded number of
    iterations in this development: [OutOfFuel] is the bound being hit, and
    is shown not to happen below. *)
Inductive run (A : Type) : Type :=
  | Done (a : A)
  | Raise (e : error)
  | OutOfFuel.
Arguments Done {A} a.
Arguments Raise {A} e.
Arguments OutOfFuel {A}.

(** ** The operating system

    A file system without links or permissions: a finite map from absolute
    locations (the names from the root down) to nodes. The root is a
    directory and is not stored. Path names are resolved the way the
    kernel does it: element by element, every element being looked up in
    a directory that has to exist. *)
Module Os.

Inductive node : Type :=
  | File (content : string)
  | Dir.

Global Instance node_eq_dec : EqDecision node.
Proof. solve_decision. Defined.

Abbreviation location := (list string).
Abbreviation filesystem := (gmap (list string) node).

Definition node_at (fs : filesystem) (l : location) : option node :=
  if decide (l = []) then Some Dir else fs !! l.

Definition is_dir (fs : filesystem) (l : location) : bool :=
  bool_decide (node_at fs l = Some Dir).

Definition parent (l : location) : location := take (length l - 1) l.

(** Resolution of the elements [es] from the directory [cur]: [None] when
    an element is to be looked up in something that is not a directory.
    The location found need not exist. *)
Fixpoint walk (fs : filesystem) (cur : location) (es : list string)
  : option location :=
  match es with
  | [] => Some cur
  | e :: es' =>
      if is_dir fs cur then
        if decide (e = "" ∨ e = ".") then walk fs cur es'
        else if decide (e = "..") then walk fs (parent cur) es'
        else walk fs (cur ++ [e]) es'
      else None
  end.

(** The location a path name denotes for a process whose working
    directory is [cwd]. *)
Definition namei (fs : filesystem) (cwd : location) (name : string)
  : option location :=
  if decide (name = "") then None
  else walk fs (if Path.IsRooted name then [] else cwd) (Strings.SplitSlash name).

(** [os.Stat], and [os.Lstat] since there are no links: [None] is an
    error. *)
Definition Stat (fs : filesystem) (cwd : location) (name : string)
  : option node :=
  namei fs cwd name ≫= node_at fs.

(** [os.ReadFile] *)
Definition ReadFile (fs : filesystem) (cwd : location) (name : string)
  : option string :=
  match Stat fs cwd name with
  | Some (File content) => Some content
  | _ => None
  end.

Definition child_of (l : location) (k : location) : option string :=
  match drop (length l) k with
  | [e] => if decide (take (length l) k = l) then Some e else None
  | _ => None
  end.

(** [Readdirnames] on the open directory, followed by [sort.Strings]. *)
Definition Readdirnames (fs : filesystem) (l : location) : list string :=
  merge_sort String.le (omap (λ kv, child_of l kv.1) (map_to_list fs)).

(** [os.Mkdir]: the name must not exist, its parent must. *)
Definition Mkdir (fs : filesystem) (cwd : location) (name : string)
  : option filesystem :=
  l ← namei fs cwd name;
  match node_at fs l with
  | None => Some (<[l := Dir]> fs)
  | Some _ => None
  end.

Definition ENOTDIR (op name : string) : error :=
  op +:+ " " +:+ name +:+ ": not a directory".
Definition EEXIST (op name : string) : error :=
  op +:+ " " +:+ name +:+ ": file exists".
Definition ENOENT (op name : string) : error :=
  op +:+ " " +:+ name +:+ ": no such file or directory".
Definition EISDIR (op name : string) : error :=
  op +:+ " " +:+ name +:+ ": is a directory".

(** The last step of [MkdirAll]: [Mkdir], whose failure is forgiven if
    the directory is there. *)
Definition mkdir_last (fs : filesystem) (cwd : location) (name : string)
  : filesystem * option error :=
  match Mkdir fs cwd name with
  | Some fs' => (fs', None)
  | None =>
      match Stat fs cwd name with
      | Some Dir => (fs, None)
      | Some (File _) => (fs, Some (EEXIST "mkdir" name))
      | None => (fs, Some (ENOENT "mkdir" name))
      end
  end.

(** [os.MkdirAll] on a cleaned path name, given by its elements in
    reverse. As in Go: nothing to do if the name is a directory already,
    an error if it is a file; otherwise the parent is made first, then
    the directory itself. What was made stays when a later step fails. *)
Fixpoint MkdirAll_elems (fs : filesystem) (cwd : location)
    (relems : list string) : filesystem * option error :=
  let name := Strings.JoinSlash (rev relems) in
  match Stat fs cwd name with
  | Some Dir => (fs, None)
  | Some (File _) => (fs, Some (ENOTDIR "mkdir" name))
  | None =>
      match relems with
      | _ :: ((_ :: _) as relems') =>
          if decide (Strings.JoinSlash (rev relems') = "")
          then mkdir_last fs cwd name
          else
            match MkdirAll_elems fs cwd relems' with
            | (fs', None) => mkdir_last fs' cwd name
            | (fs', Some err) => (fs', Some err)
            end
      | _ => mkdir_last fs cwd name
      end
  end.

Definition MkdirAll (fs : filesystem) (cwd : location) (name : string)
  : filesystem * option error :=
  MkdirAll_elems fs cwd (rev (Strings.SplitSlash name)).

(** [os.Create]: the file is created, or truncated if it exists. The
    location stands for the open file. *)
Definition Create (fs : filesystem) (cwd : location) (name : string)
  : option (filesystem * location) :=
  l ← namei fs cwd name;
  match node_at fs l with
  | Some Dir => None
  | _ => Some (<[l := File ""]> fs, l)
  end.

(** What was written to the open file [l] by the time it is closed. *)
Definition Write (fs : filesystem) (l : location) (content : string)
  : filesystem :=
  <[l := File content]> fs.

End Os.

(** Go's [path/filepath] package on a system whose separator is the slash.
    Runes are bytes here: file names are taken to be ASCII. *)
Module Filepath.

(** [Ext]: scanning from the end of [path], the text from the first dot
    found before any separator. [rpath] is what is left to scan, reversed,
    [acc] what was scanned. *)
Fixpoint ext_scan (rpath acc : string) : string :=
  match rpath with
  | "" => ""
  | String c rpath' =>
      if IsPathSeparator c then ""
      else if (c =? ".")%char then String c acc
      else ext_scan rpath' (String c acc)
  end.

Definition Ext (path : string) : string := ext_scan (String.rev path) "".

Fixpoint trim_separators (rpath : string) : string :=
  match rpath with
  | String c rpath' =>
      if IsPathSeparator c then trim_separators rpath' else rpath
  | "" => ""
  end.

Fixpoint last_element (rpath acc : string) : string :=
  match rpath with
  | "" => acc
  | String c rpath' =>
      if IsPathSeparator c then acc else last_element rpath' (String c acc)
  end.

(** [Base]: the last element of [path], trailing separators removed
    first; ["."] for the empty path and ["/"] for a path of separators. *)
Definition Base (path : string) : string :=
  if decide (path = "") then "."
  else
    let e := last_element (trim_separators (String.rev path)) "" in
    if decide (e = "") then "/" else e.

Definition ErrBadPattern : error := "syntax error in pattern".

(** *** [Match] *)

Fixpoint strip_stars (pattern : string) : bool * string :=
  match pattern with
  | String c pattern' =>
      if (c =? "*")%char then (true, snd (strip_stars pattern'))
      else (false, pattern)
  | "" => (false, pattern)
  end.

(** The part of [pattern] up to the first star outside a character class,
    and the rest. *)
Fixpoint scan (pattern : string) (inrange : bool) : string * string :=
  match pattern with
  | "" => ("", "")
  | String c pattern' =>
      let keep '(chunk, rest) := (String c chunk, rest) in
      if (c =? "\")%char then
        match pattern' with
        | String d pattern'' =>
            let '(chunk, rest) := scan pattern'' inrange in
            (String c (String d chunk), rest)
        | "" => (String c "", "")
        end
      else if (c =? "[")%char then keep (scan pattern' true)
      else if (c =? "]")%char then keep (scan pattern' false)
      else if (c =? "*")%char && negb inrange then ("", pattern)
      else keep (scan pattern' inrange)
  end.

(** [scanChunk]: the next segment of [pattern], a star-free text possibly
    preceded by stars. *)
Definition scanChunk (pattern : string) : bool * string * string :=
  let '(star, pattern) := strip_stars pattern in
  let '(chunk, rest) := scan pattern false in
  (star, chunk, rest).

Definition head_byte (s : string) : ascii :=
  match s with String c _ => c | "" => zero end.

(** [getEsc]: a possibly escaped character of a character class, and what
    follows it, which must not be empty. *)
Definition getEsc (chunk : string) : option (ascii * string) :=
  match chunk with
  | "" => None
  | String c chunk' =>
      if (c =? "-")%char || (c =? "]")%char then None
      else
        match (if (c =? "\")%char then chunk' else chunk) with
        | "" => None
        | String r nchunk => if decide (nchunk = "") then None else Some (r, nchunk)
        end
  end.

Definition ascii_le (a b : ascii) : bool := (nat_of_ascii a <=? nat_of_ascii b)%nat.

(** One turn of the loop over the ranges of a character class, entered
    after the opening bracket and the negation sign: [r] is the character
    to classify, [continue] the turns that follow. *)
Definition ranges_iter
    (continue : string → bool → nat → run (string * bool))
    (chunk : string) (r : ascii) (matched : bool) (nrange : nat)
  : run (string * bool) :=
  if negb (bool_decide (chunk = "")) && (head_byte chunk =? "]")%char
     && negb (bool_decide (nrange = 0))
  then Done (Strings.drop 1 chunk, matched)
  else
    match getEsc chunk with
    | None => Raise ErrBadPattern
    | Some (lo, chunk) =>
        let hi_chunk :=
          if (head_byte chunk =? "-")%char then getEsc (Strings.drop 1 chunk)
          else Some (lo, chunk) in
        match hi_chunk with
        | None => Raise ErrBadPattern
        | Some (hi, chunk) =>
            continue chunk (matched || (ascii_le lo r && ascii_le r hi)) (S nrange)
        end
    end.

Fixpoint ranges (fuel : nat) (r : ascii) (chunk : string)
    (matched : bool) (nrange : nat) : run (string * bool) :=
  match fuel with
  | 0 => OutOfFuel
  | S fuel => ranges_iter (ranges fuel r) chunk r matched nrange
  end.

(** One turn of the loop of [matchChunk]. Once [failed], the chunk is
    still read to its end, for its syntax, and [s] is no longer read. *)
Definition matchChunk_iter
    (continue : string → string → bool → run (option string))
    (chunk s : string) (failed : bool) : run (option string) :=
  match chunk with
  | "" => Done (if failed then None else Some s)
  | String c chunk' =>
      let failed := failed || bool_decide (s = "") in
      let literal (chunk : string) :=
        (* the default case, on the chunk that starts with the character
           to compare *)
        continue (Strings.drop 1 chunk)
          (if failed then s else Strings.drop 1 s)
          (failed || negb (head_byte chunk =? head_byte s)%char) in
      if (c =? "[")%char then
        let r := if failed then zero else head_byte s in
        let s := if failed then s else Strings.drop 1 s in
        let negated :=
          negb (bool_decide (chunk' = "")) && (head_byte chunk' =? "^")%char in
        let chunk := if negated then Strings.drop 1 chunk' else chunk' in
        match ranges (S (String.length chunk)) r chunk false 0 with
        | Done (chunk, matched) =>
            continue chunk s (failed || bool_decide (matched = negated))
        | Raise e => Raise e
        | OutOfFuel => OutOfFuel
        end
      else if (c =? "?")%char then
        continue chunk'
          (if failed then s else Strings.drop 1 s)
          (failed || IsPathSeparator (head_byte s))
      else if (c =? "\")%char then
        if decide (chunk' = "") then Raise ErrBadPattern
        else literal chunk'
      else literal chunk
  end.

Fixpoint matchChunk_loop (fuel : nat) (chunk s : string) (failed : bool)
  : run (option string) :=
  match fuel with
  | 0 => OutOfFuel
  | S fuel => matchChunk_iter (matchChunk_loop fuel) chunk s failed
  end.

(** [matchChunk]: does [chunk] match a prefix of [s]? [Some rest] with
    what is left of [s] if so. *)
Definition matchChunk (chunk s : string) : run (option string) :=
  matchChunk_loop (S (String.length chunk)) chunk s false.

(** The search, after a star, for a position of [name] at which [chunk]
    matches: one to [String.length name] bytes are skipped, none of them a
    separator. [last] says that no pattern is left after [chunk], in
    which case the match has to use up the name. *)
Fixpoint star_search (chunk : string) (last : bool) (name : string)
  : run (option string) :=
  match name with
  | "" => Done None
  | String c name' =>
      if IsPathSeparator c then Done None
      else
        match matchChunk chunk name' with
        | Done (Some t) =>
            if last && negb (bool_decide (t = "")) then star_search chunk last name'
            else Done (Some t)
        | Done None => star_search chunk last name'
        | Raise e => Raise e
        | OutOfFuel => OutOfFuel
        end
  end.

(** One turn of the syntax check of what is left of the pattern once the
    match has failed. *)
Definition check_rest_iter (continue : string → run unit) (pattern : string)
  : run unit :=
  if decide (pattern = "") then Done ()
  else
    let '(_, chunk, pattern) := scanChunk pattern in
    match matchChunk chunk "" with
    | Done _ => continue pattern
    | Raise e => Raise e
    | OutOfFuel => OutOfFuel
    end.

Fixpoint check_rest (fuel : nat) (pattern : string) : run unit :=
  match fuel with
  | 0 => OutOfFuel
  | S fuel => check_rest_iter (check_rest fuel) pattern
  end.

(** One turn of the loop of [Match] over the chunks of the pattern. *)
Definition Match_iter (continue : string → string → run bool)
    (pattern name : string) : run bool :=
  if decide (pattern = "") then Done (bool_decide (name = ""))
  else
    let '(star, chunk, pattern) := scanChunk pattern in
    if star && bool_decide (chunk = "")
    then Done (negb (Strings.ContainsByte name "/"))
    else
      let fail :=
        match check_rest (S (String.length pattern)) pattern with
        | Done _ => Done false
        | Raise e => Raise e
        | OutOfFuel => OutOfFuel
        end in
      let search :=
        if star then
          match star_search chunk (bool_decide (pattern = "")) name with
          | Done (Some t) => continue pattern t
          | Done None => fail
          | Raise e => Raise e
          | OutOfFuel => OutOfFuel
          end
        else fail in
      match matchChunk chunk name with
      | Done (Some t) =>
          if bool_decide (t = "") || negb (bool_decide (pattern = ""))
          then continue pattern t
          else search
      | Done None => search
      | Raise e => Raise e
      | OutOfFuel => OutOfFuel
      end.

Fixpoint Match_loop (fuel : nat) (pattern name : string) : run bool :=
  match fuel with
  | 0 => OutOfFuel
  | S fuel => Match_iter (Match_loop fuel) pattern name
  end.

(** [Match]: does the whole of [name] match the shell pattern? *)
Definition Match (pattern name : string) : run bool :=
  Match_loop (S (String.length pattern)) pattern name.

(** [hasMeta]: does [path] contain a character that [Match] treats
    specially? *)
Definition hasMeta (path : string) : bool :=
  Strings.ContainsAny path "*?[\".


(** *** [Glob] *)

(** [Match] as its callers see it. *)
Definition Match_result (pattern name : string) : bool * option error :=
  match Match pattern name with
  | Done b => (b, None)
  | Raise e => (false, Some e)
  | OutOfFuel => (false, Some ErrBadPattern)
  end.

Definition cleanGlobPath (path : string) : string :=
  if decide (path = "") then "."
  else if decide (path = "/") then path
  else Strings.take (String.length path - 1) path.

(** The loop of [glob] over the sorted names of the directory. *)
Fixpoint glob_names (dir pattern : string) (names : list string)
    (m : list string) : list string * option error :=
  match names with
  | [] => (m, None)
  | n :: names' =>
      match Match_result pattern n with
      | (_, Some err) => (m, Some err)
      | (true, None) => glob_names dir pattern names' (m ++ [Path.Join [dir; n]])
      | (false, None) => glob_names dir pattern names' m
      end
  end.

(** [glob]: the names of [dir] that match [pattern], added to [matches];
    what goes wrong with the directory is ignored. *)
Definition glob (fs : Os.filesystem) (cwd : Os.location)
    (dir pattern : string) (matches : list string)
  : list string * option error :=
  match Os.namei fs cwd dir with
  | Some l =>
      if Os.is_dir fs l
      then glob_names dir pattern (Os.Readdirnames fs l) matches
      else (matches, None)
  | None => (matches, None)
  end.

(** The loop of [Glob] over the directories its own call found. *)
Fixpoint glob_dirs (fs : Os.filesystem) (cwd : Os.location)
    (dirs : list string) (file : string) (matches : list string)
  : list string * option error :=
  match dirs with
  | [] => (matches, None)
  | d :: dirs' =>
      match glob fs cwd d file matches with
      | (matches, None) => glob_dirs fs cwd dirs' file matches
      | (matches, Some err) => (matches, Some err)
      end
  end.

Definition pathSeparatorsLimit : nat := 10000.

(** [globWithLimit], [limit] being what is left of the depth allowed. *)
Fixpoint globWithLimit (fs : Os.filesystem) (cwd : Os.location)
    (limit : nat) (pattern : string) : list string * option error :=
  match limit with
  | 0 => ([], Some ErrBadPattern)
  | S limit =>
      match Match_result pattern "" with
      | (_, Some err) => ([], Some err)
      | (_, None) =>
          if negb (hasMeta pattern) then
            match Os.Stat fs cwd pattern with
            | None => ([], None)
            | Some _ => ([pattern], None)
            end
          else
            let '(dir, file) := Path.Split pattern in
            let dir := cleanGlobPath dir in
            if negb (hasMeta dir) then glob fs cwd dir file []
            else if decide (dir = pattern) then ([], Some ErrBadPattern)
            else
              match globWithLimit fs cwd limit dir with
              | (_, Some err) => ([], Some err)
              | (m, None) => glob_dirs fs cwd m file []
              end
      end
  end.

(** [Glob]: the names of the files that match [pattern], or
    [ErrBadPattern]. *)
Definition Glob (fs : Os.filesystem) (cwd : Os.location) (pattern : string)
  : list string * option error :=
  globWithLimit fs cwd pathSeparatorsLimit pattern.

End Filepath.

(** ** Configuration values and the libraries that are parameters *)

(** What a configuration file can bind a key to, as far as this program
    can tell the cases apart. *)
Inductive Value : Type :=
  | VString (s : string)
  | VInt (z : Z)
  | VBool (b : bool)
  | VMap (m : list (string * Value)).

(** The variables handed to a template: Go's [map[string]interface{}]. *)
Abbreviation Vars := (list (string * Value)).

(** The two languages this program does not define: the template language
    of [html/template] and the configuration formats viper reads. *)
Class Libs : Type := {
  (** a parsed template *)
  Template : Type;
  (** the parser behind [template.ParseFiles], on the text of a file;
      [None] is a syntax error *)
  template_Parse : string → option Template;
  (** [Execute]: what reached the writer, and the error that stopped the
      execution if one did *)
  template_Execute : Template → Vars → string * option error;
  (** viper's [SupportedExts] *)
  SupportedExts : list string;
  (** viper's decoder for the format named by an extension; the result maps
      each dotted key that has a value to that value; [None] is a malformed
      file *)
  unmarshal : string → string → option (gmap string Value);
}.

(** The package [cast], which viper's typed getters go through. *)
Module Cast.

Definition ToString (v : option Value) : string :=
  match v with
  | Some (VString s) => s
  | Some (VInt z) => pretty z
  | Some (VBool b) => if b then "true" else "false"
  | Some (VMap _) | None => ""
  end.

Definition ToStringMap (v : option Value) : Vars :=
  match v with
  | Some (VMap m) => m
  | _ => []
  end.

End Cast.

(** The part of viper this program drives: where to look for the
    configuration, and what was read. *)
Module Viper.

Record t : Type := {
  configName : string;
  configPaths : list string;
  configFile : string;
  store : gmap string Value;
}.

(** The package-level instance before [main] touches it. *)
Definition new : t :=
  {| configName := "config"; configPaths := []; configFile := ""; store := ∅ |}.

Definition SetConfigName (v : t) (name : string) : t :=
  if decide (name = "") then v
  else {| configName := name; configPaths := configPaths v;
          configFile := ""; store := store v |}.

Definition AddConfigPath (v : t) (dir : string) : t :=
  if decide (dir = "") then v
  else if bool_decide (dir ∈ configPaths v) then v
  else {| configName := configName v; configPaths := configPaths v ++ [dir];
          configFile := configFile v; store := store v |}.

Definition SetConfigFile (v : t) (file : string) : t :=
  if decide (file = "") then v
  else {| configName := configName v; configPaths := configPaths v;
          configFile := file; store := store v |}.

Definition exists_ (fs : Os.filesystem) (cwd : Os.location) (name : string)
  : bool :=
  bool_decide (is_Some (Os.Stat fs cwd name)).

(** The first [dir/name.ext] that exists, [ext] ranging over [exts]. *)
Fixpoint searchInPath (fs : Os.filesystem) (cwd : Os.location)
    (dir name : string) (exts : list string) : option string :=
  match exts with
  | [] => None
  | ext :: exts' =>
      let file := Path.Join [dir; name +:+ "." +:+ ext] in
      if exists_ fs cwd file then Some file
      else searchInPath fs cwd dir name exts'
  end.

Fixpoint findConfigFile `{Libs} (fs : Os.filesystem) (cwd : Os.location)
    (name : string) (dirs : list string) : option string :=
  match dirs with
  | [] => None
  | dir :: dirs' =>
      match searchInPath fs cwd dir name SupportedExts with
      | Some file => Some file
      | None => findConfigFile fs cwd name dirs'
      end
  end.

Definition ConfigFileNotFoundError (name : string) : error :=
  "Config File " +:+ name +:+ " Not Found".
Definition UnsupportedConfigError (ext : string) : error :=
  "Unsupported Config Type " +:+ ext.
Definition ConfigParseError (file : string) : error :=
  "While parsing config: " +:+ file.

Definition getConfigFile `{Libs} (fs : Os.filesystem) (cwd : Os.location)
    (v : t) : string * option error :=
  if decide (configFile v = "") then
    match findConfigFile fs cwd (configName v) (configPaths v) with
    | Some file => (file, None)
    | None => ("", Some (ConfigFileNotFoundError (configName v)))
    end
  else (configFile v, None).

(** [ReadInConfig]: find the file, read it, decode it. The three ways to
    fail are that no file is found, that it cannot be read and that it
    is malformed or of a format viper does not know. *)
Definition ReadInConfig `{Libs} (fs : Os.filesystem) (cwd : Os.location)
    (v : t) : t * option error :=
  match getConfigFile fs cwd v with
  | (_, Some err) => (v, Some err)
  | (file, None) =>
      let ext := Strings.drop 1 (Filepath.Ext file) in
      if bool_decide (ext ∈ SupportedExts) then
        match Os.ReadFile fs cwd file with
        | None => (v, Some (Os.ENOENT "open" file))
        | Some text =>
            match unmarshal ext text with
            | None => (v, Some (ConfigParseError file))
            | Some kvs =>
                ({| configName := configName v; configPaths := configPaths v;
                    configFile := configFile v; store := kvs |}, None)
            end
        end
      else (v, Some (UnsupportedConfigError ext))
  end.

Definition Get (v : t) (key : string) : option Value := store v !! key.

Definition GetString (v : t) (key : string) : string :=
  Cast.ToString (Get v key).

Definition GetStringMap (v : t) (key : string) : Vars :=
  Cast.ToStringMap (Get v key).

End Viper.

(** ** The program *)

(** What the process is started with: its environment, the account it runs
    under as [user.Current] reports it (the home directory, or an error),
    the value of the flag [-c], and its working directory. *)
Record Process : Type := {
  Getenv : string → string;
  user_Current : string * option error;
  config : string;
  cwd : Os.location;
}.

(** The process [P] started with [-c file]. *)
Definition with_config (P : Process) (file : string) : Process :=
  {| Getenv := Getenv P; user_Current := user_Current P;
     config := file; cwd := cwd P |}.

Section Program.

Context `{Libs}.
Variable P : Process.

Definition configHomeDirectory : string * option error :=
  let configHome := Getenv P "XDG_CONFIG_HOME" in
  if decide (configHome = "") then
    let homeDir := Getenv P "HOME" in
    if decide (homeDir = "") then
      match user_Current P with
      | (_, Some err) => ("", Some err)
      | (homeDir, None) =>
          (Path.Join [Path.Join [homeDir; "/.config"]; "/ricer"], None)
      end
    else (Path.Join [Path.Join [homeDir; "/.config"]; "/ricer"], None)
  else (Path.Join [configHome; "/ricer"], None).

Definition templatesDirectory : string * option error :=
  match configHomeDirectory with
  | (_, Some err) => ("", Some err)
  | (config, None) => (Path.Join [config; "/templates"], None)
  end.

Definition parseConfiguration (fs : Os.filesystem) (v : Viper.t)
  : Viper.t * option error :=
  if decide (config P = "") then
    let v := Viper.SetConfigName v "config" in
    match configHomeDirectory with
    | (_, Some err) => (v, Some err)
    | (configHome, None) =>
        Viper.ReadInConfig fs (cwd P) (Viper.AddConfigPath v configHome)
    end
  else Viper.ReadInConfig fs (cwd P) (Viper.SetConfigFile v (config P)).

(** [template.ParseFiles] on one file. *)
Definition ParseFiles (fs : Os.filesystem) (file : string) : option Template :=
  Os.ReadFile fs (cwd P) file ≫= template_Parse.

(** The name under which a template is looked up in the configuration. *)
Definition tmplName (file : string) : string :=
  Filepath.Base (Strings.TrimSuffix file (Filepath.Ext file)).

(** What one call of [handleTemplate] leaves behind: the file system, what
    it printed, and the error it returns. *)
Record Handled : Type := {
  h_fs : Os.filesystem;
  h_stdout : list string;
  h_err : option error;
}.

Definition handleTemplate (v : Viper.t) (fs : Os.filesystem) (file : string)
  : Handled :=
  match ParseFiles fs file with
  | None =>
      {| h_fs := fs; h_stdout := [];
         h_err := Some ("Could not parse template " +:+ file) |}
  | Some t =>
      let tmplName := tmplName file in
      let m := Viper.GetStringMap v (tmplName +:+ ".vars") in
      let outputFile := Viper.GetString v (tmplName +:+ ".output") in
      if decide (outputFile = "") then
        {| h_fs := fs; h_stdout := [];
           h_err := Some ("You have to define an output for template "
                          +:+ tmplName) |}
      else
        let path := Path.Dir outputFile in
        match Os.MkdirAll fs (cwd P) path with
        | (fs, Some _) =>
            {| h_fs := fs; h_stdout := [];
               h_err := Some ("[1] Could not create " +:+ outputFile
                              +:+ " for template " +:+ tmplName) |}
        | (fs, None) =>
            match Os.Create fs (cwd P) outputFile with
            | None =>
                {| h_fs := fs; h_stdout := [];
                   h_err := Some ("[2] Could not create " +:+ outputFile
                                  +:+ " for template " +:+ tmplName) |}
            | Some (fs, f) =>
                let '(written, _) := template_Execute t m in
                {| h_fs := Os.Write fs f written;
                   h_stdout := ["Creating " +:+ outputFile +:+ " from template "
                                +:+ tmplName +:+ "." +:+ LF];
                   h_err := None |}
            end
        end
  end.

(** *** [main]

    [main] up to the dispatch loop is sequential: it either panics, or
    returns after printing, or has the files to dispatch. *)
Inductive Started : Type :=
  | Panic (err : error)
  | Return (printed : list string)
  | Dispatch (v : Viper.t) (files : list string).

Definition main_start (fs : Os.filesystem) : Started :=
  match parseConfiguration fs Viper.new with
  | (_, Some err) => Panic err
  | (v, None) =>
      match templatesDirectory with
      | (tmplDir, Some _) =>
          Return ["Templates directory does not exist, please create "
                  +:+ tmplDir +:+ LF]
      | (tmplDir, None) =>
          let '(files, _) := Filepath.Glob fs (cwd P) (tmplDir +:+ "/*.tmpl") in
          Dispatch v files
      end
  end.

(** The dispatch loop and the goroutines are a transition system. The
    main goroutine is at one of the statements of the loop, or at
    [wg.Wait()], or has returned. *)
Inductive mpc : Type :=
  | MRange (files : list string)
      (** at the head of the loop, [files] left to range over;
          next: [throttle <- 1], or [wg.Wait()] when none is left *)
  | MAdd (file : string) (files : list string)   (** next: [wg.Add(1)] *)
  | MGo (file : string) (files : list string)    (** next: the [go] statement *)
  | MWait                                        (** in [wg.Wait()] *)
  | MExit.                                       (** [main] has returned *)

(** A goroutine started by the loop. *)
Inductive gpc : Type :=
  | GRun (file : string)  (** started; [handleTemplate file] not yet returned *)
  | GRecv                 (** next: [<-throttle] *)
  | GDefer                (** next: the deferred [wg.Done()] *)
  | GExit.                (** finished *)

Global Instance gpc_eq_dec : EqDecision gpc.
Proof. solve_decision. Defined.

Record State : Type := {
  pc : mpc;
  throttle : nat;      (** the number of values buffered in the channel *)
  wg : nat;            (** the counter of the wait group *)
  gs : list gpc;       (** the goroutines, in the order they were started *)
  fs : Os.filesystem;
  stdout : list string;
}.

(** [make(chan int, 4)] *)
Definition throttle_cap : nat := 4.

Definition init (files : list string) (fs0 : Os.filesystem) : State :=
  {| pc := MRange files; throttle := 0; wg := 0; gs := [];
     fs := fs0; stdout := [] |}.

(** One statement of the main goroutine, if it is not blocked. *)
Definition main_step (s : State) : option State :=
  match pc s with
  | MRange [] =>
      Some {| pc := MWait; throttle := throttle s; wg := wg s; gs := gs s;
              fs := fs s; stdout := stdout s |}
  | MRange (file :: files) =>
      if decide (throttle s < throttle_cap) then
        Some {| pc := MAdd file files; throttle := S (throttle s); wg := wg s;
                gs := gs s; fs := fs s; stdout := stdout s |}
      else None
  | MAdd file files =>
      Some {| pc := MGo file files; throttle := throttle s; wg := S (wg s);
              gs := gs s; fs := fs s; stdout := stdout s |}
  | MGo file files =>
      Some {| pc := MRange files; throttle := throttle s; wg := wg s;
              gs := gs s ++ [GRun file]; fs := fs s; stdout := stdout s |}
  | MWait =>
      if decide (wg s = 0) then
        Some {| pc := MExit; throttle := throttle s; wg := wg s; gs := gs s;
                fs := fs s; stdout := stdout s |}
      else None
  | MExit => None
  end.

(** What the goroutine prints after [handleTemplate] has returned. *)
Definition report (err : option error) : list string :=
  match err with
  | Some err => [err +:+ LF]
  | None => []
  end.

(** One statement of the goroutine [i], if it is not blocked; the call of
    [handleTemplate] and the report of its error are one step. *)
Definition goroutine_step (v : Viper.t) (i : nat) (s : State) : option State :=
  match gs s !! i with
  | Some (GRun file) =>
      let r := handleTemplate v (fs s) file in
      Some {| pc := pc s; throttle := throttle s; wg := wg s;
              gs := <[i := GRecv]> (gs s); fs := h_fs r;
              stdout := stdout s ++ h_stdout r ++ report (h_err r) |}
  | Some GRecv =>
      match throttle s with
      | S n =>
          Some {| pc := pc s; throttle := n; wg := wg s;
                  gs := <[i := GDefer]> (gs s); fs := fs s; stdout := stdout s |}
      | 0 => None
      end
  | Some GDefer =>
      match wg s with
      | S n =>
          Some {| pc := pc s; throttle := throttle s; wg := n;
                  gs := <[i := GExit]> (gs s); fs := fs s; stdout := stdout s |}
      | 0 => None
      end
  | Some GExit | None => None
  end.

Definition step (v : Viper.t) (s s' : State) : Prop :=
  main_step s = Some s' ∨ ∃ i, goroutine_step v i s = Some s'.

(** The states an execution of the loop can be in. *)
Definition reachable (v : Viper.t) (files : list string)
    (fs0 : Os.filesystem) (s : State) : Prop :=
  rtc (step v) (init files fs0) s.

(** How the process ends. A panic ends it with status 2, a return of
    [main] with status 0. *)
Inductive Outcome : Type :=
  | Panicked (err : error)
  | Exited (fs : Os.filesystem) (stdout : list string).

Definition exit_status (o : Outcome) : nat :=
  match o with
  | Panicked _ => 2
  | Exited _ _ => 0
  end.

(** [main fs o]: started on the file system [fs], the process can end
    as [o]. *)
Definition main (fs0 : Os.filesystem) (o : Outcome) : Prop :=
  match main_start fs0 with
  | Panic err => o = Panicked err
  | Return printed => o = Exited fs0 printed
  | Dispatch v files =>
      ∃ s, reachable v files fs0 s ∧ pc s = MExit ∧ o = Exited (fs s) (stdout s)
  end.

(** The number of render jobs that are executing. *)
Definition is_running (g : gpc) : bool :=
  match g with GRun _ => true | _ => false end.

Definition executing (s : State) : nat :=
  length (filter is_running (gs s)).

(** A schedule names who moves: [None] the main goroutine, [Some i] the
    goroutine [i]. *)
Fixpoint exec (v : Viper.t) (schedule : list (option nat)) (s : State)
  : option State :=
  match schedule with
  | [] => Some s
  | who :: schedule' =>
      match who with
      | None => main_step s
      | Some i => goroutine_step v i s
      end ≫= exec v schedule'
  end.

End Program.

Global Arguments handleTemplate : simpl never.
Global Arguments parseConfiguration : simpl never.
Global Arguments main_start : simpl never.
Global Arguments main_step : simpl never.
Global Arguments goroutine_step : simpl never.
Global Arguments Filepath.Glob : simpl never.
Global Arguments Filepath.Match : simpl never.
Global Arguments Os.MkdirAll : simpl never.
Global Arguments Os.Create : simpl never.
Global Arguments Path.Clean : simpl never.

(** ** What the throttle and the wait group count *)
Section Counting.

(** A goroutine holds a place in the channel from before it is started
    until it has received from the channel. *)
Definition holding (g : gpc) : bool :=
  match g with GRun _ | GRecv => true | GDefer | GExit => false end.

(** It is counted by the wait group until its deferred call. *)
Definition unfinished (g : gpc) : bool :=
  match g with GRun _ | GRecv | GDefer => true | GExit => false end.

(** The file the main goroutine has sent a value for, or added to the
    wait group, without having started its goroutine yet. *)
Definition sent_for (p : mpc) : nat :=
  match p with MAdd _ _ | MGo _ _ => 1 | _ => 0 end.

Definition added_for (p : mpc) : nat :=
  match p with MGo _ _ => 1 | _ => 0 end.

(** The files for which no goroutine is started yet. *)
Definition undispatched (p : mpc) : nat :=
  match p with
  | MRange files => length files
  | MAdd _ files | MGo _ files => S (length files)
  | MWait | MExit => 0
  end.

Record counted (files : list string) (s : State) : Prop := {
  counted_throttle :
    throttle s = length (filter holding (gs s)) + sent_for (pc s);
  counted_cap : (throttle s ≤ throttle_cap)%nat;
  counted_wg :
    wg s = length (filter unfinished (gs s)) + added_for (pc s);
  counted_files : length (gs s) + undispatched (pc s) = length files;
  counted_exit : pc s = MExit → wg s = 0;
}.

(** The statements left to run: every step uses one up. *)
Definition gpc_left (g : gpc) : nat :=
  match g with GRun _ => 3 | GRecv => 2 | GDefer => 1 | GExit => 0 end.

Definition mpc_left (p : mpc) : nat :=
  match p with
  | MRange files => 6 * length files + 2
  | MAdd _ files => 6 * length files + 7
  | MGo _ files => 6 * length files + 6
  | MWait => 1
  | MExit => 0
  end.

Definition left (s : State) : nat :=
  mpc_left (pc s) + sum_list_with gpc_left (gs s).

End Counting.

(** ** Running twice *)
Section Rerun.

Context `{Libs}.

(** What a path name denotes if every directory on the way exists: the
    resolution of [Os.walk] without the file system. *)
Fixpoint lex_walk (cur : Os.location) (es : list string) : Os.location :=
  match es with
  | [] => cur
  | e :: es' =>
      if decide (e = "" ∨ e = ".") then lex_walk cur es'
      else if decide (e = "..") then lex_walk (Os.parent cur) es'
      else lex_walk (cur ++ [e]) es'
  end.

Definition lexical (cwd : Os.location) (name : string) : Os.location :=
  lex_walk (if Path.IsRooted name then [] else cwd) (Strings.SplitSlash name).

(** An element that names an entry of the directory it is looked up in. *)
Definition named (e : string) : bool :=
  negb (bool_decide (e = "" ∨ e = "." ∨ e = "..")).

(** A file system in which whatever exists is in a directory. *)
Definition well_formed (fs : Os.filesystem) : Prop :=
  map_Forall (λ l _, Os.is_dir fs (Os.parent l) = true) fs.

(** [Os.MkdirAll] seen from the directory [l] the cleaned path starts in,
    [ns] being its elements: [None] when a file is in the way. *)
Fixpoint mkdirs (fs : Os.filesystem) (l : Os.location) (ns : list string)
  : option Os.filesystem :=
  match ns with
  | [] => Some fs
  | n :: ns' =>
      match Os.node_at fs (l ++ [n]) with
      | Some Os.Dir => mkdirs fs (l ++ [n]) ns'
      | Some (Os.File _) => None
      | None => mkdirs (<[l ++ [n] := Os.Dir]> fs) (l ++ [n]) ns'
      end
  end.

Definition outputFile (v : Viper.t) (file : string) : string :=
  Viper.GetString v (tmplName file +:+ ".output").

(** Where the output of a template goes. *)
Definition destination (P : Process) (v : Viper.t) (file : string) : Os.location :=
  lexical (cwd P) (outputFile v file).

(** The destinations of the templates that have one. *)
Definition destinations (P : Process) (v : Viper.t) (files : list string)
  : list Os.location :=
  omap (λ file, if decide (outputFile v file = "") then None
                else Some (destination P v file)) files.

(** The specification's idempotence, for the process [P] started on [fs0]:
    if a first run ends and leaves the configuration and the template files
    as they were, then after any second run every output file holds what it
    held after the first. *)
Definition rerun_identical (P : Process) (fs0 : Os.filesystem) : Prop :=
  ∀ v files fs1 printed1 fs2 printed2,
    main_start P fs0 = Dispatch v files →
    main P fs0 (Exited fs1 printed1) →
    main_start P fs1 = Dispatch v files →
    Forall (λ file, Os.ReadFile fs1 (cwd P) file = Os.ReadFile fs0 (cwd P) file) files →
    main P fs1 (Exited fs2 printed2) →
    Forall (λ file, Os.ReadFile fs2 (cwd P) (outputFile v file)
                    = Os.ReadFile fs1 (cwd P) (outputFile v file)) files.

(** The templates [files] keep apart on [fs0]: the file system is well
    formed and the working directory exists; the templates are files; no
    two of them have the same destination; no destination is a template;
    and no destination is written with a [..] in it. *)
Record apart (P : Process) (v : Viper.t) (files : list string)
    (fs0 : Os.filesystem) : Prop := {
  apart_well_formed : well_formed fs0;
  apart_cwd : Os.is_dir fs0 (cwd P) = true;
  apart_regular : Forall (λ file, is_Some (Os.ReadFile fs0 (cwd P) file)) files;
  apart_distinct : NoDup (destinations P v files);
  apart_templates :
    Forall (λ file, lexical (cwd P) file ∉ destinations P v files) files;
  apart_plain :
    Forall (λ file, ".." ∉ Strings.SplitSlash (outputFile v file)) files;
}.

End Rerun.

(** ** Path names by their elements *)
Section Elements.

Definition no_slash (e : string) : Prop := Strings.ContainsByte e "/" = false.

(** The elements of a path name that name something. *)
Fixpoint names (es : list string) : list string :=
  match es with
  | [] => []
  | e :: es' => if named e then e :: names es' else names es'
  end.

(** Every directory from [l] down along [ns] exists. *)
Definition prefix_dirs (fs : Os.filesystem) (l : Os.location) (ns : list string)
  : Prop :=
  ∀ k, k ≤ length ns → Os.is_dir fs (l ++ take k ns) = true.

(** [fs'] has what [fs] has, and new directories. *)
Definition grows (fs fs' : Os.filesystem) : Prop :=
  ∀ q, Os.node_at fs' q = Os.node_at fs q
       ∨ (Os.node_at fs q = None ∧ Os.node_at fs' q = Some Os.Dir).

(** The result of [MkdirAll] in terms of [mkdirs]. *)
Definition made (fs : Os.filesystem) (o : option Os.filesystem)
    (r : Os.filesystem * option error) : Prop :=
  match o with
  | Some fs' => r = (fs', None)
  | None => ∃ e, r = (fs, Some e)
  end.

(** What [handleTemplate] does to the file system when it gets to make the
    directories: [base] is where the output path starts, [es] are its
    elements and [w] is the text to write. *)
Definition settle (fs : Os.filesystem) (base : Os.location) (es : list string)
    (w : string) : Os.filesystem :=
  match mkdirs fs base (names (removelast es)) with
  | None => fs
  | Some fs' =>
      match Os.node_at fs' (base ++ names es) with
      | Some Os.Dir => fs'
      | _ => <[base ++ names es := Os.File w]> fs'
      end
  end.

(** The three ways in which [settle] has nothing left to do: a file is in
    the way of the directories, the destination is a directory, or the
    text is there. *)
Definition settled (fs : Os.filesystem) (base : Os.location) (es : list string)
    (w : string) : Prop :=
  (∃ k c, 1 ≤ k ≤ length (names (removelast es))
          ∧ Os.node_at fs (base ++ take k (names (removelast es)))
            = Some (Os.File c))
  ∨ (prefix_dirs fs base (names (removelast es))
     ∧ (Os.node_at fs (base ++ names es) = Some Os.Dir
        ∨ Os.node_at fs (base ++ names es) = Some (Os.File w))).

End Elements.

(** ** What a run keeps *)
Section Keeping.

Context `{Libs}.

(** [fs'] is [fs] but for new directories and for the file [d], which
    holds [w] and was not a directory. *)
Definition changed_by (fs fs' : Os.filesystem) (d : Os.location) (w : string)
  : Prop :=
  ∀ q, Os.node_at fs' q = Os.node_at fs q
       ∨ (Os.node_at fs q = None ∧ Os.node_at fs' q = Some Os.Dir)
       ∨ (q = d ∧ Os.node_at fs q ≠ Some Os.Dir
          ∧ Os.node_at fs' q = Some (Os.File w)).

(** Nothing of [fs] is gone in [fs']: directories are directories, files
    are files. *)
Definition keeps (fs fs' : Os.filesystem) : Prop :=
  ∀ q, (Os.node_at fs q = Some Os.Dir → Os.node_at fs' q = Some Os.Dir)
       ∧ (∀ c, Os.node_at fs q = Some (Os.File c) →
               ∃ c', Os.node_at fs' q = Some (Os.File c')).

(** Where the output path of [file] starts. *)
Definition output_base (P : Process) (v : Viper.t) (file : string) : Os.location :=
  if Path.IsRooted (outputFile v file) then [] else cwd P.

(** The text [handleTemplate] writes for [file], read on [fs0]. *)
Definition rendering (P : Process) (v : Viper.t) (fs0 : Os.filesystem)
    (file : string) : option string :=
  t ← ParseFiles P fs0 file;
  Some (template_Execute t (Viper.GetStringMap v (tmplName file +:+ ".vars"))).1.

(** The job of [file], as [fs0] has it, has nothing left to do on [fs]. *)
Definition job_settled (P : Process) (v : Viper.t) (fs0 : Os.filesystem)
    (file : string) (fs : Os.filesystem) : Prop :=
  ∀ w, rendering P v fs0 file = Some w → outputFile v file ≠ "" →
       settled fs (output_base P v file) (Strings.SplitSlash (outputFile v file)) w.

(** The file system of a run is in order: well formed, with the working
    directory, and with the templates as [fs0] has them. *)
Record in_order (P : Process) (files : list string) (fs0 fs : Os.filesystem)
  : Prop := {
  in_order_well_formed : well_formed fs;
  in_order_cwd : Os.is_dir fs (cwd P) = true;
  in_order_templates :
    Forall (λ file, Os.ReadFile fs (cwd P) file = Os.ReadFile fs0 (cwd P) file) files;
}.

(** The files the main goroutine has not started a goroutine for. *)
Definition pending (p : mpc) : list string :=
  match p with
  | MRange files => files
  | MAdd file files | MGo file files => file :: files
  | MWait | MExit => []
  end.

(** The goroutines are those of the first files, in order. *)
Record tracks (files : list string) (s : State) : Prop := {
  tracks_running : ∀ i file, gs s !! i = Some (GRun file) → files !! i = Some file;
  tracks_pending : drop (length (gs s)) files = pending (pc s);
}.

(** What a first run keeps true: the file system is in order, and the jobs
    that have returned have nothing left to do. *)
Record run_kept (P : Process) (v : Viper.t) (files : list string)
    (fs0 : Os.filesystem) (s : State) : Prop := {
  kept_order : in_order P files fs0 (fs s);
  kept_tracks : tracks files s;
  kept_settled :
    ∀ i file g, files !! i = Some file → gs s !! i = Some g →
                is_running g = false → job_settled P v fs0 file (fs s);
}.

End Keeping.

(** The name of a template as the specification words it: the base name of
    the file, with its extension stripped. *)
Definition base_without_extension (file : string) : string :=
  Strings.TrimSuffix (Filepath.Base file) (Filepath.Ext (Filepath.Base file)).

(** ** A small instance of the libraries, for the examples

    Templates are text in which [{{.name}}] stands for the variable [name];
    a variable that is not bound to a scalar stops the execution.
    Configuration files of type [properties] are lines [key=value]; the
    keys that share what is before their last dot also make up the mapping
    bound to that prefix. *)
Module Toy.

Inductive piece : Type :=
  | Text (s : string)
  | Field (name : string).

(** The text up to the first occurrence of [stop], and what follows that
    occurrence. *)
Fixpoint until (stop : string) (s : string) : option (string * string) :=
  if Strings.HasPrefix s stop then Some ("", Strings.drop (String.length stop) s)
  else match s with
       | "" => None
       | String c s' =>
           match until stop s' with
           | Some (before, after) => Some (String c before, after)
           | None => None
           end
       end.

Fixpoint parse (fuel : nat) (s : string) : option (list piece) :=
  match fuel with
  | 0 => None
  | S fuel =>
      match until "{{." s with
      | None => Some [Text s]
      | Some (text, s) =>
          match until "}}" s with
          | None => None
          | Some (name, s) => (λ ps, Text text :: Field name :: ps) <$> parse fuel s
          end
      end
  end.

Fixpoint lookup_var (m : Vars) (name : string) : option Value :=
  match m with
  | [] => None
  | (k, v) :: m' => if decide (k = name) then Some v else lookup_var m' name
  end.

Fixpoint execute (ps : list piece) (m : Vars) : string * option error :=
  match ps with
  | [] => ("", None)
  | Text s :: ps' => let '(w, e) := execute ps' m in (s +:+ w, e)
  | Field name :: ps' =>
      match lookup_var m name with
      | Some (VMap _) | None => ("", Some ("no value for " +:+ name))
      | v => let '(w, e) := execute ps' m in (Cast.ToString v +:+ w, e)
      end
  end.

Fixpoint lines (s : string) : list string :=
  match s with
  | "" => [""]
  | String c s' =>
      if (c =? ascii_of_nat 10)%char then "" :: lines s'
      else match lines s' with
           | [] => [String c ""]
           | l :: ls => String c l :: ls
           end
  end.

(** [key] without its last dotted element, and that element. *)
Definition split_key (key : string) : option (string * string) :=
  match until "." (String.rev key) with
  | Some (rfield, rprefix) => Some (String.rev rprefix, String.rev rfield)
  | None => None
  end.

Definition bind (kvs : gmap string Value) (key value : string)
  : gmap string Value :=
  let kvs := <[key := VString value]> kvs in
  match split_key key with
  | Some (prefix, field) =>
      <[prefix := VMap (Cast.ToStringMap (kvs !! prefix) ++ [(field, VString value)])]> kvs
  | None => kvs
  end.

Fixpoint decode (ls : list string) (kvs : gmap string Value)
  : option (gmap string Value) :=
  match ls with
  | [] => Some kvs
  | l :: ls' =>
      if decide (l = "") then decode ls' kvs
      else match until "=" l with
           | Some (key, value) => decode ls' (bind kvs key value)
           | None => None
           end
  end.

Definition libs : Libs := {|
  Template := list piece;
  template_Parse s := parse (S (String.length s)) s;
  template_Execute := execute;
  SupportedExts := ["json"; "toml"; "yaml"; "yml"; "properties"; "props"; "prop"; "hcl"];
  unmarshal ext text :=
    if decide (ext = "properties") then decode (lines text) ∅ else None;
|}.

End Toy.

(** ** Worlds for the examples *)
Module Example.

Import Os.

#[local] Existing Instance Toy.libs.

Definition env (xdg home : string) (k : string) : string :=
  if decide (k = "XDG_CONFIG_HOME") then xdg
  else if decide (k = "HOME") then home
  else "".

(** The user [u], at home, without flags. *)
Definition u : Process :=
  {| Getenv := env "" "/home/u"; user_Current := ("/home/u", None);
     config := ""; cwd := ["home"; "u"] |}.

Definition ricer : location := ["home"; "u"; ".config"; "ricer"].

Definition home_u : filesystem :=
  list_to_map [
    (["home"], Dir); (["home"; "u"], Dir); (["home"; "u"; ".config"], Dir);
    (ricer, Dir); ((ricer ++ ["templates"])%list, Dir)].

(** The scenario of the specification, a template for the shell, and
    three more: [plain] has no variables, [broken] uses a variable that
    is not bound, and [b] has no output. *)
Definition ricer_config : string :=
  "shell.vars.editor=vim" +:+ LF +:+ "shell.output=/tmp/out/shellrc" +:+ LF
  +:+ "plain.output=/tmp/out/plain" +:+ LF
  +:+ "broken.output=rel/broken.conf" +:+ LF.

Definition templates : location := (ricer ++ ["templates"])%list.

Definition ricer_fs : filesystem :=
  <[(ricer ++ ["config.properties"])%list := File ricer_config]>
  (<[(templates ++ ["shell.tmpl"])%list := File "export EDITOR={{.editor}}"]>
  (<[(templates ++ ["plain.tmpl"])%list := File "static text"]>
  (<[(templates ++ ["broken.tmpl"])%list := File "hello {{.x}} world"]>
  (<[(templates ++ ["b.tmpl"])%list := File "anything"]> home_u)))).

Definition ricer_v : Viper.t := (parseConfiguration u ricer_fs Viper.new).1.

Definition b_tmpl : string := "/home/u/.config/ricer/templates/b.tmpl".
Definition plain_tmpl : string := "/home/u/.config/ricer/templates/plain.tmpl".
Definition broken_tmpl : string := "/home/u/.config/ricer/templates/broken.tmpl".

(** The same configuration, but no templates directory. *)
Definition no_templates_fs : filesystem :=
  <[(ricer ++ ["config.properties"])%list := File ricer_config]>
  (list_to_map [
    (["home"], Dir); (["home"; "u"], Dir); (["home"; "u"; ".config"], Dir);
    (ricer, Dir)]).

(** A configuration home whose name has an opening bracket in it, the
    configuration being given by the flag. *)
Definition bracket : Process :=
  {| Getenv := env "/home/u/[cfg" "/home/u"; user_Current := ("/home/u", None);
     config := "/home/u/.config/ricer/config.properties"; cwd := ["home"; "u"] |}.

Definition bracket_v : Viper.t :=
  (parseConfiguration bracket ricer_fs Viper.new).1.

(** Five files to dispatch, and the state in which the main goroutine has
    started four goroutines, none of which has run yet. *)
Definition five : list string :=
  ["/t/1.tmpl"; "/t/2.tmpl"; "/t/3.tmpl"; "/t/4.tmpl"; "/t/5.tmpl"].

Definition four_started : list (option nat) := replicate 12 None.

Definition busy : State :=
  default (init five ricer_fs) (exec u ricer_v four_started (init five ricer_fs)).

(** Two templates with one destination. *)
Definition dup_config : string :=
  "a.output=/tmp/out" +:+ LF +:+ "b.output=/tmp/out" +:+ LF.

Definition dup_fs : filesystem :=
  <[(ricer ++ ["config.properties"])%list := File dup_config]>
  (<[(templates ++ ["a.tmpl"])%list := File "A"]>
  (<[(templates ++ ["b.tmpl"])%list := File "B"]> home_u)).

Definition dup_v : Viper.t := (parseConfiguration u dup_fs Viper.new).1.

Definition dup_files : list string :=
  ["/home/u/.config/ricer/templates/a.tmpl";
   "/home/u/.config/ricer/templates/b.tmpl"].

(** One goroutine after the other. *)
Definition in_turn : list (option nat) :=
  [None; None; None; Some 0; Some 0; Some 0;
   None; None; None; Some 1; Some 1; Some 1; None; None].

(** Both goroutines started, the second one running first. *)
Definition second_first : list (option nat) :=
  [None; None; None; None; None; None;
   Some 1; Some 0; Some 0; Some 0; Some 1; Some 1; None; None].

Definition dup_first_run : State :=
  default (init dup_files dup_fs) (exec u dup_v in_turn (init dup_files dup_fs)).

Definition dup_second_run : State :=
  default (init dup_files (fs dup_first_run))
    (exec u dup_v second_first (init dup_files (fs dup_first_run))).

(** The files of [ricer_fs], and two schedules for them: one goroutine
    after the other, and all of them started before the last one runs
    first. *)
Definition ricer_files : list string :=
  [b_tmpl; broken_tmpl; plain_tmpl;
   "/home/u/.config/ricer/templates/shell.tmpl"].

Definition one_by_one (n : nat) : list (option nat) :=
  flat_map (λ i, [None; None; None; Some i; Some i; Some i]) (seq 0 n)
  ++ [None; None].

Definition last_first (n : nat) : list (option nat) :=
  replicate (3 * n) None
  ++ flat_map (λ i, [Some i; Some i; Some i]) (rev (seq 0 n))
  ++ [None; None].

Definition ricer_first_run : State :=
  default (init ricer_files ricer_fs)
    (exec u ricer_v (one_by_one 4) (init ricer_files ricer_fs)).

Definition ricer_second_run : State :=
  default (init ricer_files (fs ricer_first_run))
    (exec u ricer_v (last_first 4) (init ricer_files (fs ricer_first_run))).

(** A template file whose name is nothing but the extension. *)
Definition dot_tmpl : string := "/home/u/.config/ricer/templates/.tmpl".

Definition dot_fs : filesystem :=
  <[(templates ++ [".tmpl"])%list := File "no name"]> home_u.

End Example.

(** ** The files [main] finds *)

(** The names [*.tmpl] stands for: those that end in [.tmpl] and have no
    separator. *)
Definition is_template_name (n : string) : bool :=
  Strings.HasSuffix n ".tmpl" && negb (Strings.ContainsByte n "/").

(** ** Cleaned path names *)

(** The path name [Path.Clean] writes for the elements it kept. *)
Definition path_of (rooted : bool) (es : list string) : string :=
  if rooted then "/" +:+ Strings.JoinSlash es
  else if decide (es = []) then "." else Strings.JoinSlash es.

(** The elements [Path.Clean] keeps: names, after some [..] if the path is
    relative, none of them with a separator. *)
Definition cleaned (rooted : bool) (es : list string) : Prop :=
  ∃ k ns, es = replicate k ".." ++ ns
          ∧ Forall (λ e, named e = true) ns
          ∧ (rooted = true → k = 0)
          ∧ Forall no_slash es.

(** * Theorems *)

(** ** The file system *)
Section os_facts.

Import Os.
Implicit Types (fs : filesystem) (l cur : location).

Lemma node_at_insert fs l l' n :
  l ≠ [] → node_at (<[l := n]> fs) l' = if decide (l = l') then Some n else node_at fs l'.
Proof.
  intros Hl. unfold node_at. case_decide as Hl'; subst.
  - by rewrite decide_False.
  - by rewrite lookup_insert.
Qed.

(** Writing a file where there is no directory does not change which
    locations are directories, hence not what names resolve to either. *)
Lemma is_dir_insert_file fs l c l' :
  node_at fs l ≠ Some Dir → is_dir (<[l := File c]> fs) l' = is_dir fs l'.
Proof.
  intros Hl. assert (l ≠ []) by (intros ->; by apply Hl).
  unfold is_dir. rewrite node_at_insert by done.
  case_decide; subst; [|done].
  rewrite bool_decide_eq_false_2 by done. by rewrite bool_decide_eq_false_2.
Qed.

Lemma walk_insert_file fs l c cur es :
  node_at fs l ≠ Some Dir → walk (<[l := File c]> fs) cur es = walk fs cur es.
Proof.
  intros Hl. revert cur. induction es as [|e es IH]; intros cur; [done|].
  simpl. rewrite is_dir_insert_file by done.
  destruct (is_dir fs cur); [|done]. by repeat case_decide.
Qed.

Lemma namei_insert_file fs cwd l c name :
  node_at fs l ≠ Some Dir → namei (<[l := File c]> fs) cwd name = namei fs cwd name.
Proof. intros. unfold namei. case_decide; [done|]. by apply walk_insert_file. Qed.

Lemma Create_Some fs cwd name fs' f :
  Create fs cwd name = Some (fs', f) →
  namei fs cwd name = Some f ∧ node_at fs f ≠ Some Dir ∧ fs' = <[f := File ""]> fs.
Proof.
  unfold Create. destruct (namei fs cwd name) as [l|]; [|done]. simpl.
  destruct (node_at fs l) as [[]|] eqn:E; intros; simplify_eq; by rewrite ?E.
Qed.

(** After [Create] and the writes, the name reads back as what was
    written. *)
Lemma ReadFile_Create_Write fs cwd name fs' f written :
  Create fs cwd name = Some (fs', f) →
  ReadFile (Write fs' f written) cwd name = Some written.
Proof.
  intros (Hn & Hd & ->)%Create_Some.
  assert (f ≠ []) by (intros ->; by apply Hd).
  unfold ReadFile, Stat, Write. rewrite insert_insert_eq.
  rewrite namei_insert_file, Hn by done. simpl.
  rewrite node_at_insert by done. by rewrite decide_True.
Qed.

End os_facts.

(** ** One render job *)
Section handleTemplate_facts.

Context `{Libs}.
Implicit Types (P : Process) (v : Viper.t) (fs : Os.filesystem) (file : string).

Lemma GetString_absent v key :
  Viper.Get v key = None ∨ Viper.Get v key = Some (VString "") →
  Viper.GetString v key = "".
Proof. unfold Viper.GetString. by intros [-> | ->]. Qed.

Lemma GetStringMap_absent v key :
  Viper.Get v key = None → Viper.GetStringMap v key = [].
Proof. unfold Viper.GetStringMap. by intros ->. Qed.

(** C2: a template whose configuration has no [<name>.output], or has it
    bound to the empty string, makes [handleTemplate] return an error and
    leave the file system as it found it, printing nothing. The error
    names the template: it is the missing-output error with the template
    name if the file parsed, and the parse error with the file name if it
    did not. *)
Theorem handleTemplate_missing_output P v fs file :
  Viper.Get v (tmplName file +:+ ".output") = None
  ∨ Viper.Get v (tmplName file +:+ ".output") = Some (VString "") →
  let r := handleTemplate P v fs file in
  h_fs r = fs ∧ h_stdout r = [] ∧
  h_err r = Some (match ParseFiles P fs file with
                  | Some _ => "You have to define an output for template "
                              +:+ tmplName file
                  | None => "Could not parse template " +:+ file
                  end).
Proof.
  intros Hout%GetString_absent. unfold handleTemplate.
  destruct (ParseFiles P fs file) as [t|]; [|done].
  rewrite Hout. by rewrite decide_True.
Qed.

(** The path of [handleTemplate] that reaches [Execute]. *)
Lemma handleTemplate_written P v fs file t fs1 fs2 f :
  let outputFile := Viper.GetString v (tmplName file +:+ ".output") in
  ParseFiles P fs file = Some t →
  outputFile ≠ "" →
  Os.MkdirAll fs (cwd P) (Path.Dir outputFile) = (fs1, None) →
  Os.Create fs1 (cwd P) outputFile = Some (fs2, f) →
  handleTemplate P v fs file =
    {| h_fs := Os.Write fs2 f
                 (template_Execute t
                    (Viper.GetStringMap v (tmplName file +:+ ".vars"))).1;
       h_stdout := ["Creating " +:+ outputFile +:+ " from template "
                    +:+ tmplName file +:+ "." +:+ LF];
       h_err := None |}.
Proof.
  intros outputFile Ht Hout Hmk Hcr. unfold handleTemplate.
  rewrite Ht. fold outputFile. rewrite decide_False by done.
  rewrite Hmk, Hcr. by destruct (template_Execute _ _).
Qed.

(** C3: once the template is parsed, the output path is there, and the
    directories and the file are created, [handleTemplate] returns no
    error whatever [Execute] returned; the destination then holds what
    was written before the execution stopped. *)
Theorem handleTemplate_execute_error_dropped P v fs file t fs1 fs2 f written e :
  let outputFile := Viper.GetString v (tmplName file +:+ ".output") in
  ParseFiles P fs file = Some t →
  outputFile ≠ "" →
  Os.MkdirAll fs (cwd P) (Path.Dir outputFile) = (fs1, None) →
  Os.Create fs1 (cwd P) outputFile = Some (fs2, f) →
  template_Execute t (Viper.GetStringMap v (tmplName file +:+ ".vars")) = (written, e) →
  let r := handleTemplate P v fs file in
  h_err r = None ∧
  h_fs r = Os.Write fs2 f written ∧
  Os.ReadFile (h_fs r) (cwd P) outputFile = Some written ∧
  h_stdout r = ["Creating " +:+ outputFile +:+ " from template "
                +:+ tmplName file +:+ "." +:+ LF].
Proof.
  intros outputFile Ht Hout Hmk Hcr Hex r. subst r.
  rewrite (handleTemplate_written P v fs file t fs1 fs2 f) by done.
  rewrite Hex. simpl. repeat split.
  by eapply ReadFile_Create_Write.
Qed.

Lemma vars_key_not_output name : name +:+ ".vars" ≠ name +:+ ".output".
Proof. by intros ?%(inj _). Qed.

(** C5: when the configuration has no [<name>.vars], the template is
    executed on the empty mapping; and whether [handleTemplate] returns an
    error, and which, does not depend on what [<name>.vars] is bound to,
    so its absence is not an error. *)
Theorem handleTemplate_no_vars P v fs file :
  Viper.Get v (tmplName file +:+ ".vars") = None →
  Viper.GetStringMap v (tmplName file +:+ ".vars") = [] ∧
  (∀ t fs1 fs2 f,
     ParseFiles P fs file = Some t →
     Viper.GetString v (tmplName file +:+ ".output") ≠ "" →
     Os.MkdirAll fs (cwd P)
       (Path.Dir (Viper.GetString v (tmplName file +:+ ".output"))) = (fs1, None) →
     Os.Create fs1 (cwd P) (Viper.GetString v (tmplName file +:+ ".output"))
       = Some (fs2, f) →
     h_err (handleTemplate P v fs file) = None ∧
     h_fs (handleTemplate P v fs file)
       = Os.Write fs2 f (template_Execute t []).1) ∧
  (∀ m,
     let v' := {| Viper.configName := Viper.configName v;
                  Viper.configPaths := Viper.configPaths v;
                  Viper.configFile := Viper.configFile v;
                  Viper.store := <[tmplName file +:+ ".vars" := m]> (Viper.store v) |} in
     h_err (handleTemplate P v' fs file) = h_err (handleTemplate P v fs file)).
Proof.
  intros Hvars. pose proof (GetStringMap_absent _ _ Hvars) as Hm.
  split; [done|]. split.
  - intros t fs1 fs2 f Ht Hout Hmk Hcr.
    rewrite (handleTemplate_written P v fs file t fs1 fs2 f) by done.
    by rewrite Hm.
  - intros m v'. unfold handleTemplate.
    destruct (ParseFiles P fs file) as [t|]; [|done].
    assert (Viper.GetString v' (tmplName file +:+ ".output")
            = Viper.GetString v (tmplName file +:+ ".output")) as ->.
    { unfold Viper.GetString, Viper.Get, v'. simpl.
      by rewrite lookup_insert_ne by apply vars_key_not_output. }
    case_decide; [done|].
    destruct (Os.MkdirAll _ _ _) as [fs1 [err|]]; [done|].
    destruct (Os.Create _ _ _) as [[fs2 f]|]; [|done].
    by do 2 destruct (template_Execute _ _).
Qed.

End handleTemplate_facts.

Section handleTemplate_examples.

Import Example.
#[local] Existing Instance Toy.libs.

Lemma handleTemplate_missing_output_witness :
  (Viper.Get ricer_v (tmplName b_tmpl +:+ ".output") = None
   ∨ Viper.Get ricer_v (tmplName b_tmpl +:+ ".output") = Some (VString "")) ∧
  h_fs (handleTemplate u ricer_v ricer_fs b_tmpl) = ricer_fs ∧
  h_stdout (handleTemplate u ricer_v ricer_fs b_tmpl) = [] ∧
  h_err (handleTemplate u ricer_v ricer_fs b_tmpl)
    = Some (match ParseFiles u ricer_fs b_tmpl with
            | Some _ => "You have to define an output for template "
                        +:+ tmplName b_tmpl
            | None => "Could not parse template " +:+ b_tmpl
            end).
Proof.
  split; [left; vm_compute; reflexivity|].
  apply (handleTemplate_missing_output u ricer_v ricer_fs b_tmpl).
  left; vm_compute; reflexivity.
Defined.

(** The template [broken] stops at its unbound variable: the job
    succeeds and leaves the text before the variable. *)
Lemma handleTemplate_execute_error_dropped_witness :
  let outputFile := "rel/broken.conf" in
  let t := [Toy.Text "hello "; Toy.Field "x"; Toy.Text " world"] in
  let fs1 := <[["home"; "u"; "rel"] := Os.Dir]> ricer_fs in
  let f := ["home"; "u"; "rel"; "broken.conf"] in
  let fs2 := <[f := Os.File ""]> fs1 in
  (ParseFiles u ricer_fs broken_tmpl = Some t ∧
   Viper.GetString ricer_v (tmplName broken_tmpl +:+ ".output") ≠ "" ∧
   Os.MkdirAll ricer_fs (cwd u)
     (Path.Dir (Viper.GetString ricer_v (tmplName broken_tmpl +:+ ".output")))
     = (fs1, None) ∧
   Os.Create fs1 (cwd u) (Viper.GetString ricer_v (tmplName broken_tmpl +:+ ".output"))
     = Some (fs2, f) ∧
   template_Execute t (Viper.GetStringMap ricer_v (tmplName broken_tmpl +:+ ".vars"))
     = ("hello ", Some "no value for x")) ∧
  h_err (handleTemplate u ricer_v ricer_fs broken_tmpl) = None ∧
  h_fs (handleTemplate u ricer_v ricer_fs broken_tmpl) = Os.Write fs2 f "hello " ∧
  Os.ReadFile (h_fs (handleTemplate u ricer_v ricer_fs broken_tmpl)) (cwd u)
    (Viper.GetString ricer_v (tmplName broken_tmpl +:+ ".output")) = Some "hello " ∧
  h_stdout (handleTemplate u ricer_v ricer_fs broken_tmpl)
    = ["Creating " +:+ Viper.GetString ricer_v (tmplName broken_tmpl +:+ ".output")
       +:+ " from template " +:+ tmplName broken_tmpl +:+ "." +:+ LF].
Proof.
  intros outputFile t fs1 f fs2.
  assert (ParseFiles u ricer_fs broken_tmpl = Some t) as H1
    by (vm_compute; reflexivity).
  assert (Viper.GetString ricer_v (tmplName broken_tmpl +:+ ".output") ≠ "") as H2
    by (vm_compute; discriminate).
  assert (Os.MkdirAll ricer_fs (cwd u)
     (Path.Dir (Viper.GetString ricer_v (tmplName broken_tmpl +:+ ".output")))
     = (fs1, None)) as H3 by compute_done.
  assert (Os.Create fs1 (cwd u)
     (Viper.GetString ricer_v (tmplName broken_tmpl +:+ ".output"))
     = Some (fs2, f)) as H4 by compute_done.
  assert (template_Execute t
     (Viper.GetStringMap ricer_v (tmplName broken_tmpl +:+ ".vars"))
     = ("hello ", Some "no value for x")) as H5 by (vm_compute; reflexivity).
  split; [exact (conj H1 (conj H2 (conj H3 (conj H4 H5))))|].
  exact (handleTemplate_execute_error_dropped u ricer_v ricer_fs broken_tmpl
           t fs1 fs2 f "hello " (Some "no value for x") H1 H2 H3 H4 H5).
Defined.

Lemma handleTemplate_no_vars_witness :
  Viper.Get ricer_v (tmplName plain_tmpl +:+ ".vars") = None ∧
  Viper.GetStringMap ricer_v (tmplName plain_tmpl +:+ ".vars") = [] ∧
  h_err (handleTemplate u ricer_v ricer_fs plain_tmpl) = None ∧
  h_fs (handleTemplate u ricer_v ricer_fs plain_tmpl)
    = Os.Write (<[["tmp"; "out"; "plain"] := Os.File ""]>
                 (<[["tmp"; "out"] := Os.Dir]> (<[["tmp"] := Os.Dir]> ricer_fs)))
        ["tmp"; "out"; "plain"] "static text".
Proof.
  assert (Viper.Get ricer_v (tmplName plain_tmpl +:+ ".vars") = None) as Hv
    by (vm_compute; reflexivity).
  split; [exact Hv|].
  destruct (handleTemplate_no_vars u ricer_v ricer_fs plain_tmpl Hv) as (Hm & Hrun & _).
  split; [exact Hm|].
  apply (Hrun [Toy.Text "static text"]
           (<[["tmp"; "out"] := Os.Dir]> (<[["tmp"] := Os.Dir]> ricer_fs)));
    [vm_compute; reflexivity | vm_compute; discriminate
    | compute_done | compute_done].
Defined.

End handleTemplate_examples.

(** ** Patterns that end in [/*.tmpl] *)
Section glob_facts.

Implicit Types (fs : Os.filesystem) (cwd : Os.location).

Lemma ContainsByte_app s1 s2 b :
  Strings.ContainsByte (s1 +:+ s2) b
  = Strings.ContainsByte s1 b || Strings.ContainsByte s2 b.
Proof.
  induction s1 as [|c s1 IH]; [done|].
  change (String c s1 +:+ s2) with (String c (s1 +:+ s2)). simpl.
  rewrite IH. by destruct (c =? b)%char.
Qed.

Lemma Split_tmpl dir : Path.Split (dir +:+ "/*.tmpl") = (dir +:+ "/", "*.tmpl").
Proof.
  induction dir as [|c dir IH]; [done|].
  change (String c dir +:+ ?s) with (String c (dir +:+ s)).
  cbn [Path.Split]. rewrite IH.
  change (Strings.ContainsByte (String c ?s) "/")
    with ((c =? "/")%char || Strings.ContainsByte s "/").
  rewrite ContainsByte_app. simpl. by rewrite !orb_true_r.
Qed.

(** A chunk of plain characters matches or not, without error. *)
Lemma matchChunk_loop_plain fuel chunk s failed :
  Strings.ContainsAny chunk "[?\" = false →
  String.length chunk < fuel →
  ∃ r, Filepath.matchChunk_loop fuel chunk s failed = Done r.
Proof.
  revert chunk s failed.
  induction fuel as [|fuel IH]; intros chunk s failed Hp Hl; [lia|].
  cbn [Filepath.matchChunk_loop]. unfold Filepath.matchChunk_iter.
  destruct chunk as [|c chunk]; [by eexists|].
  cbn [Strings.ContainsAny Strings.ContainsByte] in Hp.
  apply orb_false_iff in Hp as [Hc Hp].
  rewrite (Ascii.eqb_sym c "[") , (Ascii.eqb_sym c "?"), (Ascii.eqb_sym c "\").
  destruct ("[" =? c)%char; [done|]. destruct ("?" =? c)%char; [done|].
  destruct ("\" =? c)%char; [done|].
  cbn [String.length] in Hl. cbn [Strings.drop]. apply IH; [done|lia].
Qed.

Lemma matchChunk_tmpl s : ∃ r, Filepath.matchChunk ".tmpl" s = Done r.
Proof. apply matchChunk_loop_plain; [reflexivity|cbn; lia]. Qed.

Lemma star_search_tmpl last s :
  ∃ r, Filepath.star_search ".tmpl" last s = Done r.
Proof.
  induction s as [|c s [r IH]]; [by eexists|]. cbn [Filepath.star_search].
  destruct (IsPathSeparator c); [by eexists|].
  destruct (matchChunk_tmpl s) as [[t|] ->]; [|eauto].
  destruct (last && _); eauto.
Qed.

(** [*.tmpl] is a well-formed pattern: matching it reports no error. *)
Lemma Match_tmpl n : (Filepath.Match_result "*.tmpl" n).2 = None.
Proof.
  unfold Filepath.Match_result, Filepath.Match.
  change (S (String.length "*.tmpl")) with 7.
  cbn [Filepath.Match_loop]. unfold Filepath.Match_iter at 1.
  rewrite decide_False by done.
  change (Filepath.scanChunk "*.tmpl") with (true, ".tmpl", "").
  cbv beta iota zeta.
  change (true && bool_decide (".tmpl" = "")) with false. cbv iota.
  change (Filepath.check_rest (S (String.length "")) "") with (Done (A:=unit) ()).
  change (bool_decide ("" = "")) with true.
  cbv beta iota zeta.
  assert (∀ t, Filepath.Match_iter
                 (Filepath.Match_iter
                    (Filepath.Match_iter
                       (Filepath.Match_iter
                          (Filepath.Match_iter
                             (Filepath.Match_iter (λ _ _, OutOfFuel)))))) "" t
               = Done (bool_decide (t = ""))) as Hend by done.
  destruct (star_search_tmpl true n) as [[t|] ->];
    destruct (matchChunk_tmpl n) as [[t'|] ->];
    rewrite ?Hend; cbn [orb negb]; repeat case_match; simplify_eq; done.
Qed.

Lemma glob_names_tmpl dir names m :
  (Filepath.glob_names dir "*.tmpl" names m).2 = None.
Proof.
  revert m. induction names as [|n names IH]; intros m; [done|]. simpl.
  pose proof (Match_tmpl n) as Hn.
  destruct (Filepath.Match_result "*.tmpl" n) as [[] [e|]]; done.
Qed.

Lemma glob_tmpl fs cwd dir m : (Filepath.glob fs cwd dir "*.tmpl" m).2 = None.
Proof.
  unfold Filepath.glob. repeat case_match; try done. apply glob_names_tmpl.
Qed.

Lemma glob_dirs_tmpl fs cwd dirs m :
  (Filepath.glob_dirs fs cwd dirs "*.tmpl" m).2 = None.
Proof.
  revert m. induction dirs as [|d dirs IH]; intros m; [done|]. simpl.
  pose proof (glob_tmpl fs cwd d m) as Hd.
  destruct (Filepath.glob fs cwd d "*.tmpl" m) as [m' [e|]]; [done|]. apply IH.
Qed.

(** When the enumeration of [dir/*.tmpl] returns an error, it returns no
    file with it. *)
Lemma Glob_tmpl_error fs cwd dir files e :
  Filepath.Glob fs cwd (dir +:+ "/*.tmpl") = (files, Some e) → files = [].
Proof.
  unfold Filepath.Glob. generalize Filepath.pathSeparatorsLimit. intros limit.
  destruct limit as [|limit]; simpl; [congruence|].
  destruct (Filepath.Match_result _ "") as [? [?|]]; [congruence|].
  destruct (negb (Filepath.hasMeta _)); [repeat case_match; congruence|].
  rewrite Split_tmpl.
  destruct (negb (Filepath.hasMeta _)).
  { intros Hg. pose proof (glob_tmpl fs cwd (Filepath.cleanGlobPath (dir +:+ "/")) []) as Hn.
    rewrite Hg in Hn. done. }
  case_decide; [congruence|].
  destruct (Filepath.globWithLimit _ _ _ _) as [m [?|]]; [congruence|].
  intros Hg. pose proof (glob_dirs_tmpl fs cwd m []) as Hn. by rewrite Hg in Hn.
Qed.

End glob_facts.

(** ** [main] before and without dispatch *)
Section main_facts.

Context `{Libs}.
Implicit Types (P : Process) (v : Viper.t) (s : State).

Lemma exec_steps P v schedule s s' :
  exec P v schedule s = Some s' → rtc (step P v) s s'.
Proof.
  revert s. induction schedule as [|who schedule IH]; intros s; simpl.
  - intros [= ->]. apply rtc_refl.
  - destruct who as [i|].
    + destruct (goroutine_step P v i s) as [s1|] eqn:E; [|done]. simpl. intros Hs.
      eapply rtc_l; [right; eauto | by apply IH].
    + destruct (main_step s) as [s1|] eqn:E; [|done]. simpl. intros Hs.
      eapply rtc_l; [by left | by apply IH].
Qed.

(** With nothing to dispatch the loop is over at once and the wait
    group is not waited for. *)
Lemma reachable_no_files P v fs0 s :
  reachable P v [] fs0 s →
  s = {| pc := pc s; throttle := 0; wg := 0; gs := []; fs := fs0; stdout := [] |}
  ∧ (pc s = MRange [] ∨ pc s = MWait ∨ pc s = MExit).
Proof.
  unfold reachable. revert s. apply rtc_ind_r.
  2: intros s s' Hr [Hm|[i Hg]] [IH Hpc].
  - split; [done|]. by left.
  - rewrite IH in Hm. unfold main_step in Hm. simpl in Hm.
    destruct Hpc as [Hpc|[Hpc|Hpc]]; rewrite Hpc in Hm; simplify_eq/=; auto.
  - rewrite IH in Hg. unfold goroutine_step in Hg. by simpl in Hg.
Qed.

Lemma main_no_files P fs0 v :
  main_start P fs0 = Dispatch v [] →
  ∀ o, main P fs0 o ↔ o = Exited fs0 [].
Proof.
  intros Hs o. unfold main. rewrite Hs. split.
  - intros (s & [Hr _]%reachable_no_files & _ & ->). by rewrite Hr.
  - intros ->. eexists {| pc := MExit |}. split; [|done].
    by apply (exec_steps P v [None; None]).
Qed.

(** C8: when the configuration cannot be loaded, [main] panics with the
    error at once: the process can only end in that panic, with a
    non-zero status, and the templates directory is not even asked
    for. *)
Theorem main_panics_on_configuration_error P fs0 v err :
  parseConfiguration P fs0 Viper.new = (v, Some err) →
  main_start P fs0 = Panic err ∧
  (∀ o, main P fs0 o ↔ o = Panicked err) ∧
  (∀ o, main P fs0 o → exit_status o = 2).
Proof.
  intros Hc. assert (main_start P fs0 = Panic err) as Hs.
  { unfold main_start. by rewrite Hc. }
  split; [done|]. unfold main. rewrite Hs. split; [done|]. by intros o ->.
Qed.

(** The three ways in which the configuration fails to load. *)
Lemma ReadInConfig_not_found fs0 cwd v :
  Viper.configFile v = "" →
  Viper.findConfigFile fs0 cwd (Viper.configName v) (Viper.configPaths v) = None →
  is_Some (Viper.ReadInConfig fs0 cwd v).2.
Proof.
  intros Hf Hn. unfold Viper.ReadInConfig, Viper.getConfigFile.
  rewrite decide_True by done. by rewrite Hn.
Qed.

Lemma ReadInConfig_unreadable fs0 cwd v :
  Viper.configFile v ≠ "" →
  Os.ReadFile fs0 cwd (Viper.configFile v) = None →
  is_Some (Viper.ReadInConfig fs0 cwd v).2.
Proof.
  intros Hf Hn. unfold Viper.ReadInConfig, Viper.getConfigFile.
  rewrite decide_False by done. case_bool_decide; [|done]. by rewrite Hn.
Qed.

Lemma ReadInConfig_malformed fs0 cwd v text :
  Viper.configFile v ≠ "" →
  Os.ReadFile fs0 cwd (Viper.configFile v) = Some text →
  unmarshal (Strings.drop 1 (Filepath.Ext (Viper.configFile v))) text = None →
  is_Some (Viper.ReadInConfig fs0 cwd v).2.
Proof.
  intros Hf Hr Hn. unfold Viper.ReadInConfig, Viper.getConfigFile.
  rewrite decide_False by done. case_bool_decide; [|done]. by rewrite Hr, Hn.
Qed.

(** C9: with [-c file], [file] is the configuration that is read, and
    the templates directory is what it is without the flag: the
    directory [ricer/templates] under [XDG_CONFIG_HOME], or under
    [.config] in [HOME] when that variable is empty; that is the
    directory [main] enumerates. *)
Theorem templatesDirectory_ignores_flag P file fs0 :
  file ≠ "" →
  let Pc := with_config P file in
  templatesDirectory Pc = templatesDirectory P ∧
  (Getenv P "XDG_CONFIG_HOME" ≠ "" →
     templatesDirectory Pc
     = (Path.Join [Path.Join [Getenv P "XDG_CONFIG_HOME"; "/ricer"]; "/templates"],
        None)) ∧
  (Getenv P "XDG_CONFIG_HOME" = "" → Getenv P "HOME" ≠ "" →
     templatesDirectory Pc
     = (Path.Join [Path.Join [Path.Join [Getenv P "HOME"; "/.config"]; "/ricer"];
                   "/templates"], None)) ∧
  parseConfiguration Pc fs0 Viper.new
    = Viper.ReadInConfig fs0 (cwd P) (Viper.SetConfigFile Viper.new file) ∧
  Viper.getConfigFile fs0 (cwd P) (Viper.SetConfigFile Viper.new file) = (file, None) ∧
  (∀ v dir,
     parseConfiguration Pc fs0 Viper.new = (v, None) →
     templatesDirectory P = (dir, None) →
     main_start Pc fs0
     = Dispatch v (Filepath.Glob fs0 (cwd P) (dir +:+ "/*.tmpl")).1).
Proof.
  intros Hfile Pc.
  assert (templatesDirectory Pc = templatesDirectory P) as Hsame by done.
  split; [done|].
  split.
  { intros ?. rewrite Hsame. unfold templatesDirectory, configHomeDirectory.
    by rewrite decide_False. }
  split.
  { intros ??. rewrite Hsame. unfold templatesDirectory, configHomeDirectory.
    by rewrite decide_True, decide_False. }
  split; [unfold parseConfiguration; simpl; by rewrite decide_False|].
  split.
  { unfold Viper.getConfigFile, Viper.SetConfigFile.
    destruct (decide (file = "")) as [|_]; [done|]. simpl.
    by rewrite decide_False. }
  intros v dir Hv Hdir. unfold main_start. rewrite Hv, Hsame, Hdir.
  change (cwd Pc) with (cwd P). by destruct (Filepath.Glob _ _ _).
Qed.

(** C10: an error of [filepath.Glob] is dropped. [main] goes on as it
    does when no file matches: it dispatches nothing, prints nothing,
    leaves the file system alone and returns, so the status is 0. *)
Theorem main_drops_glob_error P fs0 v dir files e :
  parseConfiguration P fs0 Viper.new = (v, None) →
  templatesDirectory P = (dir, None) →
  Filepath.Glob fs0 (cwd P) (dir +:+ "/*.tmpl") = (files, Some e) →
  main_start P fs0 = Dispatch v [] ∧
  (∀ o, main P fs0 o ↔ o = Exited fs0 []) ∧
  (∀ o, main P fs0 o → exit_status o = 0).
Proof.
  intros Hv Hdir Hg.
  assert (main_start P fs0 = Dispatch v []) as Hs.
  { unfold main_start. rewrite Hv, Hdir, Hg.
    by rewrite (Glob_tmpl_error _ _ _ _ _ Hg). }
  split; [done|]. split; [exact (main_no_files _ _ _ Hs)|].
  intros o Ho. by apply (main_no_files _ _ _ Hs) in Ho as ->.
Qed.

(** The only message [main] itself prints is the advice to create the
    templates directory, and the path it gives is empty. *)
Lemma main_guidance_has_no_path P fs0 printed :
  main_start P fs0 = Return printed →
  printed = ["Templates directory does not exist, please create " +:+ LF].
Proof.
  unfold main_start. destruct (parseConfiguration _ _ _) as [v [?|]]; [done|].
  unfold templatesDirectory.
  destruct (configHomeDirectory P) as [config [err|]]; [|by destruct (Filepath.Glob _ _ _)].
  by intros [= <-].
Qed.

(** That message means that the account could not be looked up, with
    both variables of the environment empty; it does not depend on the
    file system. *)
Lemma main_guidance_cause P fs0 printed :
  main_start P fs0 = Return printed →
  Getenv P "XDG_CONFIG_HOME" = "" ∧ Getenv P "HOME" = ""
  ∧ is_Some (user_Current P).2.
Proof.
  unfold main_start. destruct (parseConfiguration _ _ _) as [v [?|]]; [done|].
  unfold templatesDirectory, configHomeDirectory.
  repeat case_decide; try by destruct (Filepath.Glob _ _ _).
  destruct (user_Current P) as [home [err|]]; [done|by destruct (Filepath.Glob _ _ _)].
Qed.

End main_facts.

(** ** The throttle and the wait group *)
Section throttle_facts.

Context `{Libs}.
Implicit Types (P : Process) (v : Viper.t) (s : State).

Lemma count_insert (f : gpc → bool) (l : list gpc) i x y :
  l !! i = Some x →
  length (filter f (<[i := y]> l)) + (if f x then 1 else 0)
  = length (filter f l) + (if f y then 1 else 0).
Proof.
  intros Hi. rewrite <-(take_drop_middle l i x Hi) at 2.
  rewrite insert_take_drop by (by eapply lookup_lt_Some).
  rewrite !filter_app, !filter_cons, !length_app.
  destruct (f x) eqn:Ex, (f y) eqn:Ey;
    rewrite ?decide_True, ?decide_False by (rewrite ?Ex, ?Ey; naive_solver);
    simpl; lia.
Qed.

Lemma count_pos (f : gpc → bool) (l : list gpc) :
  0 < length (filter f l) → ∃ i x, l !! i = Some x ∧ f x = true.
Proof.
  destruct (filter f l) as [|x l'] eqn:E; simpl; [lia|]. intros _.
  assert (x ∈ filter f l) as [Hf [i Hi]%list_elem_of_lookup]%list_elem_of_filter
    by (rewrite E; left).
  exists i, x. split; [done|]. by destruct (f x).
Qed.

Lemma counted_init files fs0 : counted files (init files fs0).
Proof. split; simpl; try done; unfold throttle_cap; lia. Qed.

Lemma counted_step P v files s s' :
  counted files s → step P v s s' → counted files s'.
Proof.
  intros [Ht Hc Hw Hf He] [Hm|[i Hg]].
  - unfold main_step in Hm.
    destruct (pc s) as [[|file rest]|file rest|file rest| |] eqn:Hpc;
      repeat case_decide; simplify_eq/=;
      split; simpl in *; rewrite ?filter_app, ?length_app; simpl;
      try done; try lia.
  - unfold goroutine_step in Hg.
    destruct (gs s !! i) as [[file| | |]|] eqn:Hi; [| | |done..].
    + simplify_eq/=.
      pose proof (count_insert holding _ _ _ GRecv Hi).
      pose proof (count_insert unfinished _ _ _ GRecv Hi).
      split; simpl in *; rewrite ?length_insert; try done; lia.
    + destruct (throttle s) as [|n] eqn:Hn; [done|]. simplify_eq/=.
      pose proof (count_insert holding _ _ _ GDefer Hi).
      pose proof (count_insert unfinished _ _ _ GDefer Hi).
      split; simpl in *; rewrite ?length_insert; try done; lia.
    + destruct (wg s) as [|n] eqn:Hn; [done|]. simplify_eq/=.
      pose proof (count_insert holding _ _ _ GExit Hi).
      pose proof (count_insert unfinished _ _ _ GExit Hi).
      split; simpl in *; rewrite ?length_insert; try done; try lia.
      intros Hx. specialize (He Hx). lia.
Qed.

Lemma reachable_counted P v files fs0 s :
  reachable P v files fs0 s → counted files s.
Proof.
  unfold reachable. revert s. apply rtc_ind_r; [apply counted_init|].
  intros s s' _ Hs Hc. by eapply counted_step.
Qed.

Lemma running_holding (l : list gpc) :
  (length (filter is_running l) ≤ length (filter holding l))%nat.
Proof.
  induction l as [|g l IH]; [done|]. rewrite !filter_cons.
  destruct g; simpl; repeat case_decide; simpl; try naive_solver lia.
Qed.

Lemma all_finished (l : list gpc) :
  length (filter unfinished l) = 0 → Forall (λ g, g = GExit) l.
Proof.
  induction l as [|g l IH]; [done|]. rewrite filter_cons.
  destruct g; simpl; try done. intros Hl. constructor; auto.
Qed.

(** C4: however many files are dispatched and however the goroutines
    are scheduled, at most four of them are between their start and the
    return of [handleTemplate]; and once [wg.Wait()] has returned, a
    goroutine was started for every file and every one of them has run to
    its end. *)
Theorem throttle_bounds_executing P v files fs0 s :
  reachable P v files fs0 s →
  (executing s ≤ 4)%nat ∧
  (pc s = MExit →
     length (gs s) = length files ∧ Forall (λ g, g = GExit) (gs s)).
Proof.
  intros [Ht Hc Hw Hf He]%reachable_counted. split.
  - unfold executing. pose proof (running_holding (gs s)).
    unfold throttle_cap in Hc. lia.
  - intros Hpc. specialize (He Hpc). rewrite Hpc in *. simpl in *. split; [lia|].
    apply all_finished. lia.
Qed.

(** Nothing is ever stuck before [main] returns: the main goroutine or
    one of the others can move. *)
Lemma reachable_progress P v files fs0 s :
  reachable P v files fs0 s → pc s ≠ MExit → ∃ s', step P v s s'.
Proof.
  intros [Ht Hc Hw Hf He]%reachable_counted Hpc.
  assert (∀ i g, gs s !! i = Some g → holding g = true →
                 ∃ s', goroutine_step P v i s = Some s') as Hhold.
  { intros i g Hi Hg. unfold goroutine_step. rewrite Hi.
    destruct g; try done; [by eexists|].
    destruct (throttle s) eqn:E; [|by eexists].
    pose proof (count_insert holding (gs s) i _ GExit Hi). simpl in *. lia. }
  assert (∀ i g, gs s !! i = Some g → unfinished g = true →
                 ∃ s', goroutine_step P v i s = Some s') as Hunf.
  { intros i g Hi Hg. destruct (holding g) eqn:Eh; [by eapply Hhold|].
    unfold goroutine_step. rewrite Hi. destruct g; try done.
    destruct (wg s) eqn:E; [|by eexists].
    pose proof (count_insert unfinished (gs s) i _ GExit Hi). simpl in *. lia. }
  destruct (main_step s) as [s'|] eqn:Hm; [exists s'; by left|].
  unfold main_step in Hm.
  destruct (pc s) as [[|file rest]|file rest|file rest| |] eqn:Epc; try done.
  - case_decide; [done|]. simpl in *.
    destruct (count_pos holding (gs s)) as (i & g & Hi & Hg);
      [unfold throttle_cap in *; lia|].
    destruct (Hhold i g Hi Hg) as [s' Hs']. exists s'. right. eauto.
  - case_decide; [done|]. simpl in *.
    destruct (count_pos unfinished (gs s)) as (i & g & Hi & Hg); [lia|].
    destruct (Hunf i g Hi Hg) as [s' Hs']. exists s'. right. eauto.
Qed.

Lemma sum_left_insert (l : list gpc) i x y :
  l !! i = Some x →
  sum_list_with gpc_left (<[i := y]> l) + gpc_left x
  = sum_list_with gpc_left l + gpc_left y.
Proof.
  intros Hi. rewrite <-(take_drop_middle l i x Hi) at 2.
  rewrite insert_take_drop by (by eapply lookup_lt_Some).
  rewrite !sum_list_with_app. simpl. lia.
Qed.

(** Every step uses up one of the statements left, so every execution
    is finite: together with the progress above, [wg.Wait()] returns
    under every schedule. *)
Lemma step_left P v s s' : step P v s s' → left s' < left s.
Proof.
  unfold left. intros [Hm|[i Hg]].
  - unfold main_step in Hm.
    destruct (pc s) as [[|file rest]|file rest|file rest| |] eqn:Hpc;
      repeat case_decide; simplify_eq/=;
      rewrite ?sum_list_with_app; simpl; lia.
  - unfold goroutine_step in Hg.
    destruct (gs s !! i) as [[file| | |]|] eqn:Hi; [| | |done..].
    + simplify_eq/=. pose proof (sum_left_insert _ _ _ GRecv Hi). simpl in *. lia.
    + destruct (throttle s); [done|]. simplify_eq/=.
      pose proof (sum_left_insert _ _ _ GDefer Hi). simpl in *. lia.
    + destruct (wg s); [done|]. simplify_eq/=.
      pose proof (sum_left_insert _ _ _ GExit Hi). simpl in *. lia.
Qed.

(** From every state an execution can be in, [main] does return. *)
Lemma reachable_exits P v files fs0 s :
  reachable P v files fs0 s →
  ∃ s', rtc (step P v) s s' ∧ pc s' = MExit.
Proof.
  remember (left s) as n eqn:Hn. revert s Hn.
  induction (lt_wf n) as [n _ IH]. intros s -> Hr.
  assert (pc s = MExit ∨ pc s ≠ MExit) as [|Hpc]
    by (destruct (pc s); auto); [by exists s|].
  destruct (reachable_progress _ _ _ _ _ Hr Hpc) as [s1 Hs1].
  destruct (IH (left s1) (step_left _ _ _ _ Hs1) s1 eq_refl) as (s' & Hs' & Hx).
  { by eapply rtc_r. }
  exists s'. split; [by eapply rtc_l|done].
Qed.

End throttle_facts.

Section main_examples.

Import Example.
#[local] Existing Instance Toy.libs.

Lemma busy_reachable : reachable u ricer_v five ricer_fs busy.
Proof. apply (exec_steps u ricer_v four_started). vm_compute. reflexivity. Qed.

(** With five files, four goroutines can be executing at once, and then
    the main goroutine is blocked on the channel with the fifth. *)
Lemma busy_is_full :
  executing busy = 4 ∧ pc busy = MRange ["/t/5.tmpl"] ∧ main_step busy = None.
Proof. repeat split; vm_compute; reflexivity. Qed.

Lemma throttle_bounds_executing_witness :
  reachable u ricer_v five ricer_fs busy ∧
  (executing busy ≤ 4)%nat ∧
  (pc busy = MExit →
     length (gs busy) = length five ∧ Forall (λ g, g = GExit) (gs busy)).
Proof.
  split; [exact busy_reachable|].
  exact (throttle_bounds_executing u ricer_v five ricer_fs busy busy_reachable).
Defined.

(** No configuration file under [/home/u/.config/ricer]. *)
Lemma main_panics_on_configuration_error_witness :
  parseConfiguration u home_u Viper.new
    = (Viper.AddConfigPath Viper.new "/home/u/.config/ricer",
       Some (Viper.ConfigFileNotFoundError "config")) ∧
  main_start u home_u = Panic (Viper.ConfigFileNotFoundError "config") ∧
  (∀ o, main u home_u o ↔ o = Panicked (Viper.ConfigFileNotFoundError "config")) ∧
  (∀ o, main u home_u o → exit_status o = 2).
Proof.
  assert (parseConfiguration u home_u Viper.new
          = (Viper.AddConfigPath Viper.new "/home/u/.config/ricer",
             Some (Viper.ConfigFileNotFoundError "config"))) as Hc
    by (vm_compute; reflexivity).
  split; [exact Hc|].
  exact (main_panics_on_configuration_error u home_u _ _ Hc).
Defined.

Lemma templatesDirectory_ignores_flag_witness :
  "/etc/ricer.properties" ≠ "" ∧
  templatesDirectory (with_config u "/etc/ricer.properties") = templatesDirectory u ∧
  templatesDirectory (with_config u "/etc/ricer.properties")
    = ("/home/u/.config/ricer/templates", None) ∧
  Viper.getConfigFile ricer_fs (cwd u)
    (Viper.SetConfigFile Viper.new "/etc/ricer.properties")
    = ("/etc/ricer.properties", None).
Proof.
  assert ("/etc/ricer.properties" ≠ "") as Hf by discriminate.
  split; [exact Hf|].
  destruct (templatesDirectory_ignores_flag u "/etc/ricer.properties" ricer_fs Hf)
    as (H1 & _ & H3 & _ & H5 & _).
  split; [exact H1|]. split; [|exact H5].
  apply H3; [reflexivity | discriminate].
Defined.

(** [/home/u/[cfg/ricer/templates/*.tmpl] is not a pattern. *)
Lemma main_drops_glob_error_witness :
  (parseConfiguration bracket ricer_fs Viper.new = (bracket_v, None) ∧
   templatesDirectory bracket = ("/home/u/[cfg/ricer/templates", None) ∧
   Filepath.Glob ricer_fs (cwd bracket) ("/home/u/[cfg/ricer/templates" +:+ "/*.tmpl")
     = ([], Some Filepath.ErrBadPattern)) ∧
  main_start bracket ricer_fs = Dispatch bracket_v [] ∧
  (∀ o, main bracket ricer_fs o ↔ o = Exited ricer_fs []) ∧
  (∀ o, main bracket ricer_fs o → exit_status o = 0).
Proof.
  assert (parseConfiguration bracket ricer_fs Viper.new = (bracket_v, None)) as H1
    by (vm_compute; reflexivity).
  assert (templatesDirectory bracket = ("/home/u/[cfg/ricer/templates", None)) as H2
    by (vm_compute; reflexivity).
  assert (Filepath.Glob ricer_fs (cwd bracket)
            ("/home/u/[cfg/ricer/templates" +:+ "/*.tmpl")
          = ([], Some Filepath.ErrBadPattern)) as H3 by (vm_compute; reflexivity).
  split; [exact (conj H1 (conj H2 H3))|].
  exact (main_drops_glob_error bracket ricer_fs _ _ _ _ H1 H2 H3).
Defined.

(** C1, at a world the claim is about: the configuration loads, and the
    templates directory [/home/u/.config/ricer/templates] does not exist.
    [templatesDirectory] returns its name without an error, since it
    never looks at the file system; nothing matches; [main] returns
    without having printed anything, the advice included. *)
Theorem main_silent_without_templates_directory :
  Os.Stat no_templates_fs (cwd u) "/home/u/.config/ricer/templates" = None ∧
  templatesDirectory u = ("/home/u/.config/ricer/templates", None) ∧
  (∃ v, main_start u no_templates_fs = Dispatch v []) ∧
  (∀ o, main u no_templates_fs o ↔ o = Exited no_templates_fs []).
Proof.
  assert (main_start u no_templates_fs
          = Dispatch (parseConfiguration u no_templates_fs Viper.new).1 []) as Hs
    by (vm_compute; reflexivity).
  split; [vm_compute; reflexivity|]. split; [vm_compute; reflexivity|].
  split; [by eexists|]. by eapply main_no_files.
Qed.

(** C6, at a file the enumeration does find: the file [.tmpl] of the
    templates directory. Its base name without the extension is empty,
    but the name [handleTemplate] looks up is [templates], the name of
    the directory: the extension is cut off the whole path before the
    base name is taken, and what is left ends in a separator. *)
Theorem tmplName_of_bare_extension :
  (Filepath.Glob dot_fs (cwd u) "/home/u/.config/ricer/templates/*.tmpl")
    = ([dot_tmpl], None) ∧
  Strings.TrimSuffix dot_tmpl (Filepath.Ext dot_tmpl)
    = "/home/u/.config/ricer/templates/" ∧
  tmplName dot_tmpl = "templates" ∧
  base_without_extension dot_tmpl = "" ∧
  tmplName dot_tmpl ≠ base_without_extension dot_tmpl.
Proof. repeat split; try (vm_compute; reflexivity). vm_compute. discriminate. Qed.

End main_examples.

(** ** Path names and their elements *)
Section path_facts.

Implicit Types (s p e : string) (es : list string).

Lemma SplitSlash_nonempty s : Strings.SplitSlash s ≠ [].
Proof.
  destruct s as [|c s]; [done|]. cbn [Strings.SplitSlash].
  destruct (IsPathSeparator c); [done|]. by destruct (Strings.SplitSlash s).
Qed.

Lemma SplitSlash_no_slash s : Forall no_slash (Strings.SplitSlash s).
Proof.
  induction s as [|c s IH]; [by repeat constructor|]. cbn [Strings.SplitSlash].
  destruct (IsPathSeparator c) eqn:Hc; [by constructor|].
  unfold IsPathSeparator in Hc.
  destruct (Strings.SplitSlash s) as [|e es].
  { repeat constructor. unfold no_slash. cbn [Strings.ContainsByte]. by rewrite Hc. }
  apply Forall_cons in IH as [He Hes]. constructor; [|done].
  unfold no_slash in *. cbn [Strings.ContainsByte]. by rewrite Hc, He.
Qed.

Lemma SplitSlash_app_slash e s :
  no_slash e →
  Strings.SplitSlash (e +:+ String "/" s) = e :: Strings.SplitSlash s.
Proof.
  unfold no_slash. induction e as [|c e IH]; [done|].
  cbn [Strings.ContainsByte]. intros [Hc He]%orb_false_iff.
  change (String c e +:+ ?x) with (String c (e +:+ x)).
  cbn [Strings.SplitSlash]. unfold IsPathSeparator. by rewrite Hc, IH.
Qed.

Lemma SplitSlash_single e : no_slash e → Strings.SplitSlash e = [e].
Proof.
  unfold no_slash. induction e as [|c e IH]; [done|].
  cbn [Strings.ContainsByte]. intros [Hc He]%orb_false_iff.
  cbn [Strings.SplitSlash]. unfold IsPathSeparator. by rewrite Hc, IH.
Qed.

Lemma SplitSlash_JoinSlash es :
  es ≠ [] → Forall no_slash es → Strings.SplitSlash (Strings.JoinSlash es) = es.
Proof.
  induction es as [|e es IH]; [done|]. intros _ [He Hes]%Forall_cons.
  destruct es as [|e' es]; [by apply SplitSlash_single|].
  change (Strings.JoinSlash (e :: e' :: es))
    with (e +:+ String "/" (Strings.JoinSlash (e' :: es))).
  rewrite SplitSlash_app_slash by done. by rewrite IH.
Qed.

Lemma SplitSlash_single_inv p e :
  Strings.SplitSlash p = [e] → Strings.ContainsByte p "/" = false.
Proof.
  revert e. induction p as [|c p IH]; intros e; [done|].
  cbn [Strings.SplitSlash Strings.ContainsByte]. unfold IsPathSeparator.
  pose proof (SplitSlash_nonempty p) as Hne.
  destruct (c =? "/")%char.
  - destruct (Strings.SplitSlash p); [done|]. intros [=].
  - destruct (Strings.SplitSlash p) as [|e' es]; [done|].
    intros [= _ ->]. by rewrite (IH e').
Qed.

(** The directory part of a path name has the elements of the name but the
    last, and then an empty one. *)
Lemma SplitSlash_Split p :
  Strings.SplitSlash (Path.Split p).1 = removelast (Strings.SplitSlash p) ++ [""].
Proof.
  induction p as [|c p IH]; [done|].
  cbn [Path.Split]. destruct (Path.Split p) as [dir file]. simpl in IH.
  cbn [Strings.ContainsByte Strings.SplitSlash]. unfold IsPathSeparator.
  pose proof (SplitSlash_nonempty p) as Hne.
  destruct (c =? "/")%char eqn:Hc; simpl.
  - unfold IsPathSeparator. rewrite Hc, IH.
    by destruct (Strings.SplitSlash p).
  - destruct (Strings.ContainsByte p "/") eqn:Hp; simpl.
    + unfold IsPathSeparator. rewrite Hc, IH.
      destruct (Strings.SplitSlash p) as [|e es] eqn:Es; [done|].
      destruct es as [|e' es].
      { apply SplitSlash_single_inv in Es. congruence. }
      done.
    + rewrite (SplitSlash_single p) by done. done.
Qed.

End path_facts.

(** ** Well-formed file systems *)
Section wf_facts.

Import Os.
Implicit Types (fs : filesystem) (l q base : location) (ns es : list string).

Lemma is_dir_node fs l : is_dir fs l = true ↔ node_at fs l = Some Dir.
Proof. unfold is_dir. by rewrite bool_decide_eq_true. Qed.

Lemma is_dir_root fs : is_dir fs [] = true.
Proof. done. Qed.

Lemma parent_snoc l e : parent (l ++ [e]) = l.
Proof.
  unfold parent. rewrite length_app. simpl.
  replace (length l + 1 - 1) with (length l) by lia. by rewrite take_app_length.
Qed.

Lemma wf_parent fs l n :
  well_formed fs → node_at fs l = Some n → is_dir fs (parent l) = true.
Proof.
  intros Hwf. unfold node_at. case_decide as Hl; [by subst|].
  intros Hn. by apply (Hwf l n).
Qed.

(** In a well-formed file system, what is above something is a
    directory. *)
Lemma wf_ancestor fs l ext n :
  well_formed fs → ext ≠ [] → node_at fs (l ++ ext) = Some n → is_dir fs l = true.
Proof.
  intros Hwf. revert n. induction ext as [|x ext IH] using rev_ind; [done|].
  intros n _ Hn. rewrite app_assoc in Hn.
  apply wf_parent in Hn; [|done]. rewrite parent_snoc in Hn.
  destruct ext as [|y ext]; [by rewrite app_nil_r in Hn|].
  apply is_dir_node in Hn. by eapply IH.
Qed.

Lemma wf_prefix_dirs fs l ns n :
  well_formed fs → node_at fs (l ++ ns) = Some n →
  ∀ k, k < length ns → is_dir fs (l ++ take k ns) = true.
Proof.
  intros Hwf Hn k Hk. rewrite <-(take_drop k ns), app_assoc in Hn.
  eapply wf_ancestor; [done| |done].
  intros Hd%(f_equal length). rewrite length_drop in Hd. simpl in Hd. lia.
Qed.

Lemma is_dir_insert_dir fs x l :
  is_dir fs l = true → is_dir (<[x := Dir]> fs) l = true.
Proof.
  rewrite !is_dir_node. unfold node_at. case_decide; [done|].
  destruct (decide (x = l)) as [->|]; [by rewrite lookup_insert_eq|].
  by rewrite lookup_insert_ne.
Qed.

Lemma wf_insert_dir fs x :
  well_formed fs → is_dir fs (parent x) = true → well_formed (<[x := Dir]> fs).
Proof.
  intros Hwf Hp l n Hl. apply is_dir_insert_dir.
  destruct (decide (x = l)) as [->|]; [done|].
  rewrite lookup_insert_ne in Hl by done. by apply (Hwf l n).
Qed.

Lemma wf_insert_file fs x w :
  well_formed fs → node_at fs x ≠ Some Dir → is_dir fs (parent x) = true →
  well_formed (<[x := File w]> fs).
Proof.
  intros Hwf Hx Hp l n Hl. rewrite is_dir_insert_file by done.
  destruct (decide (x = l)) as [->|]; [done|].
  rewrite lookup_insert_ne in Hl by done. by apply (Hwf l n).
Qed.

Lemma grows_refl fs : grows fs fs.
Proof. intros q. by left. Qed.

Lemma grows_trans fs1 fs2 fs3 : grows fs1 fs2 → grows fs2 fs3 → grows fs1 fs3.
Proof.
  intros H12 H23 q. destruct (H12 q) as [E12|[N1 D2]], (H23 q) as [E23|[N2 D3]].
  - left. congruence.
  - right. split; congruence.
  - right. split; congruence.
  - congruence.
Qed.

Lemma grows_insert_dir fs x :
  node_at fs x = None → grows fs (<[x := Dir]> fs).
Proof.
  intros Hx q. assert (x ≠ []) by (by intros ->).
  rewrite node_at_insert by done. case_decide; subst; auto.
Qed.

Lemma grows_is_dir fs fs' l : grows fs fs' → is_dir fs l = true → is_dir fs' l = true.
Proof. rewrite !is_dir_node. intros Hg Hl. destruct (Hg l) as [->|[? ?]]; congruence. Qed.

Lemma prefix_dirs_cons fs l n ns :
  prefix_dirs fs l (n :: ns) ↔ is_dir fs l = true ∧ prefix_dirs fs (l ++ [n]) ns.
Proof.
  unfold prefix_dirs. split.
  - intros Hp. split.
    + specialize (Hp 0). simpl in Hp. rewrite app_nil_r in Hp. apply Hp. lia.
    + intros k Hk. specialize (Hp (S k)). simpl in Hp.
      rewrite <-app_assoc. simpl. apply Hp. lia.
  - intros [Hl Hp] [|k] Hk; simpl.
    + by rewrite app_nil_r.
    + specialize (Hp k). rewrite <-app_assoc in Hp. apply Hp. simpl in Hk. lia.
Qed.

Lemma prefix_dirs_nil fs l : prefix_dirs fs l [] ↔ is_dir fs l = true.
Proof.
  unfold prefix_dirs. split.
  - intros Hp. specialize (Hp 0). simpl in Hp. rewrite app_nil_r in Hp. by apply Hp.
  - intros Hl k _. by rewrite take_nil, app_nil_r.
Qed.

Lemma prefix_dirs_grows fs fs' l ns :
  grows fs fs' → prefix_dirs fs l ns → prefix_dirs fs' l ns.
Proof. intros Hg Hp k Hk. eapply grows_is_dir; [done|]. by apply Hp. Qed.

(** *** Walking along names *)

Lemma named_true e : named e = true ↔ e ≠ "" ∧ e ≠ "." ∧ e ≠ "..".
Proof.
  unfold named. rewrite negb_true_iff, bool_decide_eq_false. tauto.
Qed.

Lemma walk_named fs cur e es :
  named e = true →
  walk fs cur (e :: es) = if is_dir fs cur then walk fs (cur ++ [e]) es else None.
Proof.
  intros (? & ? & ?)%named_true. cbn [walk].
  destruct (is_dir fs cur); [|done].
  rewrite decide_False by tauto. by rewrite decide_False.
Qed.

Lemma walk_skipped fs cur e es :
  named e = false → e ≠ ".." →
  walk fs cur (e :: es) = if is_dir fs cur then walk fs cur es else None.
Proof.
  unfold named. rewrite negb_false_iff, bool_decide_eq_true. intros He Hdd.
  cbn [walk]. destruct (is_dir fs cur); [|done].
  rewrite decide_True by tauto. done.
Qed.

(** In a well-formed file system a name made of names resolves to
    something when there is something at the end. *)
Lemma Stat_named fs base ns :
  well_formed fs → Forall (λ e, named e = true) ns → is_dir fs base = true →
  walk fs base ns ≫= node_at fs = node_at fs (base ++ ns).
Proof.
  intros Hwf Hns. revert base. induction Hns as [|n ns Hn Hns IH]; intros base Hb.
  - simpl. by rewrite app_nil_r.
  - rewrite walk_named, Hb by done.
    destruct (is_dir fs (base ++ [n])) eqn:Hd.
    + rewrite IH by done. by rewrite <-app_assoc.
    + destruct Hns as [|n2 ns Hn2 Hns].
      { simpl. done. }
      rewrite walk_named, Hd by done. simpl.
      destruct (node_at fs (base ++ n :: n2 :: ns)) as [x|] eqn:Hx; [|done].
      change (base ++ n :: n2 :: ns) with (base ++ [n] ++ n2 :: ns) in Hx.
      rewrite app_assoc in Hx.
      apply wf_ancestor in Hx; [congruence|done..].
Qed.

Lemma walk_prefix_dirs fs base ns e :
  Forall (λ e, named e = true) ns → named e = true →
  prefix_dirs fs base ns → walk fs base (ns ++ [e]) = Some (base ++ ns ++ [e]).
Proof.
  intros Hns He. revert base. induction Hns as [|n ns Hn Hns IH]; intros base.
  - intros Hb%prefix_dirs_nil. simpl ([] ++ _). by rewrite walk_named, Hb.
  - intros [Hb Hp]%prefix_dirs_cons.
    change ((n :: ns) ++ [e]) with (n :: (ns ++ [e])).
    rewrite walk_named, Hb by done. rewrite IH by done. by rewrite <-app_assoc.
Qed.

(** *** Making the directories *)

Lemma mkdirs_app fs l ns1 ns2 :
  mkdirs fs l (ns1 ++ ns2) = mkdirs fs l ns1 ≫= λ fs', mkdirs fs' (l ++ ns1) ns2.
Proof.
  revert fs l. induction ns1 as [|n ns1 IH]; intros fs l.
  - simpl. by rewrite app_nil_r.
  - change ((n :: ns1) ++ ns2) with (n :: (ns1 ++ ns2)). cbn [mkdirs].
    replace (l ++ n :: ns1) with ((l ++ [n]) ++ ns1) by (by rewrite <-app_assoc).
    destruct (node_at fs (l ++ [n])) as [[]|]; [done|apply IH..].
Qed.

Lemma mkdirs_there fs l ns : prefix_dirs fs l ns → mkdirs fs l ns = Some fs.
Proof.
  revert l. induction ns as [|n ns IH]; intros l; [done|].
  intros [Hl Hp]%prefix_dirs_cons. cbn [mkdirs].
  assert (is_dir fs (l ++ [n]) = true) as Hn%is_dir_node.
  { destruct ns; [by apply prefix_dirs_nil|by apply prefix_dirs_cons in Hp as [? _]]. }
  rewrite Hn. by apply IH.
Qed.

Lemma mkdirs_blocked fs l ns k c :
  well_formed fs → 1 ≤ k ≤ length ns →
  node_at fs (l ++ take k ns) = Some (File c) → mkdirs fs l ns = None.
Proof.
  intros Hwf. revert l k. induction ns as [|n ns IH]; intros l k; [simpl; lia|].
  destruct k as [|k]; [lia|]. simpl. intros Hk Hc.
  destruct (decide (k = 0)) as [->|].
  { rewrite take_0 in Hc. by rewrite Hc. }
  replace (l ++ n :: take k ns) with ((l ++ [n]) ++ take k ns) in Hc
    by (by rewrite <-app_assoc).
  assert (is_dir fs (l ++ [n]) = true) as Hn%is_dir_node.
  { eapply wf_ancestor; [done| |done].
    intros Ht%(f_equal length). rewrite length_take in Ht. simpl in Ht. lia. }
  rewrite Hn. apply (IH _ k); [lia|done].
Qed.

Lemma mkdirs_failed fs l ns :
  mkdirs fs l ns = None →
  ∃ k c, 1 ≤ k ≤ length ns ∧ node_at fs (l ++ take k ns) = Some (File c).
Proof.
  revert fs l. induction ns as [|n ns IH]; intros fs l; [done|]. cbn [mkdirs].
  destruct (node_at fs (l ++ [n])) as [[c|]|] eqn:Hn.
  - intros _. exists 1, c. simpl. rewrite take_0. split; [lia|done].
  - intros (k & c & Hk & Hc)%IH. exists (S k), c. simpl. split; [lia|].
    by rewrite <-app_assoc in Hc.
  - intros (k & c & Hk & Hc)%IH. exists (S k), c. simpl. split; [lia|].
    rewrite <-app_assoc in Hc. simpl in Hc.
    rewrite node_at_insert in Hc by (by destruct l).
    case_decide as Heq; [|done].
    apply (f_equal length) in Heq. rewrite !length_app in Heq. simpl in Heq.
    rewrite length_take in Heq. lia.
Qed.

Lemma mkdirs_made fs l ns fs' :
  mkdirs fs l ns = Some fs' → well_formed fs → is_dir fs l = true →
  well_formed fs' ∧ prefix_dirs fs' l ns ∧ grows fs fs'.
Proof.
  revert fs l. induction ns as [|n ns IH]; intros fs l.
  - intros [= <-] Hwf Hl. split; [done|]. split; [by apply prefix_dirs_nil|].
    apply grows_refl.
  - cbn [mkdirs]. destruct (node_at fs (l ++ [n])) as [[c|]|] eqn:Hn; [done|..].
    + intros Hm Hwf Hl.
      destruct (IH _ _ Hm Hwf) as (Hwf' & Hp & Hg); [by apply is_dir_node|].
      split; [done|]. split; [|done]. apply prefix_dirs_cons.
      split; [by eapply grows_is_dir|done].
    + intros Hm Hwf Hl.
      assert (grows fs (<[l ++ [n] := Dir]> fs)) as Hg1 by by apply grows_insert_dir.
      destruct (IH _ _ Hm) as (Hwf' & Hp & Hg).
      { apply wf_insert_dir; [done|]. by rewrite parent_snoc. }
      { apply is_dir_node. rewrite node_at_insert by (by destruct l).
        by rewrite decide_True. }
      split; [done|]. split; [|by eapply grows_trans]. apply prefix_dirs_cons.
      split; [|done]. eapply grows_is_dir; [|done]. by eapply grows_trans.
Qed.

End wf_facts.

(** ** [MkdirAll] and [Create] on the path of an output *)
Section output_path_facts.

Import Os.
Implicit Types (fs : filesystem) (l q base cwd : location) (ns es : list string).

Lemma JoinSlash_cons2 e e' es :
  Strings.JoinSlash (e :: e' :: es) = e +:+ String "/" (Strings.JoinSlash (e' :: es)).
Proof. done. Qed.

Lemma JoinSlash_named_nonempty n ns :
  named n = true → Strings.JoinSlash (n :: ns) ≠ "".
Proof.
  intros (Hn & _)%named_true. destruct n as [|c n]; [done|].
  destruct ns; [done|]. by rewrite JoinSlash_cons2.
Qed.

Lemma JoinSlash_names_nonempty ns :
  ns ≠ [] → Forall (λ e, named e = true) ns →
  Strings.JoinSlash ns ≠ "" ∧ Strings.JoinSlash ("" :: ns) ≠ "".
Proof.
  destruct ns as [|m ns]; [done|]. intros _ [Hm _]%Forall_cons.
  split; [by apply JoinSlash_named_nonempty|by rewrite JoinSlash_cons2].
Qed.

Lemma IsRooted_JoinSlash_named n ns :
  named n = true → no_slash n → Path.IsRooted (Strings.JoinSlash (n :: ns)) = false.
Proof.
  intros (Hn & _)%named_true Hs. destruct n as [|c n]; [done|].
  unfold no_slash in Hs. cbn [Strings.ContainsByte] in Hs.
  apply orb_false_iff in Hs as [Hc _].
  destruct ns; [|rewrite JoinSlash_cons2]; done.
Qed.

(** The path names [MkdirAll] builds from the elements of a cleaned path
    resolve along these elements: from the working directory, or from the
    root when an empty element comes first. *)
Lemma namei_named fs cwd ns :
  Forall (λ e, named e = true) ns → Forall no_slash ns → ns ≠ [] →
  namei fs cwd (Strings.JoinSlash ns) = walk fs cwd ns
  ∧ namei fs cwd (Strings.JoinSlash ("" :: ns)) = walk fs [] ns.
Proof.
  intros Hn Hs Hne. destruct ns as [|n ns]; [done|].
  apply Forall_cons in Hn as [Hn Hns]. pose proof Hs as Hs'.
  apply Forall_cons in Hs' as [Hsn _].
  unfold namei. split.
  - rewrite decide_False by (by apply JoinSlash_named_nonempty).
    rewrite IsRooted_JoinSlash_named by done.
    by rewrite SplitSlash_JoinSlash.
  - rewrite JoinSlash_cons2. rewrite decide_False by done.
    change (Path.IsRooted ("" +:+ String "/" ?x)) with true. cbv iota.
    rewrite <-JoinSlash_cons2.
    rewrite SplitSlash_JoinSlash; [|done|by constructor].
    cbn [walk]. rewrite is_dir_root. by rewrite decide_True by auto.
Qed.

Lemma mkdir_last_named fs cwd pre base ns n :
  (pre = [] ∧ base = cwd) ∨ (pre = [""] ∧ base = []) →
  Forall (λ e, named e = true) (ns ++ [n]) → Forall no_slash (ns ++ [n]) →
  prefix_dirs fs base ns →
  node_at fs (base ++ ns ++ [n]) = None ∨ node_at fs (base ++ ns ++ [n]) = Some Dir →
  mkdir_last fs cwd (Strings.JoinSlash (pre ++ ns ++ [n]))
  = (default fs (mkdirs fs (base ++ ns) [n]), None).
Proof.
  intros Hpre Hn Hs Hp Hx.
  assert (namei fs cwd (Strings.JoinSlash (pre ++ ns ++ [n]))
          = Some (base ++ ns ++ [n])) as Hnamei.
  { destruct (namei_named fs cwd (ns ++ [n])) as [H1 H2]; [done..|by destruct ns|].
    apply Forall_app in Hn as [Hns Hn]. rewrite Forall_singleton in Hn.
    destruct Hpre as [[-> ->]|[-> ->]]; simpl ([] ++ _).
    - rewrite H1. by apply walk_prefix_dirs.
    - change ([""] ++ ?x) with ("" :: x). rewrite H2.
      by apply (walk_prefix_dirs fs [] ns n). }
  unfold mkdir_last, Mkdir, Stat. rewrite Hnamei. simpl.
  rewrite <-app_assoc. destruct Hx as [-> | ->]; simpl; done.
Qed.

Lemma rev_snoc_cons {A} (l : list A) x : rev (l ++ [x]) = x :: rev l.
Proof. by rewrite rev_app_distr. Qed.

Lemma MkdirAll_elems_named fs cwd pre base ns :
  (pre = [] ∧ base = cwd) ∨ (pre = [""] ∧ base = []) →
  well_formed fs → is_dir fs base = true →
  Forall (λ e, named e = true) ns → Forall no_slash ns → ns ≠ [] →
  made fs (mkdirs fs base ns) (MkdirAll_elems fs cwd (rev (pre ++ ns))).
Proof.
  intros Hpre Hwf Hb. induction ns as [|n ns IH] using rev_ind; [done|].
  intros Hn Hs _.
  assert (Stat fs cwd (Strings.JoinSlash (pre ++ ns ++ [n]))
          = node_at fs (base ++ ns ++ [n])) as HStat.
  { unfold Stat.
    destruct (namei_named fs cwd (ns ++ [n])) as [H1 H2]; [done..|by destruct ns|].
    destruct Hpre as [[-> ->]|[-> ->]]; simpl ([] ++ _).
    - rewrite H1. by apply Stat_named.
    - change ([""] ++ ?x) with ("" :: x). rewrite H2.
      by apply (Stat_named fs [] (ns ++ [n])). }
  rewrite app_assoc, rev_snoc_cons.
  assert (∀ rest, MkdirAll_elems fs cwd (n :: rest)
     = match Stat fs cwd (Strings.JoinSlash (rev (n :: rest))) with
       | Some Dir => (fs, None)
       | Some (File _) =>
           (fs, Some (ENOTDIR "mkdir" (Strings.JoinSlash (rev (n :: rest)))))
       | None =>
           match rest with
           | _ :: _ =>
               if decide (Strings.JoinSlash (rev rest) = "")
               then mkdir_last fs cwd (Strings.JoinSlash (rev (n :: rest)))
               else
                 match MkdirAll_elems fs cwd rest with
                 | (fs', None) =>
                     mkdir_last fs' cwd (Strings.JoinSlash (rev (n :: rest)))
                 | (fs', Some err) => (fs', Some err)
                 end
           | [] => mkdir_last fs cwd (Strings.JoinSlash (rev (n :: rest)))
           end
       end) as Hunfold by (by intros [|??]).
  rewrite Hunfold. clear Hunfold.
  rewrite <-rev_snoc_cons, rev_involutive, <-app_assoc, HStat.
  apply Forall_app in Hn as [Hns Hn1]. apply Forall_app in Hs as [Hss Hs1].
  destruct (node_at fs (base ++ ns ++ [n])) as [[c|]|] eqn:Hx.
  - (* a file is in the way *)
    rewrite (mkdirs_blocked fs base (ns ++ [n]) (length (ns ++ [n])) c);
      [by eexists|done| |by rewrite firstn_all].
    rewrite length_app. simpl. lia.
  - (* the directory is there *)
    rewrite mkdirs_there; [done|].
    intros k Hk. destruct (decide (k = length (ns ++ [n]))) as [->|].
    + rewrite firstn_all. by apply is_dir_node.
    + eapply wf_prefix_dirs; [done..|lia].
  - rewrite mkdirs_app.
    destruct ns as [|n0 ns0] using rev_ind.
    + (* no parent to make *)
      clear IH.
      assert (mkdir_last fs cwd (Strings.JoinSlash (pre ++ [] ++ [n]))
              = (default fs (mkdirs fs (base ++ []) [n]), None)) as Hlast.
      { apply (mkdir_last_named fs cwd pre base [] n);
          [done|by apply Forall_app|by apply Forall_app
          |by apply prefix_dirs_nil|by left]. }
      assert (mkdirs fs (base ++ []) [n]
              = Some (<[(base ++ []) ++ [n] := Dir]> fs)) as Hm.
      { cbn [mkdirs]. rewrite app_nil_r. simpl ([] ++ _) in Hx. by rewrite Hx. }
      change (mkdirs fs base [] ≫= λ fs', mkdirs fs' (base ++ []) [n])
        with (mkdirs fs (base ++ []) [n]).
      rewrite Hm in *. unfold made. cbn [default] in Hlast.
      destruct Hpre as [[-> ->]|[-> ->]]; [done|].
      change (rev ([""] ++ [])) with [""]. cbv iota.
      by rewrite decide_True.
    + set (ns := ns0 ++ [n0]) in *.
      assert (ns ≠ []) as Hne by (subst ns; by destruct ns0).
      specialize (IH Hns Hss Hne).
      assert (rev (pre ++ ns) ≠ []) as Hrev.
      { subst ns. rewrite app_assoc, rev_snoc_cons. done. }
      assert (∀ (X : Type) (l : list string) (a b : X),
                l ≠ [] → match l with [] => a | _ :: _ => b end = b) as Hmatch
        by (by intros ? [|??]).
      rewrite Hmatch by done. rewrite rev_involutive.
      rewrite decide_False; last first.
      { destruct (JoinSlash_names_nonempty ns Hne Hns) as [J1 J2].
        by destruct Hpre as [[-> ->]|[-> ->]]. }
      destruct (mkdirs fs base ns) as [fs1|] eqn:Hm1; simpl in IH.
      * rewrite IH. simpl (_ ≫= _).
        destruct (mkdirs_made _ _ _ _ Hm1 Hwf Hb) as (Hwf1 & Hp1 & Hg1).
        assert (node_at fs1 (base ++ ns ++ [n]) = None
                ∨ node_at fs1 (base ++ ns ++ [n]) = Some Dir) as Hx1.
        { destruct (Hg1 (base ++ ns ++ [n])) as [->|[_ ->]]; auto. }
        rewrite (mkdir_last_named fs1 cwd pre base ns n);
          [|done|by apply Forall_app|by apply Forall_app|done|done].
        cbn [mkdirs]. rewrite <-app_assoc.
        destruct Hx1 as [-> | ->]; done.
      * destruct IH as [e ->]. simpl. by eexists.
Qed.

End output_path_facts.

(** ** [handleTemplate] on the elements of the output path *)
Section settle_facts.

Context `{Libs}.
Import Os.
Implicit Types (fs : filesystem) (l q base cwd : location) (ns es : list string).

Lemma names_app es1 es2 : names (es1 ++ es2) = names es1 ++ names es2.
Proof.
  induction es1 as [|e es1 IH]; [done|]. simpl. destruct (named e); simpl; by rewrite IH.
Qed.

Lemma names_named es : Forall (λ e, named e = true) (names es).
Proof.
  induction es as [|e es IH]; [constructor|]. simpl.
  destruct (named e) eqn:He; [by constructor|done].
Qed.

Lemma names_no_slash es : Forall no_slash es → Forall no_slash (names es).
Proof.
  induction 1 as [|e es He Hes IH]; [constructor|]. simpl.
  destruct (named e); [by constructor|done].
Qed.

Lemma elem_of_removelast {A} (x : A) (l : list A) : x ∈ removelast l → x ∈ l.
Proof.
  induction l as [|y l IH]; [done|]. simpl. destruct l as [|z l]; [by intros ?%elem_of_nil|].
  intros [->|Hx]%elem_of_cons; [left|right; by apply IH].
Qed.

Lemma clean_elems_plain rooted es : ".." ∉ es → Path.clean_elems rooted es = names es.
Proof.
  unfold Path.clean_elems. intros Hdd.
  assert (∀ acc, foldl (Path.clean_elem rooted) acc es = rev (names es) ++ acc) as Hf.
  { induction es as [|e es IH]; intros acc; [done|].
    apply not_elem_of_cons in Hdd as [He Hes]. simpl. rewrite IH by done.
    unfold Path.clean_elem, named.
    destruct (decide (e = "" ∨ e = ".")) as [Hs|Hs].
    - rewrite bool_decide_eq_true_2 by tauto. done.
    - rewrite decide_False by done. rewrite bool_decide_eq_false_2 by (intros [?|[?|?]]; subst; tauto).
      simpl. by rewrite <-app_assoc. }
  by rewrite Hf, app_nil_r, rev_involutive.
Qed.

Lemma Split_fst_empty p :
  (Path.Split p).1 = "" → Path.IsRooted p = false ∧ removelast (Strings.SplitSlash p) = [].
Proof.
  intros Hd. split.
  - destruct p as [|c p]; [done|]. cbn [Path.Split] in Hd.
    destruct (Path.Split p). cbn [Strings.ContainsByte] in Hd.
    simpl. unfold IsPathSeparator. by destruct (c =? "/")%char.
  - pose proof (SplitSlash_Split p) as Hs. rewrite Hd in Hs.
    change (Strings.SplitSlash "") with ([] ++ [""]) in Hs.
    by apply app_inj_tail in Hs as [<- _].
Qed.

Lemma IsRooted_Split p :
  (Path.Split p).1 ≠ "" → Path.IsRooted (Path.Split p).1 = Path.IsRooted p.
Proof.
  destruct p as [|c p]; [done|]. cbn [Path.Split].
  destruct (Path.Split p). by destruct (Strings.ContainsByte _ _).
Qed.

Lemma MkdirAll_elems_dir fs cwd relems :
  Stat fs cwd (Strings.JoinSlash (rev relems)) = Some Dir →
  MkdirAll_elems fs cwd relems = (fs, None).
Proof. intros Hs. destruct relems; cbn [MkdirAll_elems]; by rewrite Hs. Qed.

Lemma Stat_dot fs cwd : is_dir fs cwd = true → Stat fs cwd "." = Some Dir.
Proof.
  intros Hc. unfold Stat, namei. rewrite decide_False by done.
  change (Path.IsRooted ".") with false. change (Strings.SplitSlash ".") with ["."].
  cbn [walk]. rewrite Hc. rewrite decide_True by auto. simpl. by apply is_dir_node.
Qed.

Lemma Stat_root fs cwd : Stat fs cwd "/" = Some Dir.
Proof.
  unfold Stat, namei. rewrite decide_False by done.
  change (Path.IsRooted "/") with true. change (Strings.SplitSlash "/") with [""; ""].
  cbn [walk]. rewrite is_dir_root. by rewrite !decide_True by auto.
Qed.

(** [MkdirAll] of the directory of an output path without [..]. *)
Lemma MkdirAll_Dir fs cwd out :
  well_formed fs → is_dir fs cwd = true → ".." ∉ Strings.SplitSlash out →
  made fs
    (mkdirs fs (if Path.IsRooted out then [] else cwd)
       (names (removelast (Strings.SplitSlash out))))
    (MkdirAll fs cwd (Path.Dir out)).
Proof.
  intros Hwf Hc Hdd. unfold Path.Dir, Path.Clean, MkdirAll.
  pose proof (SplitSlash_Split out) as Hsplit.
  destruct (decide ((Path.Split out).1 = "")) as [Hd|Hd].
  { destruct (Split_fst_empty _ Hd) as [-> ->].
    change (rev (Strings.SplitSlash ".")) with ["."].
    apply MkdirAll_elems_dir. by apply Stat_dot. }
  rewrite IsRooted_Split by done.
  assert (Forall no_slash (names (removelast (Strings.SplitSlash out)))) as Hns.
  { apply names_no_slash. apply Forall_forall. intros e He%elem_of_removelast.
    revert e He. apply Forall_forall, SplitSlash_no_slash. }
  rewrite Hsplit, clean_elems_plain; last first.
  { intros [Hx%elem_of_removelast|Hx%list_elem_of_singleton]%elem_of_app; done. }
  rewrite names_app. change (names [""]) with (@nil string). rewrite app_nil_r.
  destruct (names (removelast (Strings.SplitSlash out))) as [|n ns] eqn:En.
  - destruct (Path.IsRooted out).
    + change (rev (Strings.SplitSlash ("/" +:+ Strings.JoinSlash []))) with [""; ""].
      apply MkdirAll_elems_dir. apply Stat_root.
    + rewrite decide_True by done. change (rev (Strings.SplitSlash ".")) with ["."].
      apply MkdirAll_elems_dir. by apply Stat_dot.
  - pose proof (names_named (removelast (Strings.SplitSlash out))) as Hnamed.
    rewrite En in Hnamed.
    destruct (Path.IsRooted out).
    + change ("/" +:+ Strings.JoinSlash (n :: ns))
        with (Strings.JoinSlash ("" :: n :: ns)).
      rewrite SplitSlash_JoinSlash; [|done|by constructor].
      by apply (MkdirAll_elems_named fs cwd [""] [] (n :: ns)); auto.
    + rewrite decide_False by done. rewrite SplitSlash_JoinSlash by done.
      by apply (MkdirAll_elems_named fs cwd [] cwd (n :: ns)); auto.
Qed.

(** Where a path name without [..] leads when the directories are
    there. *)
Lemma walk_plain fs cur es :
  ".." ∉ es → es ≠ [] → prefix_dirs fs cur (names (removelast es)) →
  walk fs cur es = Some (cur ++ names es).
Proof.
  revert cur. induction es as [|e es IH]; intros cur Hdd Hne; [done|].
  apply not_elem_of_cons in Hdd as [He Hes].
  destruct es as [|e2 es].
  - simpl (removelast _). intros Hc%prefix_dirs_nil. simpl (names _).
    destruct (named e) eqn:Hn.
    + by rewrite walk_named, Hc.
    + rewrite walk_skipped, Hc by done. simpl. by rewrite app_nil_r.
  - change (removelast (e :: e2 :: es)) with (e :: removelast (e2 :: es)).
    simpl (names (e :: _)). destruct (named e) eqn:Hn.
    + intros [Hc Hp]%prefix_dirs_cons. rewrite walk_named, Hc by done.
      rewrite IH by done. by rewrite <-app_assoc.
    + intros Hp. assert (is_dir fs cur = true) as Hc.
      { specialize (Hp 0). rewrite take_0, app_nil_r in Hp. apply Hp. lia. }
      rewrite walk_skipped, Hc by done. by apply IH.
Qed.

Lemma walk_lexical fs cur es l : walk fs cur es = Some l → l = lex_walk cur es.
Proof.
  revert cur. induction es as [|e es IH]; intros cur; simpl; [congruence|].
  destruct (is_dir fs cur); [|done]. repeat case_decide; apply IH.
Qed.

Lemma namei_lexical fs cwd name l : namei fs cwd name = Some l → l = lexical cwd name.
Proof. unfold namei, lexical. case_decide; [done|]. apply walk_lexical. Qed.

Lemma lex_walk_plain cur es : ".." ∉ es → lex_walk cur es = cur ++ names es.
Proof.
  revert cur. induction es as [|e es IH]; intros cur Hdd; simpl; [by rewrite app_nil_r|].
  apply not_elem_of_cons in Hdd as [He Hes]. unfold named.
  destruct (decide (e = "" ∨ e = ".")) as [Hs|Hs].
  - rewrite bool_decide_eq_true_2 by tauto. simpl. by apply IH.
  - rewrite decide_False by done. rewrite bool_decide_eq_false_2 by (intros [?|[?|?]]; subst; tauto).
    simpl. rewrite IH by done. by rewrite <-app_assoc.
Qed.

(** [handleTemplate], when the template parses and has an output path
    without [..], does to a well-formed file system what [settle] says. *)
Lemma handleTemplate_settle P v fs file t :
  well_formed fs → is_dir fs (cwd P) = true →
  ParseFiles P fs file = Some t →
  outputFile v file ≠ "" →
  ".." ∉ Strings.SplitSlash (outputFile v file) →
  h_fs (handleTemplate P v fs file)
  = settle fs (if Path.IsRooted (outputFile v file) then [] else cwd P)
      (Strings.SplitSlash (outputFile v file))
      (template_Execute t (Viper.GetStringMap v (tmplName file +:+ ".vars"))).1.
Proof.
  intros Hwf Hc Ht Hout Hdd. unfold handleTemplate, settle. rewrite Ht.
  fold (outputFile v file). rewrite decide_False by done.
  pose proof (MkdirAll_Dir fs (cwd P) (outputFile v file) Hwf Hc Hdd) as Hmk.
  set (base := if Path.IsRooted (outputFile v file) then [] else cwd P) in *.
  destruct (mkdirs fs base _) as [fs'|] eqn:Hm; simpl in Hmk.
  - rewrite Hmk.
    assert (is_dir fs base = true) as Hb by (subst base; by destruct (Path.IsRooted _)).
    destruct (mkdirs_made _ _ _ _ Hm Hwf Hb) as (Hwf' & Hp & Hg).
    assert (namei fs' (cwd P) (outputFile v file)
            = Some (base ++ names (Strings.SplitSlash (outputFile v file)))) as Hn.
    { unfold namei. rewrite decide_False by done.
      apply walk_plain; [done|apply SplitSlash_nonempty|done]. }
    unfold Create. rewrite Hn. simpl.
    destruct (template_Execute t _) as [w e].
    destruct (node_at fs' _) as [[c|]|] eqn:Hd; simpl; unfold Write;
      by rewrite ?insert_insert_eq.
  - destruct Hmk as [e ->]. done.
Qed.

End settle_facts.

(** ** Jobs that have nothing left to do *)
Section settled_facts.

Context `{Libs}.
Import Os.
Implicit Types (fs : filesystem) (l q d base cwd : location) (ns es : list string).

Lemma names_cons e es :
  names (e :: es) = if named e then e :: names es else names es.
Proof. done. Qed.

Lemma names_last es :
  names es = names (removelast es)
  ∨ ∃ e, names es = names (removelast es) ++ [e].
Proof.
  induction es as [|e es IH]; [by left|].
  destruct es as [|e2 es].
  - simpl. destruct (named e); [right; by exists e|by left].
  - change (removelast (e :: e2 :: es)) with (e :: removelast (e2 :: es)).
    rewrite (names_cons e (e2 :: es)), (names_cons e (removelast (e2 :: es))).
    destruct (named e); [|done].
    destruct IH as [->|[x ->]]; [by left|right; by exists x].
Qed.

Lemma settle_changes fs base es w :
  well_formed fs → is_dir fs base = true →
  changed_by fs (settle fs base es w) (base ++ names es) w.
Proof.
  intros Hwf Hb q. unfold settle.
  destruct (mkdirs fs base _) as [fs'|] eqn:Hm; [|by left].
  destruct (mkdirs_made _ _ _ _ Hm Hwf Hb) as (_ & _ & Hg).
  assert (node_at fs' (base ++ names es) ≠ Some Dir →
          node_at fs (base ++ names es) ≠ Some Dir) as Hd.
  { intros Hd Hd'. destruct (Hg (base ++ names es)) as [E|[E _]]; congruence. }
  assert (∀ x, node_at fs' (base ++ names es) ≠ Some Dir →
     node_at (<[base ++ names es := x]> fs') q = node_at fs q
     ∨ node_at fs q = None ∧ node_at (<[base ++ names es := x]> fs') q = Some Dir
     ∨ q = base ++ names es ∧ node_at fs q ≠ Some Dir
       ∧ node_at (<[base ++ names es := x]> fs') q = Some x) as Hins.
  { intros x Hx. assert (base ++ names es ≠ []) by (intros E; by rewrite E in Hx).
    rewrite node_at_insert by done. case_decide as Hq.
    - subst q. right. right. auto.
    - destruct (Hg q) as [->|[? ?]]; auto. }
  destruct (node_at fs' (base ++ names es)) as [[c|]|] eqn:Hn.
  - by apply Hins.
  - destruct (Hg q) as [->|[? ?]]; auto.
  - by apply Hins.
Qed.

Lemma changed_by_is_dir fs fs' d w q :
  changed_by fs fs' d w → is_dir fs q = true → is_dir fs' q = true.
Proof.
  rewrite !is_dir_node. intros Hc Hq.
  destruct (Hc q) as [->|[[? ?]|(_ & ? & ?)]]; congruence.
Qed.

Lemma changed_by_keeps fs fs' d w : changed_by fs fs' d w → keeps fs fs'.
Proof.
  intros Hc q. split.
  - intros Hq. destruct (Hc q) as [->|[[? ?]|(_ & ? & ?)]]; congruence.
  - intros c Hq. destruct (Hc q) as [->|[[? ?]|(_ & ? & ?)]]; eauto; congruence.
Qed.

Lemma settle_well_formed fs base es w :
  well_formed fs → is_dir fs base = true → well_formed (settle fs base es w).
Proof.
  intros Hwf Hb. unfold settle.
  destruct (mkdirs fs base _) as [fs'|] eqn:Hm; [|done].
  destruct (mkdirs_made _ _ _ _ Hm Hwf Hb) as (Hwf' & Hp & _).
  assert (node_at fs' (base ++ names es) ≠ Some Dir →
          is_dir fs' (parent (base ++ names es)) = true) as Hparent.
  { intros Hd. destruct (names_last es) as [E|[e E]]; rewrite E in *.
    - destruct Hd. apply is_dir_node. rewrite <-(firstn_all (names _)). by apply Hp.
    - rewrite app_assoc, parent_snoc. rewrite <-(firstn_all (names _)). by apply Hp. }
  destruct (node_at fs' (base ++ names es)) as [[c|]|] eqn:Hn; [|done|].
  - apply wf_insert_file; [done|congruence|by apply Hparent].
  - apply wf_insert_file; [done|congruence|by apply Hparent].
Qed.

(** After [settle] there is nothing left to do. *)
Lemma settle_settled fs base es w :
  well_formed fs → is_dir fs base = true → settled (settle fs base es w) base es w.
Proof.
  intros Hwf Hb. unfold settle, settled.
  destruct (mkdirs fs base _) as [fs'|] eqn:Hm.
  - right. destruct (mkdirs_made _ _ _ _ Hm Hwf Hb) as (_ & Hp & _).
    assert (node_at fs' (base ++ names es) ≠ Some Dir →
            prefix_dirs (<[base ++ names es := File w]> fs') base
              (names (removelast es))
            ∧ node_at (<[base ++ names es := File w]> fs') (base ++ names es)
              = Some (File w)) as Hins.
    { intros Hd. split.
      - intros k Hk. rewrite is_dir_insert_file by done. by apply Hp.
      - rewrite node_at_insert by (intros E; by rewrite E in Hd).
        by rewrite decide_True. }
    destruct (node_at fs' (base ++ names es)) as [[c|]|] eqn:Hn.
    + destruct Hins as [? ?]; auto.
    + auto.
    + destruct Hins as [? ?]; auto.
  - left. by apply mkdirs_failed.
Qed.

(** When there is nothing left to do, [settle] does nothing. *)
Lemma settled_settle fs base es w :
  well_formed fs → settled fs base es w → settle fs base es w = fs.
Proof.
  intros Hwf [(k & c & Hk & Hc)|[Hp Hd]]; unfold settle.
  - by rewrite (mkdirs_blocked _ _ _ _ _ Hwf Hk Hc).
  - rewrite mkdirs_there by done. destruct Hd as [-> | Hd]; [done|]. rewrite Hd.
    apply insert_id. unfold node_at in Hd. by case_decide.
Qed.

(** What another job does leaves it that way. *)
Lemma settled_changed_by fs fs' d' w' base es w :
  settled fs base es w → changed_by fs fs' d' w' → d' ≠ base ++ names es →
  settled fs' base es w.
Proof.
  intros Hs Hc Hd'. pose proof (changed_by_keeps _ _ _ _ Hc) as Hk.
  destruct Hs as [(k & c & Hlen & Hq)|[Hp Hd]].
  - left. destruct (proj2 (Hk _) _ Hq) as [c' Hc']. by exists k, c'.
  - right. split.
    + intros k Hlen. eapply changed_by_is_dir; [done|]. by apply Hp.
    + destruct Hd as [Hd|Hd]; [left; by apply Hk|right].
      destruct (Hc (base ++ names es)) as [->|[[? ?]|(? & _)]]; congruence.
Qed.

Lemma walk_mono fs fs' cur es l :
  (∀ q, is_dir fs q = true → is_dir fs' q = true) →
  walk fs cur es = Some l → walk fs' cur es = Some l.
Proof.
  intros Hd. revert cur. induction es as [|e es IH]; intros cur; [done|]. simpl.
  destruct (is_dir fs cur) eqn:Hc; [|done]. rewrite (Hd _ Hc).
  repeat case_decide; apply IH.
Qed.

(** A file that is not the destination reads as before. *)
Lemma ReadFile_changed_by fs fs' d w cwd name c :
  changed_by fs fs' d w → lexical cwd name ≠ d →
  ReadFile fs cwd name = Some c → ReadFile fs' cwd name = Some c.
Proof.
  intros Hc Hd. unfold ReadFile, Stat.
  destruct (namei fs cwd name) as [l|] eqn:Hn; [|done]. simpl.
  assert (namei fs' cwd name = Some l) as ->.
  { revert Hn. unfold namei. case_decide; [done|].
    apply walk_mono. intros q. by eapply changed_by_is_dir. }
  apply namei_lexical in Hn as ->. simpl.
  destruct (Hc (lexical cwd name)) as [->|[[-> _]|(? & _)]]; done.
Qed.

End settled_facts.

(** ** Runs of templates that keep apart *)
Section apart_facts.

Context `{Libs}.
Import Os.
Implicit Types (P : Process) (v : Viper.t) (fs : filesystem) (s : State).
Implicit Types (files : list string) (file : string).

Lemma NoDup_omap_lookup {A B} (h : A → option B) (l : list A) i j x y a b :
  NoDup (omap h l) → i ≠ j → l !! i = Some x → l !! j = Some y →
  h x = Some a → h y = Some b → a ≠ b.
Proof.
  revert i j. induction l as [|z l IH]; intros i j Hnd Hij Hi Hj Ha Hb; [done|].
  simpl in Hnd.
  assert (∀ k u c, l !! k = Some u → h u = Some c → c ∈ omap h l) as Hin.
  { intros k u c Hk Hc. apply list_elem_of_omap. exists u.
    split; [by eapply list_elem_of_lookup_2|done]. }
  destruct i as [|i], j as [|j]; simplify_eq/=.
  - rewrite Ha in Hnd. apply NoDup_cons in Hnd as [Hn _].
    intros ->. apply Hn. by eapply Hin.
  - rewrite Hb in Hnd. apply NoDup_cons in Hnd as [Hn _].
    intros ->. apply Hn. by eapply Hin.
  - assert (i ≠ j) by congruence.
    destruct (h z); [apply NoDup_cons in Hnd as [_ Hnd]|];
      by apply (IH i j).
Qed.

Lemma destination_in P v files file :
  file ∈ files → outputFile v file ≠ "" →
  destination P v file ∈ destinations P v files.
Proof.
  intros Hf Ho. apply list_elem_of_omap. exists file. split; [done|].
  by rewrite decide_False.
Qed.

Lemma destination_distinct P v files i j f g :
  NoDup (destinations P v files) → i ≠ j →
  files !! i = Some f → files !! j = Some g →
  outputFile v f ≠ "" → outputFile v g ≠ "" →
  destination P v f ≠ destination P v g.
Proof.
  intros Hnd Hij Hi Hj Hf Hg.
  unfold destinations in Hnd.
  eapply (NoDup_omap_lookup
            (λ file, if decide (outputFile v file = "") then None
                     else Some (destination P v file)) files i j f g);
    [done..| |]; simpl; by rewrite decide_False.
Qed.

Lemma destination_plain P v file :
  ".." ∉ Strings.SplitSlash (outputFile v file) →
  destination P v file
  = output_base P v file ++ names (Strings.SplitSlash (outputFile v file)).
Proof. intros Hdd. unfold destination, lexical. by rewrite lex_walk_plain. Qed.

Lemma output_base_is_dir P v file fs :
  is_dir fs (cwd P) = true → is_dir fs (output_base P v file) = true.
Proof. unfold output_base. by destruct (Path.IsRooted _). Qed.

Lemma ParseFiles_in_order P files fs0 fs file :
  in_order P files fs0 fs → file ∈ files →
  ParseFiles P fs file = ParseFiles P fs0 file.
Proof.
  intros [_ _ Ht] Hf. unfold ParseFiles.
  rewrite Forall_forall in Ht. by rewrite (Ht _ Hf).
Qed.

(** One job, on a file system in order. *)
Lemma handleTemplate_in_order P v files fs0 fs file :
  apart P v files fs0 → in_order P files fs0 fs → file ∈ files →
  in_order P files fs0 (h_fs (handleTemplate P v fs file))
  ∧ job_settled P v fs0 file (h_fs (handleTemplate P v fs file))
  ∧ (h_fs (handleTemplate P v fs file) = fs
     ∨ outputFile v file ≠ ""
       ∧ ∃ w, changed_by fs (h_fs (handleTemplate P v fs file))
                (destination P v file) w).
Proof.
  intros Hap Hord Hf.
  pose proof (ParseFiles_in_order _ _ _ _ _ Hord Hf) as Hparse.
  destruct Hap as [_ _ Hreg _ Htm Hplain]. pose proof Hord as [Hwf Hcwd Hsame].
  rewrite Forall_forall in Hreg, Htm, Hplain, Hsame.
  destruct (ParseFiles P fs0 file) as [t|] eqn:Ht; last first.
  { assert (h_fs (handleTemplate P v fs file) = fs) as ->
      by (unfold handleTemplate; by rewrite Hparse).
    split; [done|]. split; [|by left].
    intros w Hw. unfold rendering in Hw. by rewrite Ht in Hw. }
  destruct (decide (outputFile v file = "")) as [Ho|Ho].
  { assert (h_fs (handleTemplate P v fs file) = fs) as ->.
    { unfold handleTemplate. rewrite Hparse. fold (outputFile v file).
      by rewrite decide_True. }
    split; [done|]. split; [|by left]. by intros w _ ?. }
  rewrite (handleTemplate_settle P v fs file t) by auto.
  fold (output_base P v file).
  pose proof (output_base_is_dir P v file fs Hcwd) as Hb.
  pose proof (settle_changes fs (output_base P v file)
                (Strings.SplitSlash (outputFile v file))
                (template_Execute t
                   (Viper.GetStringMap v (tmplName file +:+ ".vars"))).1 Hwf Hb)
    as Hch.
  rewrite <-destination_plain in Hch by auto.
  split; [|split].
  - split.
    + by apply settle_well_formed.
    + by eapply changed_by_is_dir.
    + apply Forall_forall. intros g Hg. rewrite <-(Hsame g Hg).
      destruct (Hreg g Hg) as [c Hc]. rewrite <-(Hsame g Hg) in Hc. rewrite Hc.
      eapply ReadFile_changed_by; [done| |done].
      intros E. apply (Htm g Hg). rewrite E. by apply destination_in.
  - intros w Hw _. unfold rendering in Hw. rewrite Ht in Hw. simplify_eq/=.
    by apply settle_settled.
  - right. split; [done|]. by eexists.
Qed.

(** A job that has nothing left to do does nothing. *)
Lemma handleTemplate_settled P v files fs0 fs file :
  apart P v files fs0 → in_order P files fs0 fs → file ∈ files →
  job_settled P v fs0 file fs →
  h_fs (handleTemplate P v fs file) = fs.
Proof.
  intros Hap Hord Hf Hs.
  pose proof (ParseFiles_in_order _ _ _ _ _ Hord Hf) as Hparse.
  destruct Hap as [_ _ _ _ _ Hplain]. destruct Hord as [Hwf Hcwd _].
  rewrite Forall_forall in Hplain.
  destruct (ParseFiles P fs0 file) as [t|] eqn:Ht; last first.
  { unfold handleTemplate. by rewrite Hparse. }
  destruct (decide (outputFile v file = "")) as [Ho|Ho].
  { unfold handleTemplate. rewrite Hparse. fold (outputFile v file).
    by rewrite decide_True. }
  rewrite (handleTemplate_settle P v fs file t) by auto.
  apply settled_settle; [done|]. apply Hs; [|done].
  unfold rendering. by rewrite Ht.
Qed.

Lemma job_settled_changed_by P v files fs0 fs fs' i j f g w :
  apart P v files fs0 → i ≠ j → files !! i = Some f → files !! j = Some g →
  outputFile v f ≠ "" → changed_by fs fs' (destination P v f) w →
  job_settled P v fs0 g fs → job_settled P v fs0 g fs'.
Proof.
  intros Hap Hij Hi Hj Hf Hch Hs w' Hw Hg.
  eapply settled_changed_by; [by apply Hs|done|].
  destruct Hap as [_ _ _ Hnd _ Hplain]. rewrite Forall_forall in Hplain.
  rewrite <-destination_plain by (apply Hplain; by eapply list_elem_of_lookup_2).
  by eapply destination_distinct.
Qed.

(** *** The goroutines and the files *)

Lemma tracks_init files fs0 : tracks files (init files fs0).
Proof. by split. Qed.

Lemma tracks_step P v files s s' : tracks files s → step P v s s' → tracks files s'.
Proof.
  intros [Hrun Hpend] [Hm|[i Hg]].
  - unfold main_step in Hm.
    destruct (pc s) as [[|file rest]|file rest|file rest| |] eqn:Hpc;
      repeat case_decide; simplify_eq/=; split; simpl; try done.
    + intros i f Hi. apply lookup_app_Some in Hi as [Hi|[Hlen Hi]]; [by apply Hrun|].
      apply list_lookup_singleton_Some in Hi as [Hi [= <-]].
      replace i with (length (gs s)) by lia.
      rewrite <-(Nat.add_0_r (length (gs s))), <-lookup_drop. by rewrite Hpend.
    + rewrite length_app. simpl. by rewrite <-drop_drop, Hpend.
  - unfold goroutine_step in Hg.
    assert (∀ g, is_running g = false →
              ∀ k f, <[i := g]> (gs s) !! k = Some (GRun f) → files !! k = Some f)
      as Hins.
    { intros g Hg' k f Hk. destruct (decide (i = k)) as [->|].
      - apply list_lookup_insert_Some in Hk as [(_ & -> & _)|[? _]]; done.
      - rewrite list_lookup_insert_ne in Hk by done. by apply Hrun. }
    destruct (gs s !! i) as [[file| | |]|] eqn:Hi; [| | |done..].
    + simplify_eq/=. split; simpl; [by apply Hins|by rewrite length_insert].
    + destruct (throttle s); [done|]. simplify_eq/=.
      split; simpl; [by apply Hins|by rewrite length_insert].
    + destruct (wg s); [done|]. simplify_eq/=.
      split; simpl; [by apply Hins|by rewrite length_insert].
Qed.

Lemma run_kept_init P v files fs0 :
  well_formed fs0 → is_dir fs0 (cwd P) = true → run_kept P v files fs0 (init files fs0).
Proof.
  intros Hwf Hc. split; [|apply tracks_init|done].
  split; [done..|]. by apply Forall_forall.
Qed.

Lemma run_kept_step P v files fs0 s s' :
  apart P v files fs0 → run_kept P v files fs0 s → step P v s s' →
  run_kept P v files fs0 s'.
Proof.
  intros Hap [Hord Htr Hset] Hstep.
  pose proof (tracks_step _ _ _ _ _ Htr Hstep) as Htr'.
  destruct Hstep as [Hm|[i Hg]].
  - unfold main_step in Hm.
    destruct (pc s) as [[|file rest]|file rest|file rest| |] eqn:Hpc;
      repeat case_decide; simplify_eq/=; split; simpl; try done.
    intros i f g Hf Hi Hg.
    apply lookup_app_Some in Hi as [Hi|[_ Hi]]; [by eapply Hset|].
    by apply list_lookup_singleton_Some in Hi as [_ <-].
  - unfold goroutine_step in Hg.
    assert (∀ g, is_running g = false →
              (∃ g0, gs s !! i = Some g0 ∧ is_running g0 = false) →
              ∀ k f g', files !! k = Some f → <[i := g]> (gs s) !! k = Some g' →
                        is_running g' = false → job_settled P v fs0 f (fs s))
      as Hins.
    { intros g Hg' (g0 & Hg0 & Hr0) k f g' Hf Hk Hr.
      destruct (decide (i = k)) as [->|]; [by eapply Hset|].
      rewrite list_lookup_insert_ne in Hk by done. by eapply Hset. }
    destruct (gs s !! i) as [[file| | |]|] eqn:Hi; [| | |done..].
    + simplify_eq/=. destruct Htr as [Hrun _].
      pose proof (Hrun _ _ Hi) as Hfile.
      assert (file ∈ files) as Hin by by eapply list_elem_of_lookup_2.
      destruct (handleTemplate_in_order P v files fs0 (fs s) file Hap Hord Hin)
        as (Hord' & Hs' & Hch).
      split; simpl; [done..|].
      intros k f g' Hf Hk Hr. destruct (decide (i = k)) as [->|Hik].
      * by simplify_eq.
      * rewrite list_lookup_insert_ne in Hk by done.
        pose proof (Hset _ _ _ Hf Hk Hr) as Hsk.
        destruct Hch as [-> | [Ho [w Hw]]]; [done|].
        by eapply (job_settled_changed_by P v files fs0 (fs s) _ i k file f).
    + destruct (throttle s); [done|]. simplify_eq/=.
      split; simpl; [done..|]. apply Hins; [done|by eexists].
    + destruct (wg s); [done|]. simplify_eq/=.
      split; simpl; [done..|]. apply Hins; [done|by eexists].
Qed.

Lemma reachable_run_kept P v files fs0 s :
  apart P v files fs0 → reachable P v files fs0 s → run_kept P v files fs0 s.
Proof.
  intros Hap. unfold reachable. revert s. apply rtc_ind_r.
  - destruct Hap. by apply run_kept_init.
  - intros s s' _ Hs Hk. by eapply run_kept_step.
Qed.

(** What the first run leaves: a file system in order on which no job has
    anything left to do. *)
Lemma first_run_settles P v files fs0 s :
  apart P v files fs0 → reachable P v files fs0 s → pc s = MExit →
  in_order P files fs0 (fs s)
  ∧ ∀ file, file ∈ files → job_settled P v fs0 file (fs s).
Proof.
  intros Hap Hr Hpc. destruct (reachable_run_kept _ _ _ _ _ Hap Hr) as [Hord _ Hset].
  split; [done|]. intros file [i Hi]%list_elem_of_lookup.
  destruct (reachable_counted _ _ _ _ _ Hr) as [_ _ Hw Hf He].
  specialize (He Hpc). rewrite Hpc in Hw, Hf. simpl in Hw, Hf.
  assert (i < length (gs s)) as [g Hg]%lookup_lt_is_Some_2.
  { rewrite Nat.add_0_r in Hf. rewrite Hf. by eapply lookup_lt_Some. }
  eapply (Hset i file g); [done..|].
  assert (Forall (λ g, g = GExit) (gs s)) as Hall by (apply all_finished; lia).
  rewrite Forall_forall in Hall. rewrite (Hall g); [done|].
  by eapply list_elem_of_lookup_2.
Qed.

(** A run on such a file system leaves it as it is. *)
Lemma second_run_idle P v files fs0 fs1 s :
  apart P v files fs0 → in_order P files fs0 fs1 →
  (∀ file, file ∈ files → job_settled P v fs0 file fs1) →
  reachable P v files fs1 s → fs s = fs1.
Proof.
  intros Hap Hord Hset Hr.
  cut (fs s = fs1 ∧ tracks files s); [by intros [? _]|].
  revert s Hr. unfold reachable.
  apply rtc_ind_r; [split; [done|apply tracks_init]|].
  intros s s' _ Hstep [Hfs Htr]. split; [|by eapply tracks_step].
  destruct Hstep as [Hm|[i Hg]].
  - unfold main_step in Hm.
    destruct (pc s) as [[|file rest]|file rest|file rest| |];
      repeat case_decide; by simplify_eq/=.
  - unfold goroutine_step in Hg.
    destruct (gs s !! i) as [[file| | |]|] eqn:Hi; [| | |done..].
    + destruct Htr as [Hrun _].
      assert (file ∈ files) as Hin by (eapply list_elem_of_lookup_2; by apply Hrun).
      injection Hg as <-. simpl. rewrite Hfs.
      apply (handleTemplate_settled P v files fs0); [done..|by apply Hset].
    + destruct (throttle s); [done|]. by injection Hg as <-.
    + destruct (wg s); [done|]. by injection Hg as <-.
Qed.

End apart_facts.

(** ** Running twice *)
Section rerun_examples.

Import Example.
#[local] Existing Instance Toy.libs.

Lemma main_exec P v files fs0 schedule s :
  main_start P fs0 = Dispatch v files →
  exec P v schedule (init files fs0) = Some s →
  pc s = MExit →
  main P fs0 (Exited (fs s) (stdout s)).
Proof.
  intros Hs He Hpc. unfold main. rewrite Hs. exists s.
  split; [by eapply exec_steps|done].
Qed.

(** C7, refuted as it stands: the templates [a] and [b] both go to
    [/tmp/out]. The first run ends with the text of [b] there; it changes
    neither the configuration nor the templates; a second run in which the
    goroutine of [b] is the first to run ends with the text of [a]
    there. *)
Lemma rerun_not_identical : ¬ rerun_identical u dup_fs.
Proof.
  intros Hid.
  assert (main_start u dup_fs = Dispatch dup_v dup_files) as H0
    by (vm_compute; reflexivity).
  assert (main_start u (fs dup_first_run) = Dispatch dup_v dup_files) as H1
    by (vm_compute; reflexivity).
  assert (main u dup_fs (Exited (fs dup_first_run) (stdout dup_first_run))) as M1.
  { apply (main_exec _ _ _ _ in_turn _ H0); vm_compute; reflexivity. }
  assert (main u (fs dup_first_run)
            (Exited (fs dup_second_run) (stdout dup_second_run))) as M2.
  { apply (main_exec _ _ _ _ second_first _ H1); vm_compute; reflexivity. }
  assert (Forall (λ file, Os.ReadFile (fs dup_first_run) (cwd u) file
                          = Os.ReadFile dup_fs (cwd u) file) dup_files) as Hsame.
  { repeat constructor; vm_compute; reflexivity. }
  pose proof (Hid _ _ _ _ _ _ H0 M1 H1 Hsame M2) as Hout.
  apply Forall_cons_1 in Hout as [Hout _].
  vm_compute in Hout. discriminate Hout.
Qed.

End rerun_examples.

(** ** Further properties *)

Section rerun_facts.

Context `{Libs}.

(** X1: when the templates keep apart, a second run changes nothing. If
    the first run of [main] returns, and the configuration and the template
    files found are then the same, every second run of [main] returns with
    the file system the first run left. *)
Theorem rerun_leaves_file_system P v files fs0 fs1 printed1 fs2 printed2 :
  apart P v files fs0 →
  main_start P fs0 = Dispatch v files →
  main P fs0 (Exited fs1 printed1) →
  main_start P fs1 = Dispatch v files →
  main P fs1 (Exited fs2 printed2) →
  fs2 = fs1.
Proof.
  intros Hap H0 M1 H1 M2. unfold main in M1, M2. rewrite H0 in M1. rewrite H1 in M2.
  destruct M1 as (s1 & Hr1 & Hpc1 & [= -> _]).
  destruct M2 as (s2 & Hr2 & _ & [= -> _]).
  destruct (first_run_settles _ _ _ _ _ Hap Hr1 Hpc1) as [Hord Hset].
  by eapply second_run_idle.
Qed.

End rerun_facts.

Section rerun_witness.

Import Example.
#[local] Existing Instance Toy.libs.

Lemma ricer_apart : apart u ricer_v ricer_files ricer_fs.
Proof. split; compute_done. Qed.

Lemma rerun_leaves_file_system_witness :
  (apart u ricer_v ricer_files ricer_fs ∧
   main_start u ricer_fs = Dispatch ricer_v ricer_files ∧
   main u ricer_fs (Exited (fs ricer_first_run) (stdout ricer_first_run)) ∧
   main_start u (fs ricer_first_run) = Dispatch ricer_v ricer_files ∧
   main u (fs ricer_first_run)
     (Exited (fs ricer_second_run) (stdout ricer_second_run))) ∧
  fs ricer_second_run = fs ricer_first_run.
Proof.
  assert (main_start u ricer_fs = Dispatch ricer_v ricer_files) as H0
    by (vm_compute; reflexivity).
  assert (main_start u (fs ricer_first_run) = Dispatch ricer_v ricer_files) as H1
    by (vm_compute; reflexivity).
  assert (main u ricer_fs (Exited (fs ricer_first_run) (stdout ricer_first_run)))
    as M1.
  { apply (main_exec _ _ _ _ (one_by_one 4) _ H0); vm_compute; reflexivity. }
  assert (main u (fs ricer_first_run)
            (Exited (fs ricer_second_run) (stdout ricer_second_run))) as M2.
  { apply (main_exec _ _ _ _ (last_first 4) _ H1); vm_compute; reflexivity. }
  split; [exact (conj ricer_apart (conj H0 (conj M1 (conj H1 M2))))|].
  exact (rerun_leaves_file_system u ricer_v ricer_files ricer_fs _ _ _ _
           ricer_apart H0 M1 H1 M2).
Defined.

End rerun_witness.

(** ** The configuration *)
Section configuration_facts.

Context `{Libs}.
Implicit Types (P : Process) (v : Viper.t).

Lemma configHomeDirectory_error P err :
  (configHomeDirectory P).2 = Some err →
  Getenv P "XDG_CONFIG_HOME" = "" ∧ Getenv P "HOME" = ""
  ∧ (user_Current P).2 = Some err ∧ configHomeDirectory P = ("", Some err).
Proof.
  unfold configHomeDirectory. repeat case_decide; try done.
  destruct (user_Current P) as [home [e|]]; [|done]. by intros [= ->].
Qed.

(** X2: the configuration home cannot be determined exactly when both
    [XDG_CONFIG_HOME] and [HOME] are empty and the account cannot be looked
    up. The error is then the one of [user.Current], the path is empty, and
    [templatesDirectory] fails with the same error and the empty path;
    [templatesDirectory] fails in no other case. *)
Theorem configHomeDirectory_fails_iff P :
  (is_Some (configHomeDirectory P).2 ↔
     Getenv P "XDG_CONFIG_HOME" = "" ∧ Getenv P "HOME" = ""
     ∧ is_Some (user_Current P).2)
  ∧ (∀ err, (configHomeDirectory P).2 = Some err →
       (user_Current P).2 = Some err
       ∧ configHomeDirectory P = ("", Some err)
       ∧ templatesDirectory P = ("", Some err))
  ∧ (templatesDirectory P).2 = (configHomeDirectory P).2.
Proof.
  split; [split|split].
  - intros [err (? & ? & Hu & _)%configHomeDirectory_error].
    by rewrite Hu.
  - intros (Hx & Hh & [err Hu]). unfold configHomeDirectory.
    rewrite !decide_True by done.
    destruct (user_Current P) as [home e]. simpl in Hu. by subst e.
  - intros err (_ & _ & Hu & Hc)%configHomeDirectory_error.
    unfold templatesDirectory. by rewrite Hc.
  - unfold templatesDirectory.
    by destruct (configHomeDirectory P) as [c [e|]].
Qed.






(** X5: with the flag [-c], nothing but the flag's file is considered, and
    its name has to end in an extension viper supports: otherwise [main]
    panics with viper's error for an unsupported configuration type,
    whether or not the file exists and whatever it holds. *)
Theorem main_panics_on_unsupported_extension P fs0 :
  config P ≠ "" →
  Strings.drop 1 (Filepath.Ext (config P)) ∉ SupportedExts →
  ∀ o, main P fs0 o ↔
       o = Panicked (Viper.UnsupportedConfigError
                       (Strings.drop 1 (Filepath.Ext (config P)))).
Proof.
  intros Hc Hext o.
  assert (main_start P fs0 =
          Panic (Viper.UnsupportedConfigError
                   (Strings.drop 1 (Filepath.Ext (config P))))) as Hs.
  { unfold main_start, parseConfiguration. rewrite decide_False by done.
    unfold Viper.ReadInConfig, Viper.getConfigFile, Viper.SetConfigFile.
    destruct (decide (config P = "")) as [?|_]; [done|]. simpl.
    rewrite decide_False by done.
    by rewrite bool_decide_eq_false_2. }
  unfold main. by rewrite Hs.
Qed.

(** X6: the guidance about the templates directory is printed in one
    situation only: the configuration was given by [-c] and loaded, both
    [XDG_CONFIG_HOME] and [HOME] are empty, and the account cannot be
    looked up. The message then names no directory. Without [-c] the same
    failure makes [main] panic before it gets there. *)
Theorem main_guidance_iff P fs0 printed :
  main_start P fs0 = Return printed ↔
    (parseConfiguration P fs0 Viper.new).2 = None
    ∧ config P ≠ ""
    ∧ Getenv P "XDG_CONFIG_HOME" = "" ∧ Getenv P "HOME" = ""
    ∧ is_Some (user_Current P).2
    ∧ printed = ["Templates directory does not exist, please create " +:+ LF].
Proof.
  unfold main_start. split.
  - destruct (parseConfiguration P fs0 Viper.new) as [v [e|]] eqn:Hp; [done|].
    destruct (templatesDirectory P) as [dir [e|]] eqn:Ht;
      [|by destruct (Filepath.Glob _ _ _)].
    intros [= <-]. unfold templatesDirectory in Ht.
    destruct (configHomeDirectory P) as [c [e'|]] eqn:Hhome; [|done].
    injection Ht as <- <-.
    destruct (configHomeDirectory_error P e') as (Hx & Hh & Hu & _);
      [by rewrite Hhome|].
    split_and!; [done| |done|done|by rewrite Hu|done].
    intros Hc. unfold parseConfiguration in Hp.
    rewrite decide_True, Hhome in Hp by done. done.
  - intros (Hp & _ & Hx & Hh & [err Hu] & ->).
    destruct (parseConfiguration P fs0 Viper.new) as [v [e|]]; [done|].
    unfold templatesDirectory, configHomeDirectory.
    rewrite !decide_True by done.
    destruct (user_Current P) as [home e]. simpl in Hu. by subst e.
Qed.

End configuration_facts.

Section configuration_examples.

Import Example.
#[local] Existing Instance Toy.libs.



Lemma main_panics_on_unsupported_extension_witness :
  (config (with_config u "/home/u/ricerrc") ≠ "" ∧
   Strings.drop 1 (Filepath.Ext (config (with_config u "/home/u/ricerrc")))
     ∉ SupportedExts) ∧
  ∀ o, main (with_config u "/home/u/ricerrc") ricer_fs o ↔
       o = Panicked (Viper.UnsupportedConfigError
              (Strings.drop 1
                 (Filepath.Ext (config (with_config u "/home/u/ricerrc"))))).
Proof.
  assert (config (with_config u "/home/u/ricerrc") ≠ "") as Hc by done.
  assert (Strings.drop 1 (Filepath.Ext (config (with_config u "/home/u/ricerrc")))
            ∉ SupportedExts) as Hext by compute_done.
  split; [exact (conj Hc Hext)|].
  exact (main_panics_on_unsupported_extension _ ricer_fs Hc Hext).
Defined.

End configuration_examples.

(** ** One job *)
Section job_facts.

Context `{Libs}.
Import Os.
Implicit Types (fs : filesystem) (l q d base cwd : location) (ns es : list string).

Lemma Mkdir_made fs cwd name fs' :
  Mkdir fs cwd name = Some fs' →
  ∃ l, namei fs cwd name = Some l ∧ node_at fs l = None ∧ fs' = <[l := Dir]> fs.
Proof.
  unfold Mkdir. destruct (namei fs cwd name) as [l|]; [|done]. simpl.
  destruct (node_at fs l) eqn:E; [done|]. intros [= <-]. by exists l.
Qed.

Lemma mkdir_last_grows fs cwd name : grows fs (mkdir_last fs cwd name).1.
Proof.
  unfold mkdir_last. destruct (Mkdir fs cwd name) as [fs'|] eqn:Hm.
  - apply Mkdir_made in Hm as (l & _ & Hl & ->). by apply grows_insert_dir.
  - destruct (Stat fs cwd name) as [[]|]; apply grows_refl.
Qed.

Lemma mkdir_last_Stat fs cwd name fs1 :
  mkdir_last fs cwd name = (fs1, None) → Stat fs1 cwd name = Some Dir.
Proof.
  unfold mkdir_last. destruct (Mkdir fs cwd name) as [fs'|] eqn:Hm.
  - intros [= <-]. apply Mkdir_made in Hm as (l & Hn & Hl & ->).
    assert (l ≠ []) by (by intros ->).
    unfold Stat. unfold namei in *. case_decide; [done|].
    rewrite (walk_mono fs _ _ _ l); [|intros; by apply is_dir_insert_dir|done].
    simpl. rewrite node_at_insert by done. by rewrite decide_True.
  - destruct (Stat fs cwd name) as [[]|] eqn:Hs; by intros [= <-].
Qed.

Lemma MkdirAll_elems_unfold fs cwd n rest :
  MkdirAll_elems fs cwd (n :: rest)
  = match Stat fs cwd (Strings.JoinSlash (rev (n :: rest))) with
    | Some Dir => (fs, None)
    | Some (File _) =>
        (fs, Some (ENOTDIR "mkdir" (Strings.JoinSlash (rev (n :: rest)))))
    | None =>
        match rest with
        | _ :: _ =>
            if decide (Strings.JoinSlash (rev rest) = "")
            then mkdir_last fs cwd (Strings.JoinSlash (rev (n :: rest)))
            else
              match MkdirAll_elems fs cwd rest with
              | (fs', None) =>
                  mkdir_last fs' cwd (Strings.JoinSlash (rev (n :: rest)))
              | (fs', Some err) => (fs', Some err)
              end
        | [] => mkdir_last fs cwd (Strings.JoinSlash (rev (n :: rest)))
        end
    end.
Proof. by destruct rest. Qed.

(** [MkdirAll] makes directories where nothing was, and nothing else,
    whether it succeeds or not. *)
Lemma MkdirAll_elems_grows fs cwd relems :
  grows fs (MkdirAll_elems fs cwd relems).1.
Proof.
  induction relems as [|n rest IH].
  - cbn [MkdirAll_elems]. destruct (Stat _ _ _) as [[]|]; try apply grows_refl.
  - rewrite MkdirAll_elems_unfold.
    destruct (Stat _ _ _) as [[]|]; try apply grows_refl.
    destruct rest as [|m rest]; [apply mkdir_last_grows|].
    case_decide; [apply mkdir_last_grows|].
    destruct (MkdirAll_elems fs cwd (m :: rest)) as [fs' [err|]]; [done|].
    eapply grows_trans; [exact IH|apply mkdir_last_grows].
Qed.

(** When it succeeds, the name is a directory. *)
Lemma MkdirAll_elems_Stat fs cwd relems fs1 :
  MkdirAll_elems fs cwd relems = (fs1, None) →
  Stat fs1 cwd (Strings.JoinSlash (rev relems)) = Some Dir.
Proof.
  destruct relems as [|n rest].
  - cbn [MkdirAll_elems]. destruct (Stat _ _ _) as [[]|] eqn:Hs.
    + done.
    + by intros [= <-].
    + apply mkdir_last_Stat.
  - rewrite MkdirAll_elems_unfold.
    destruct (Stat _ _ _) as [[]|] eqn:Hs.
    + done.
    + by intros [= <-].
    + destruct rest as [|m rest]; [apply mkdir_last_Stat|].
      case_decide; [apply mkdir_last_Stat|].
      destruct (MkdirAll_elems fs cwd (m :: rest)) as [fs' [err|]]; [done|].
      apply mkdir_last_Stat.
Qed.

Lemma JoinSlash_SplitSlash s : Strings.JoinSlash (Strings.SplitSlash s) = s.
Proof.
  induction s as [|c s IH]; [done|]. cbn [Strings.SplitSlash].
  pose proof (SplitSlash_nonempty s) as Hne.
  destruct (IsPathSeparator c) eqn:Hc.
  - unfold IsPathSeparator in Hc. apply Ascii.eqb_eq in Hc as ->.
    destruct (Strings.SplitSlash s) as [|e es]; [done|].
    rewrite JoinSlash_cons2. by rewrite IH.
  - destruct (Strings.SplitSlash s) as [|e es]; [done|].
    destruct es as [|e' es]; [simpl in *; by rewrite IH|].
    rewrite JoinSlash_cons2 in *. by rewrite <-IH.
Qed.

Lemma MkdirAll_Stat fs cwd name fs1 :
  MkdirAll fs cwd name = (fs1, None) → Stat fs1 cwd name = Some Dir.
Proof.
  unfold MkdirAll. intros Hm%MkdirAll_elems_Stat.
  by rewrite rev_involutive, JoinSlash_SplitSlash in Hm.
Qed.

(** What a call of [handleTemplate] can do to a location: nothing, or make
    a directory where nothing was, or write the destination, which was no
    directory. *)
Lemma handleTemplate_frame P v fs file q :
  node_at (h_fs (handleTemplate P v fs file)) q = node_at fs q
  ∨ (node_at fs q = None
     ∧ node_at (h_fs (handleTemplate P v fs file)) q = Some Dir)
  ∨ (q = destination P v file ∧ outputFile v file ≠ ""
     ∧ node_at fs q ≠ Some Dir
     ∧ ∃ w, node_at (h_fs (handleTemplate P v fs file)) q = Some (File w)).
Proof.
  unfold handleTemplate. destruct (ParseFiles P fs file) as [t|]; [|by left].
  fold (outputFile v file). case_decide as Hout; [by left|].
  pose proof (MkdirAll_elems_grows fs (cwd P)
                (rev (Strings.SplitSlash (Path.Dir (outputFile v file))))) as Hg.
  fold (MkdirAll fs (cwd P) (Path.Dir (outputFile v file))) in Hg.
  destruct (MkdirAll fs (cwd P) _) as [fs1 [e|]]; simpl in Hg.
  { simpl. destruct (Hg q) as [?|?]; auto. }
  destruct (Create fs1 (cwd P) (outputFile v file)) as [[fs2 f]|] eqn:Hcr.
  2:{ simpl. destruct (Hg q) as [?|?]; auto. }
  apply Create_Some in Hcr as (Hn & Hd & ->).
  assert (f ≠ []) by (intros ->; by apply Hd).
  destruct (template_Execute t _) as [w e]. simpl. unfold Write.
  rewrite insert_insert_eq, node_at_insert by done.
  case_decide as Hq; [subst q|destruct (Hg q) as [?|?]; auto].
  right; right. split_and!; [by eapply namei_lexical|done| |by exists w].
  intros Hdir. destruct (Hg f) as [Hs|[Hs _]]; congruence.
Qed.

(** X7: what a call of [handleTemplate] that returns no error has done.
    The configuration names an output for the template, the directory of
    that output exists, the output is a file holding what the execution of
    the template wrote, and the one line printed says so. *)
Theorem handleTemplate_success P v fs file :
  h_err (handleTemplate P v fs file) = None →
  outputFile v file ≠ ""
  ∧ Stat (h_fs (handleTemplate P v fs file)) (cwd P)
      (Path.Dir (outputFile v file)) = Some Dir
  ∧ h_stdout (handleTemplate P v fs file)
    = ["Creating " +:+ outputFile v file +:+ " from template "
       +:+ tmplName file +:+ "." +:+ LF]
  ∧ ∃ t, ParseFiles P fs file = Some t
         ∧ ReadFile (h_fs (handleTemplate P v fs file)) (cwd P)
             (outputFile v file)
           = Some (template_Execute t
                     (Viper.GetStringMap v (tmplName file +:+ ".vars"))).1.
Proof.
  unfold handleTemplate. destruct (ParseFiles P fs file) as [t|]; [|done].
  fold (outputFile v file). case_decide as Hout; [done|].
  destruct (MkdirAll fs (cwd P) _) as [fs1 [e|]] eqn:Hmk; [done|].
  destruct (Create fs1 (cwd P) (outputFile v file)) as [[fs2 f]|] eqn:Hcr; [|done].
  pose proof (ReadFile_Create_Write _ _ _ _ _
                (template_Execute t
                   (Viper.GetStringMap v (tmplName file +:+ ".vars"))).1 Hcr) as Hread.
  apply MkdirAll_Stat in Hmk.
  apply Create_Some in Hcr as (Hn & Hd & ->).
  destruct (template_Execute t _) as [w e] eqn:Hex. simpl in *. intros _.
  split_and!; [done| |done|exists t; by rewrite Hex].
  unfold Write. rewrite insert_insert_eq.
  unfold Stat in *. rewrite namei_insert_file by done.
  destruct (namei fs1 (cwd P) (Path.Dir (outputFile v file))) as [l|]; [|done].
  simpl in *. assert (f ≠ []) by (intros ->; by apply Hd).
  rewrite node_at_insert by done. case_decide; [congruence|done].
Qed.



(** The three ways [handleTemplate] goes once the template is parsed and
    has an output without [..]. *)
Lemma handleTemplate_cases P v fs file t :
  well_formed fs → is_dir fs (cwd P) = true →
  ParseFiles P fs file = Some t →
  outputFile v file ≠ "" →
  ".." ∉ Strings.SplitSlash (outputFile v file) →
  handleTemplate P v fs file
  = match mkdirs fs (output_base P v file)
            (names (removelast (Strings.SplitSlash (outputFile v file)))) with
    | None =>
        {| h_fs := fs; h_stdout := [];
           h_err := Some ("[1] Could not create " +:+ outputFile v file
                          +:+ " for template " +:+ tmplName file) |}
    | Some fs' =>
        match node_at fs' (destination P v file) with
        | Some Dir =>
            {| h_fs := fs'; h_stdout := [];
               h_err := Some ("[2] Could not create " +:+ outputFile v file
                              +:+ " for template " +:+ tmplName file) |}
        | _ =>
            {| h_fs := <[destination P v file :=
                           File (template_Execute t
                                   (Viper.GetStringMap v
                                      (tmplName file +:+ ".vars"))).1]> fs';
               h_stdout := ["Creating " +:+ outputFile v file
                            +:+ " from template " +:+ tmplName file
                            +:+ "." +:+ LF];
               h_err := None |}
        end
    end.
Proof.
  intros Hwf Hc Ht Hout Hdd. unfold handleTemplate. rewrite Ht.
  fold (outputFile v file). rewrite decide_False by done.
  pose proof (MkdirAll_Dir fs (cwd P) (outputFile v file) Hwf Hc Hdd) as Hmk.
  unfold destination, lexical. rewrite lex_walk_plain by done.
  unfold output_base.
  set (base := if Path.IsRooted (outputFile v file) then [] else cwd P) in *.
  destruct (mkdirs fs base _) as [fs'|] eqn:Hm; simpl in Hmk.
  - rewrite Hmk.
    assert (is_dir fs base = true) as Hb by (subst base; by destruct (Path.IsRooted _)).
    destruct (mkdirs_made _ _ _ _ Hm Hwf Hb) as (Hwf' & Hp & Hg).
    assert (namei fs' (cwd P) (outputFile v file)
            = Some (base ++ names (Strings.SplitSlash (outputFile v file)))) as Hn.
    { unfold namei. rewrite decide_False by done.
      apply walk_plain; [done|apply SplitSlash_nonempty|done]. }
    unfold Create. rewrite Hn. simpl.
    destruct (template_Execute t _) as [w e].
    destruct (node_at fs' _) as [[c|]|] eqn:Hd; simpl; unfold Write;
      by rewrite ?insert_insert_eq.
  - destruct Hmk as [e ->]. done.
Qed.


(** X9: a job done twice is done once. If the template is not its own
    destination, a second call of [handleTemplate] on what the first left
    returns what the first returned, and leaves the file system as the
    first left it. *)
Theorem handleTemplate_again P v fs file :
  well_formed fs → is_dir fs (cwd P) = true →
  ".." ∉ Strings.SplitSlash (outputFile v file) →
  lexical (cwd P) file ≠ destination P v file →
  handleTemplate P v (h_fs (handleTemplate P v fs file)) file
  = handleTemplate P v fs file.
Proof.
  intros Hwf Hc Hdd Hself.
  destruct (ParseFiles P fs file) as [t|] eqn:Ht; last first.
  { assert (h_fs (handleTemplate P v fs file) = fs) as ->; [|done].
    unfold handleTemplate. by rewrite Ht. }
  destruct (decide (outputFile v file = "")) as [Hout|Hout].
  { assert (h_fs (handleTemplate P v fs file) = fs) as ->; [|done].
    unfold handleTemplate. rewrite Ht. fold (outputFile v file).
    by rewrite decide_True. }
  pose proof (handleTemplate_settle P v fs file t Hwf Hc Ht Hout Hdd) as Hfs.
  fold (output_base P v file) in Hfs.
  assert (is_dir fs (output_base P v file) = true) as Hb
    by (unfold output_base; by destruct (Path.IsRooted _)).
  set (w := (template_Execute t _).1) in Hfs.
  pose proof (settle_changes fs _ (Strings.SplitSlash (outputFile v file)) w Hwf Hb)
    as Hch.
  pose proof (settle_well_formed fs _ (Strings.SplitSlash (outputFile v file)) w
                Hwf Hb) as Hwf2.
  pose proof (settle_settled fs _ (Strings.SplitSlash (outputFile v file)) w Hwf Hb)
    as Hset.
  rewrite <-Hfs in Hch, Hwf2, Hset.
  assert (destination P v file
          = output_base P v file ++ names (Strings.SplitSlash (outputFile v file)))
    as Hdest by (unfold destination, lexical; by rewrite lex_walk_plain).
  assert (ParseFiles P (h_fs (handleTemplate P v fs file)) file = Some t) as Ht2.
  { unfold ParseFiles in *.
    destruct (ReadFile fs (cwd P) file) as [text|] eqn:Hr; [|done].
    erewrite ReadFile_changed_by; [exact Ht|exact Hch| |exact Hr].
    by rewrite <-Hdest. }
  assert (is_dir (h_fs (handleTemplate P v fs file)) (cwd P) = true) as Hc2
    by (by eapply changed_by_is_dir).
  rewrite (handleTemplate_cases P v (h_fs _) file t) by done.
  rewrite (handleTemplate_cases P v fs file t) by done.
  rewrite (handleTemplate_cases P v fs file t) in Hset by done.
  fold w. fold w in Hset.
  set (D := names (removelast (Strings.SplitSlash (outputFile v file)))) in *.
  destruct (mkdirs fs (output_base P v file) D) as [fs'|] eqn:Hm.
  2:{ simpl. by rewrite Hm. }
  destruct (mkdirs_made _ _ _ _ Hm Hwf Hb) as (Hwf' & Hp & Hg).
  destruct (node_at fs' (destination P v file)) as [[c|]|] eqn:Hd; simpl in *.
  - assert (node_at fs' (destination P v file) ≠ Some Dir) as Hnd by congruence.
    assert (destination P v file ≠ []) as Hne by (intros E; rewrite E in Hnd; done).
    rewrite mkdirs_there.
    2:{ intros k Hk. rewrite is_dir_insert_file by done. by apply Hp. }
    rewrite node_at_insert, decide_True by done.
    by rewrite insert_insert_eq.
  - rewrite mkdirs_there by done. by rewrite Hd.
  - assert (node_at fs' (destination P v file) ≠ Some Dir) as Hnd by congruence.
    assert (destination P v file ≠ []) as Hne by (intros E; rewrite E in Hnd; done).
    rewrite mkdirs_there.
    2:{ intros k Hk. rewrite is_dir_insert_file by done. by apply Hp. }
    rewrite node_at_insert, decide_True by done.
    by rewrite insert_insert_eq.
Qed.

End job_facts.

Section job_examples.

Import Example.
#[local] Existing Instance Toy.libs.

Lemma ricer_fs_well_formed : well_formed ricer_fs.
Proof. compute_done. Qed.



Lemma plain_output_plain : ".." ∉ Strings.SplitSlash (outputFile ricer_v plain_tmpl).
Proof. compute_done. Qed.

Lemma handleTemplate_success_witness :
  h_err (handleTemplate u ricer_v ricer_fs plain_tmpl) = None ∧
  outputFile ricer_v plain_tmpl ≠ ""
  ∧ Os.Stat (h_fs (handleTemplate u ricer_v ricer_fs plain_tmpl)) (cwd u)
      (Path.Dir (outputFile ricer_v plain_tmpl)) = Some Os.Dir
  ∧ h_stdout (handleTemplate u ricer_v ricer_fs plain_tmpl)
    = ["Creating " +:+ outputFile ricer_v plain_tmpl +:+ " from template "
       +:+ tmplName plain_tmpl +:+ "." +:+ LF]
  ∧ ∃ t, ParseFiles u ricer_fs plain_tmpl = Some t
         ∧ Os.ReadFile (h_fs (handleTemplate u ricer_v ricer_fs plain_tmpl)) (cwd u)
             (outputFile ricer_v plain_tmpl)
           = Some (template_Execute t
                     (Viper.GetStringMap ricer_v (tmplName plain_tmpl +:+ ".vars"))).1.
Proof.
  assert (h_err (handleTemplate u ricer_v ricer_fs plain_tmpl) = None) as He
    by (vm_compute; reflexivity).
  split; [exact He|].
  exact (handleTemplate_success u ricer_v ricer_fs plain_tmpl He).
Defined.


Lemma plain_not_its_destination :
  lexical (cwd u) plain_tmpl ≠ destination u ricer_v plain_tmpl.
Proof. compute_done. Qed.

Lemma handleTemplate_again_witness :
  (well_formed ricer_fs ∧ Os.is_dir ricer_fs (cwd u) = true ∧
   (".." ∉ Strings.SplitSlash (outputFile ricer_v plain_tmpl)) ∧
   lexical (cwd u) plain_tmpl ≠ destination u ricer_v plain_tmpl) ∧
  handleTemplate u ricer_v
    (h_fs (handleTemplate u ricer_v ricer_fs plain_tmpl)) plain_tmpl
  = handleTemplate u ricer_v ricer_fs plain_tmpl.
Proof.
  split.
  - exact (conj ricer_fs_well_formed
             (conj eq_refl (conj plain_output_plain plain_not_its_destination))).
  - exact (handleTemplate_again u ricer_v ricer_fs plain_tmpl
             ricer_fs_well_formed eq_refl plain_output_plain
             plain_not_its_destination).
Defined.

End job_examples.

(** ** The whole run *)
Section run_facts.

Context `{Libs}.
Import Os.
Implicit Types (P : Process) (v : Viper.t) (s : State) (files : list string).

Lemma goroutine_enabled P v files s i g :
  counted files s → gs s !! i = Some g → g ≠ GExit →
  is_Some (goroutine_step P v i s).
Proof.
  intros [Ht Hc Hw Hf He] Hi Hg. unfold goroutine_step. rewrite Hi.
  destruct g as [file| | |]; [done| | |done].
  - destruct (throttle s) eqn:E; [|done].
    pose proof (count_insert holding (gs s) i _ GExit Hi). simpl in *. lia.
  - destruct (wg s) eqn:E; [|done].
    pose proof (count_insert unfinished (gs s) i _ GExit Hi). simpl in *. lia.
Qed.

(** X10: a goroutine that was started is never blocked. In every state the
    loop can reach and for every goroutine that has not finished, the next
    statement of that goroutine can run: its receive from the channel finds
    a value there, and its [wg.Done()] finds the counter positive. *)
Theorem goroutines_never_block P v files fs0 s i g :
  reachable P v files fs0 s → gs s !! i = Some g → g ≠ GExit →
  is_Some (goroutine_step P v i s).
Proof. intros Hr%reachable_counted. by apply (goroutine_enabled P v files). Qed.

(** X11: the loop cannot deadlock, and [main] can always return: every
    state the loop can reach in which [main] has not returned has a next
    step, and from every such state there is a way on to the return of
    [main]. *)
Theorem main_can_always_return P v files fs0 s :
  reachable P v files fs0 s →
  (pc s ≠ MExit → ∃ s', step P v s s')
  ∧ ∃ s', rtc (step P v) s s' ∧ pc s' = MExit.
Proof.
  intros Hr. split; [by eapply reachable_progress|by eapply reachable_exits].
Qed.

Lemma step_left_exact P v s s' : step P v s s' → left s = S (left s').
Proof.
  unfold left. intros [Hm|[i Hg]].
  - unfold main_step in Hm.
    destruct (pc s) as [[|file rest]|file rest|file rest| |] eqn:Hpc;
      repeat case_decide; simplify_eq/=;
      rewrite ?sum_list_with_app; simpl; lia.
  - unfold goroutine_step in Hg.
    destruct (gs s !! i) as [[file| | |]|] eqn:Hi; [| | |done..].
    + simplify_eq/=. pose proof (sum_left_insert _ _ _ GRecv Hi). simpl in *. lia.
    + destruct (throttle s); [done|]. simplify_eq/=.
      pose proof (sum_left_insert _ _ _ GDefer Hi). simpl in *. lia.
    + destruct (wg s); [done|]. simplify_eq/=.
      pose proof (sum_left_insert _ _ _ GExit Hi). simpl in *. lia.
Qed.

Lemma nsteps_left P v n s s' : nsteps (step P v) n s s' → left s = n + left s'.
Proof.
  induction 1 as [|n s1 s2 s3 Hs _ IH]; [done|].
  apply step_left_exact in Hs. lia.
Qed.

Lemma exit_left files s : counted files s → pc s = MExit → left s = 0.
Proof.
  intros [Ht Hc Hw Hf He] Hpc. unfold left. rewrite Hpc. simpl.
  specialize (He Hpc). rewrite He in Hw.
  assert (Forall (λ g, g = GExit) (gs s)) as Hall by (apply all_finished; lia).
  clear -Hall. induction Hall as [|g l -> _ IH]; [done|]. simpl. apply IH.
Qed.

(** X12: every run of the loop takes the same number of steps. Whatever
    the schedule, a run from the start of the loop is at most [6 n + 2]
    steps long, [n] being the number of template files, and [main] has
    returned exactly when that many steps were taken: no run goes on for
    ever, and none ends early. *)
Theorem dispatch_takes_all_steps P v files fs0 n s :
  nsteps (step P v) n (init files fs0) s →
  n ≤ 6 * length files + 2
  ∧ (pc s = MExit ↔ n = 6 * length files + 2).
Proof.
  intros Hn. pose proof (nsteps_left _ _ _ _ _ Hn) as Hl.
  assert (reachable P v files fs0 s) as Hr by (by eapply rtc_nsteps_2).
  apply reachable_counted in Hr.
  change (left (init files fs0)) with (6 * length files + 2 + 0) in Hl.
  split; [lia|]. split.
  - intros Hpc. rewrite (exit_left files s) in Hl by done. lia.
  - intros ->. assert (left s = 0) as H0 by lia. unfold left in H0.
    destruct (pc s); simpl in H0; try lia. done.
Qed.

Lemma exec_nsteps P v schedule s s' :
  exec P v schedule s = Some s' → nsteps (step P v) (length schedule) s s'.
Proof.
  revert s. induction schedule as [|who schedule IH]; intros s; simpl.
  - intros [= ->]. constructor.
  - destruct who as [i|].
    + destruct (goroutine_step P v i s) as [s1|] eqn:E; [|done]. simpl. intros Hs.
      eapply nsteps_l; [right; by exists i|by apply IH].
    + destruct (main_step s) as [s1|] eqn:E; [|done]. simpl. intros Hs.
      eapply nsteps_l; [by left|by apply IH].
Qed.

Lemma handleTemplate_one_line P v fs0 file :
  length (h_stdout (handleTemplate P v fs0 file)
          ++ report (h_err (handleTemplate P v fs0 file))) = 1.
Proof.
  unfold handleTemplate. destruct (ParseFiles P fs0 file) as [t|]; [|done].
  case_decide; [done|].
  destruct (MkdirAll fs0 (cwd P) _) as [fs1 [e|]]; [done|].
  destruct (Create fs1 (cwd P) _) as [[fs2 f]|]; [|done].
  by destruct (template_Execute t _).
Qed.

Lemma reachable_printed P v files fs0 s :
  reachable P v files fs0 s →
  length (stdout s) + executing s = length (gs s).
Proof.
  unfold reachable. revert s. apply rtc_ind_r; [done|].
  intros s s' _ [Hm|[i Hg]] IH; unfold executing in *.
  - unfold main_step in Hm.
    destruct (pc s) as [[|file rest]|file rest|file rest| |] eqn:Hpc;
      repeat case_decide; simplify_eq/=; try done.
    rewrite filter_app, !length_app. simpl. lia.
  - unfold goroutine_step in Hg.
    destruct (gs s !! i) as [[file| | |]|] eqn:Hi; [| | |done..].
    + simplify_eq/=. rewrite length_app, handleTemplate_one_line, length_insert.
      pose proof (count_insert is_running (gs s) i _ GRecv Hi). simpl in *. lia.
    + destruct (throttle s); [done|]. simplify_eq/=. rewrite length_insert.
      pose proof (count_insert is_running (gs s) i _ GDefer Hi). simpl in *. lia.
    + destruct (wg s); [done|]. simplify_eq/=. rewrite length_insert.
      pose proof (count_insert is_running (gs s) i _ GExit Hi). simpl in *. lia.
Qed.

(** X13: one line for each template. When [main] returns after the loop,
    it has printed exactly as many lines as there were template files: for
    each of them either that its output was created or the error. *)
Theorem one_line_per_template P fs0 v files fs1 printed :
  main_start P fs0 = Dispatch v files →
  main P fs0 (Exited fs1 printed) →
  length printed = length files.
Proof.
  intros Hs Hm. unfold main in Hm. rewrite Hs in Hm.
  destruct Hm as (s & Hr & Hpc & [= -> ->]).
  pose proof (reachable_printed _ _ _ _ _ Hr) as Hp.
  pose proof (reachable_counted _ _ _ _ _ Hr) as Hc.
  destruct Hc as [Ht Hcap Hw Hf He]. specialize (He Hpc).
  rewrite Hpc in Hf. simpl in Hf.
  assert (Forall (λ g, g = GExit) (gs s)) as Hall by (apply all_finished; lia).
  assert (executing s = 0) as H0.
  { unfold executing. clear -Hall.
    induction Hall as [|g l -> _ IH]; [done|]. by rewrite filter_cons. }
  lia.
Qed.

Lemma reachable_tracks P v files fs0 s :
  reachable P v files fs0 s → tracks files s.
Proof.
  unfold reachable. revert s. apply rtc_ind_r; [apply tracks_init|].
  intros s s' _ Hs Ht. by eapply tracks_step.
Qed.

Lemma reachable_touched P v files fs0 s q :
  reachable P v files fs0 s →
  node_at (fs s) q = node_at fs0 q
  ∨ (node_at fs0 q = None ∧ node_at (fs s) q = Some Dir)
  ∨ (q ∈ destinations P v files ∧ node_at fs0 q ≠ Some Dir
     ∧ ∃ w, node_at (fs s) q = Some (File w)).
Proof.
  intros Hr. pose proof Hr as Hr'. revert s Hr' Hr. unfold reachable at 1.
  apply (rtc_ind_r (λ s, reachable P v files fs0 s → _)); [by left|].
  intros s s' Hrs Hstep IH Hr'. specialize (IH Hrs).
  destruct Hstep as [Hm|[i Hg]].
  - unfold main_step in Hm.
    destruct (pc s) as [[|file rest]|file rest|file rest| |] eqn:Hpc;
      repeat case_decide; by simplify_eq/=.
  - unfold goroutine_step in Hg.
    destruct (gs s !! i) as [[file| | |]|] eqn:Hi; [| | |done..].
    2:{ destruct (throttle s); [done|]. by simplify_eq/=. }
    2:{ destruct (wg s); [done|]. by simplify_eq/=. }
    simplify_eq/=.
    assert (file ∈ files) as Hin.
    { apply reachable_tracks in Hrs as [Hrun _].
      eapply list_elem_of_lookup_2. by eapply Hrun. }
    destruct (handleTemplate_frame P v (fs s) file q)
      as [->|[[Hq1 Hq2]|(-> & Hout & Hnd & w & Hw)]]; [done| |].
    + destruct IH as [IH|[[? ?]|(_ & _ & w & ?)]]; [|congruence..].
      right; left. split; congruence.
    + right; right.
      assert (destination P v file ∈ destinations P v files) as Hd.
      { by apply destination_in. }
      split_and!; [done| |by exists w].
      destruct IH as [IH|[[? ?]|(_ & ? & _)]]; congruence.
Qed.

(** X14: a run touches nothing but its destinations. When [main] returns
    after the loop, every location of the file system is as it was before,
    or is a directory that was not there, or is the destination of one of
    the templates that have an output and is a file now, not having been a
    directory. So nothing is removed, and no file other than an output is
    changed. *)
Theorem main_touches_only_destinations P fs0 v files fs1 printed q :
  main_start P fs0 = Dispatch v files →
  main P fs0 (Exited fs1 printed) →
  node_at fs1 q = node_at fs0 q
  ∨ (node_at fs0 q = None ∧ node_at fs1 q = Some Dir)
  ∨ (q ∈ destinations P v files ∧ node_at fs0 q ≠ Some Dir
     ∧ ∃ w, node_at fs1 q = Some (File w)).
Proof.
  intros Hs Hm. unfold main in Hm. rewrite Hs in Hm.
  destruct Hm as (s & Hr & _ & [= -> _]). by apply reachable_touched.
Qed.

(** X15: [main] always ends, and its status tells whether the
    configuration loaded. On every file system the process has an outcome,
    and whatever the outcome is, the status is 0 exactly when
    [parseConfiguration] returned no error: no failure of a template, and
    no missing templates directory, shows in the status. *)
Theorem main_ends P fs0 :
  (∃ o, main P fs0 o)
  ∧ ∀ o, main P fs0 o →
         (exit_status o = 0 ↔ (parseConfiguration P fs0 Viper.new).2 = None).
Proof.
  unfold main, main_start.
  destruct (parseConfiguration P fs0 Viper.new) as [v [e|]]; simpl.
  { split; [by eexists|]. by intros o ->. }
  destruct (templatesDirectory P) as [dir [e|]].
  { split; [by eexists|]. by intros o ->. }
  destruct (Filepath.Glob _ _ _) as [files ge]. split.
  - destruct (reachable_exits P v files fs0 (init files fs0)) as (s & Hr & Hpc);
      [apply rtc_refl|].
    by exists (Exited (fs s) (stdout s)), s.
  - by intros o (s & _ & _ & ->).
Qed.

End run_facts.

Section run_examples.

Import Example.
#[local] Existing Instance Toy.libs.

Lemma ricer_start : main_start u ricer_fs = Dispatch ricer_v ricer_files.
Proof. vm_compute. reflexivity. Qed.

Lemma ricer_first_exec :
  exec u ricer_v (one_by_one 4) (init ricer_files ricer_fs) = Some ricer_first_run.
Proof. vm_compute. reflexivity. Qed.

Lemma ricer_first_main :
  main u ricer_fs (Exited (fs ricer_first_run) (stdout ricer_first_run)).
Proof.
  apply (main_exec _ _ _ _ (one_by_one 4) _ ricer_start ricer_first_exec).
  vm_compute. reflexivity.
Qed.

Lemma goroutines_never_block_witness :
  (reachable u ricer_v five ricer_fs busy ∧
   gs busy !! 0 = Some (GRun "/t/1.tmpl") ∧ GRun "/t/1.tmpl" ≠ GExit) ∧
  is_Some (goroutine_step u ricer_v 0 busy).
Proof.
  assert (gs busy !! 0 = Some (GRun "/t/1.tmpl")) as H0 by (vm_compute; reflexivity).
  assert (GRun "/t/1.tmpl" ≠ GExit) as H1 by discriminate.
  split; [exact (conj busy_reachable (conj H0 H1))|].
  exact (goroutines_never_block u ricer_v five ricer_fs busy 0 _
           busy_reachable H0 H1).
Defined.

Lemma main_can_always_return_witness :
  reachable u ricer_v five ricer_fs busy ∧
  (pc busy ≠ MExit → ∃ s', step u ricer_v busy s')
  ∧ ∃ s', rtc (step u ricer_v) busy s' ∧ pc s' = MExit.
Proof.
  split; [exact busy_reachable|].
  exact (main_can_always_return u ricer_v five ricer_fs busy busy_reachable).
Defined.

Lemma dispatch_takes_all_steps_witness :
  nsteps (step u ricer_v) 26 (init ricer_files ricer_fs) ricer_first_run ∧
  26 ≤ 6 * length ricer_files + 2
  ∧ (pc ricer_first_run = MExit ↔ 26 = 6 * length ricer_files + 2).
Proof.
  assert (nsteps (step u ricer_v) 26 (init ricer_files ricer_fs) ricer_first_run)
    as Hn by exact (exec_nsteps u ricer_v (one_by_one 4) _ _ ricer_first_exec).
  split; [exact Hn|].
  exact (dispatch_takes_all_steps u ricer_v ricer_files ricer_fs 26 _ Hn).
Defined.

Lemma one_line_per_template_witness :
  (main_start u ricer_fs = Dispatch ricer_v ricer_files ∧
   main u ricer_fs (Exited (fs ricer_first_run) (stdout ricer_first_run))) ∧
  length (stdout ricer_first_run) = length ricer_files.
Proof.
  split; [exact (conj ricer_start ricer_first_main)|].
  exact (one_line_per_template u ricer_fs ricer_v ricer_files _ _
           ricer_start ricer_first_main).
Defined.

Lemma main_touches_only_destinations_witness :
  (main_start u ricer_fs = Dispatch ricer_v ricer_files ∧
   main u ricer_fs (Exited (fs ricer_first_run) (stdout ricer_first_run))) ∧
  (Os.node_at (fs ricer_first_run) ["tmp"; "out"; "plain"]
   = Os.node_at ricer_fs ["tmp"; "out"; "plain"]
   ∨ (Os.node_at ricer_fs ["tmp"; "out"; "plain"] = None
      ∧ Os.node_at (fs ricer_first_run) ["tmp"; "out"; "plain"] = Some Os.Dir)
   ∨ (["tmp"; "out"; "plain"] ∈ destinations u ricer_v ricer_files
      ∧ Os.node_at ricer_fs ["tmp"; "out"; "plain"] ≠ Some Os.Dir
      ∧ ∃ w, Os.node_at (fs ricer_first_run) ["tmp"; "out"; "plain"]
             = Some (Os.File w))).
Proof.
  split; [exact (conj ricer_start ricer_first_main)|].
  exact (main_touches_only_destinations u ricer_fs ricer_v ricer_files _ _
           ["tmp"; "out"; "plain"] ricer_start ricer_first_main).
Defined.

End run_examples.

(** ** The name of a template *)
Section name_facts.

Context `{Libs}.

Lemma append_cons c s t : String c s +:+ t = String c (s +:+ t).
Proof. done. Qed.

Lemma append_nil_r s : s +:+ "" = s.
Proof. induction s as [|c s IH]; [done|]. by rewrite append_cons, IH. Qed.

Lemma append_assoc s1 s2 s3 : (s1 +:+ s2) +:+ s3 = s1 +:+ (s2 +:+ s3).
Proof. induction s1 as [|c s1 IH]; [done|]. by rewrite !append_cons, IH. Qed.

Lemma length_append s1 s2 :
  String.length (s1 +:+ s2) = String.length s1 + String.length s2.
Proof.
  induction s1 as [|c s1 IH]; [done|].
  rewrite append_cons. cbn [String.length]. by rewrite IH.
Qed.

Lemma take_append s1 s2 : Strings.take (String.length s1) (s1 +:+ s2) = s1.
Proof.
  induction s1 as [|c s1 IH]; [by destruct s2|].
  rewrite append_cons. cbn [String.length Strings.take]. by rewrite IH.
Qed.

Lemma rev_app_append s1 s2 acc :
  String.rev_app (s1 +:+ s2) acc = String.rev_app s2 (String.rev_app s1 acc).
Proof.
  revert acc. induction s1 as [|c s1 IH]; intros acc; [done|].
  rewrite append_cons. apply IH.
Qed.

Lemma rev_app_rev s acc : String.rev_app s acc = String.rev s +:+ acc.
Proof.
  unfold String.rev. revert acc. induction s as [|c s IH]; intros acc; [done|].
  cbn [String.rev_app]. rewrite IH, (IH (String c "")).
  by rewrite append_assoc.
Qed.

Lemma rev_app_rev_app s a b :
  String.rev_app (String.rev_app s a) b = String.rev_app a (s +:+ b).
Proof.
  revert a b. induction s as [|c s IH]; intros a b; [done|].
  rewrite append_cons. cbn [String.rev_app]. by rewrite IH.
Qed.

Lemma string_rev_involutive s : String.rev (String.rev s) = s.
Proof. unfold String.rev. rewrite rev_app_rev_app. apply append_nil_r. Qed.

Lemma ContainsByte_rev_app s acc b :
  Strings.ContainsByte (String.rev_app s acc) b
  = Strings.ContainsByte s b || Strings.ContainsByte acc b.
Proof.
  revert acc. induction s as [|c s IH]; intros acc; [done|].
  cbn [String.rev_app]. rewrite IH. cbn [Strings.ContainsByte].
  destruct (c =? b)%char, (Strings.ContainsByte s b); done.
Qed.

Lemma last_element_no_slash y rest acc :
  no_slash y →
  Filepath.last_element (y +:+ String "/" rest) acc = String.rev_app y acc.
Proof.
  unfold no_slash. revert acc. induction y as [|c y IH]; intros acc; [done|].
  cbn [Strings.ContainsByte]. intros [Hc Hy]%orb_false_iff.
  rewrite append_cons. cbn [Filepath.last_element String.rev_app].
  unfold IsPathSeparator. rewrite Hc. by apply IH.
Qed.

(** [Base] of a path that ends in a name after a slash is that name. *)
Lemma Base_name dir a :
  a ≠ "" → no_slash a → Filepath.Base (dir +:+ "/" +:+ a) = a.
Proof.
  intros Ha Hs. unfold Filepath.Base.
  rewrite decide_False by (by destruct dir).
  unfold String.rev. rewrite !rev_app_append.
  change (String.rev_app "/" ?x) with (String "/" x).
  rewrite (rev_app_rev a).
  assert (no_slash (String.rev a)) as Hr.
  { unfold no_slash, String.rev. rewrite ContainsByte_rev_app.
    unfold no_slash in Hs. by rewrite Hs. }
  assert (String.rev a ≠ "") as Hne.
  { intros E. apply Ha. by rewrite <-(string_rev_involutive a), E. }
  assert (Filepath.trim_separators
            (String.rev a +:+ String "/" (String.rev_app dir ""))
          = String.rev a +:+ String "/" (String.rev_app dir "")) as ->.
  { destruct (String.rev a) as [|c y]; [done|].
    unfold no_slash in Hr. cbn [Strings.ContainsByte] in Hr.
    apply orb_false_iff in Hr as [Hc _].
    rewrite append_cons. cbn [Filepath.trim_separators].
    unfold IsPathSeparator. by rewrite Hc. }
  rewrite last_element_no_slash by done.
  fold (String.rev (String.rev a)). rewrite string_rev_involutive.
  by rewrite decide_False.
Qed.

(** Cutting the extension off a name that ends in [.tmpl] leaves what is
    before it. *)
Lemma TrimSuffix_Ext_tmpl x :
  Strings.TrimSuffix (x +:+ ".tmpl") (Filepath.Ext (x +:+ ".tmpl")) = x.
Proof.
  assert (String.rev (x +:+ ".tmpl") = "lpmt." +:+ String.rev x) as Hrev.
  { unfold String.rev at 1. by rewrite (rev_app_append _ ".tmpl"). }
  assert (Filepath.Ext (x +:+ ".tmpl") = ".tmpl") as ->.
  { unfold Filepath.Ext. by rewrite Hrev. }
  unfold Strings.TrimSuffix, Strings.HasSuffix. rewrite Hrev.
  assert (∀ r, Strings.HasPrefix ("lpmt." +:+ r) (String.rev ".tmpl") = true)
    as -> by (intros r; by destruct r).
  rewrite length_append.
  replace (_ + _ - _) with (String.length x)
    by (change (String.length ".tmpl") with 5; lia).
  apply take_append.
Qed.

(** X16: the name of a template found in a directory. For a file
    [dir/a.tmpl] whose stem [a] is not empty and has no slash, the name
    under which the configuration is consulted is [a], whatever [dir] is;
    dots in [a] stay. *)
Theorem tmplName_of_template dir a :
  a ≠ "" → no_slash a →
  tmplName (dir +:+ "/" +:+ a +:+ ".tmpl") = a.
Proof.
  intros Ha Hs. unfold tmplName.
  replace (dir +:+ "/" +:+ a +:+ ".tmpl") with ((dir +:+ "/" +:+ a) +:+ ".tmpl")
    by (by rewrite !append_assoc).
  rewrite TrimSuffix_Ext_tmpl. by apply Base_name.
Qed.

End name_facts.

Section name_examples.

Import Example.
#[local] Existing Instance Toy.libs.

Lemma tmplName_of_template_witness :
  ("my.shell" ≠ "" ∧ no_slash "my.shell") ∧
  tmplName ("/home/u/.config/ricer/templates" +:+ "/" +:+ "my.shell" +:+ ".tmpl")
  = "my.shell".
Proof.
  assert ("my.shell" ≠ "") as Ha by discriminate.
  assert (no_slash "my.shell") as Hs by reflexivity.
  split; [exact (conj Ha Hs)|].
  exact (tmplName_of_template "/home/u/.config/ricer/templates" "my.shell" Ha Hs).
Defined.

End name_examples.

(** ** The files [main] finds *)
Section find_facts.

Context `{Libs}.
Implicit Types (fs : Os.filesystem) (cwd l : Os.location).

Lemma HasPrefix_spec s p : Strings.HasPrefix s p = true ↔ ∃ b, s = p +:+ b.
Proof.
  revert s. induction p as [|c p IH]; intros s.
  { split; [by exists s|]. by destruct s. }
  destruct s as [|d s]; cbn [Strings.HasPrefix].
  { split; [done|]. by intros [b ?]. }
  rewrite andb_true_iff, IH, Ascii.eqb_eq. split.
  - intros [-> [b ->]]. by exists b.
  - intros [b Hb]. rewrite append_cons in Hb. injection Hb as -> ->. eauto.
Qed.

Lemma rev_append s1 s2 : String.rev (s1 +:+ s2) = String.rev s2 +:+ String.rev s1.
Proof. unfold String.rev at 1. by rewrite rev_app_append, rev_app_rev. Qed.

Lemma HasSuffix_spec s x : Strings.HasSuffix s x = true ↔ ∃ a, s = a +:+ x.
Proof.
  unfold Strings.HasSuffix. rewrite HasPrefix_spec. split.
  - intros [b Hb]. exists (String.rev b).
    by rewrite <-(string_rev_involutive s), Hb, rev_append, string_rev_involutive.
  - intros [a ->]. exists (String.rev a). apply rev_append.
Qed.

Lemma is_template_name_spec n :
  is_template_name n = true ↔ (∃ a, n = a +:+ ".tmpl") ∧ no_slash n.
Proof.
  unfold is_template_name, no_slash.
  by rewrite andb_true_iff, HasSuffix_spec, negb_true_iff.
Qed.

Lemma is_template_name_cons c n :
  is_template_name (String c n)
  = bool_decide (String c n = ".tmpl")
    || (negb (IsPathSeparator c) && is_template_name n).
Proof.
  apply eq_true_iff_eq.
  rewrite orb_true_iff, andb_true_iff, negb_true_iff, bool_decide_eq_true.
  rewrite !is_template_name_spec. unfold no_slash, IsPathSeparator.
  cbn [Strings.ContainsByte]. rewrite orb_false_iff. split.
  - intros [[[|d a] Ha] [Hc Hn]].
    + left. by rewrite Ha.
    + right. rewrite append_cons in Ha. injection Ha as -> ->. eauto.
  - intros [[= -> ->]|(Hc & [a ->] & Hn)].
    + split; [by exists ""|done].
    + split; [by exists (String c a)|done].
Qed.

(** A chunk of plain characters matches the text that starts with it. *)
Lemma matchChunk_loop_plain_spec fuel chunk s failed :
  Strings.ContainsAny chunk "[?\" = false →
  String.length chunk < fuel →
  Filepath.matchChunk_loop fuel chunk s failed
  = Done (if failed || negb (Strings.HasPrefix s chunk) then None
          else Some (Strings.drop (String.length chunk) s)).
Proof.
  revert chunk s failed.
  induction fuel as [|fuel IH]; intros chunk s failed Hp Hl; [lia|].
  cbn [Filepath.matchChunk_loop]. unfold Filepath.matchChunk_iter.
  destruct chunk as [|c chunk].
  { assert (Strings.HasPrefix s "" = true) as -> by (by destruct s).
    rewrite orb_false_r. by destruct failed, s. }
  cbn [Strings.ContainsAny Strings.ContainsByte] in Hp.
  apply orb_false_iff in Hp as [Hc Hp].
  rewrite (Ascii.eqb_sym c "[") , (Ascii.eqb_sym c "?"), (Ascii.eqb_sym c "\").
  destruct ("[" =? c)%char; [done|]. destruct ("?" =? c)%char; [done|].
  destruct ("\" =? c)%char; [done|].
  cbn [String.length] in Hl. cbn [Strings.drop]. rewrite IH by (done || lia).
  f_equal. destruct s as [|d s]; cbn [Strings.HasPrefix Filepath.head_byte].
  - change (bool_decide ("" = "")) with true. cbn [negb].
    by rewrite !orb_true_r.
  - change (bool_decide (String d s = "")) with false. rewrite orb_false_r.
    rewrite (Ascii.eqb_sym d c).
    destruct failed; [done|]. cbn [orb String.length Strings.drop].
    by destruct (c =? d)%char.
Qed.

Lemma matchChunk_tmpl_spec s :
  Filepath.matchChunk ".tmpl" s
  = Done (if Strings.HasPrefix s ".tmpl" then Some (Strings.drop 5 s) else None).
Proof.
  unfold Filepath.matchChunk.
  rewrite matchChunk_loop_plain_spec by (reflexivity || (cbn; lia)).
  by destruct (Strings.HasPrefix s ".tmpl").
Qed.

Lemma HasPrefix_all s p :
  Strings.HasPrefix s p = true → Strings.drop (String.length p) s = "" → s = p.
Proof.
  intros [b ->]%HasPrefix_spec. clear. intros Hb.
  assert (Strings.drop (String.length p) (p +:+ b) = b) as Hd.
  { clear Hb. induction p as [|c p IH]; [by destruct b|].
    rewrite append_cons. cbn [String.length Strings.drop]. exact IH. }
  rewrite Hd in Hb. subst b. apply append_nil_r.
Qed.

Lemma star_search_tmpl_spec n :
  Filepath.star_search ".tmpl" true n
  = Done (match n with
          | "" => None
          | String c n' =>
              if negb (IsPathSeparator c) && is_template_name n'
              then Some "" else None
          end).
Proof.
  induction n as [|c n IH]; [done|]. cbn [Filepath.star_search].
  destruct (IsPathSeparator c); [done|]. cbn [negb andb].
  rewrite matchChunk_tmpl_spec.
  destruct (Strings.HasPrefix n ".tmpl") eqn:Hp.
  - destruct (decide (Strings.drop 5 n = "")) as [Hd|Hd].
    + rewrite Hd. cbn -[is_template_name].
      by rewrite (HasPrefix_all n ".tmpl" Hp Hd).
    + rewrite bool_decide_eq_false_2 by done. cbn [andb negb]. rewrite IH.
      destruct n as [|d n]; [done|]. rewrite (is_template_name_cons d n).
      assert (String d n ≠ ".tmpl") as Hne by (intros E; by rewrite E in Hd).
      by rewrite bool_decide_eq_false_2.
  - rewrite IH. destruct n as [|d n]; [done|].
    rewrite (is_template_name_cons d n).
    assert (String d n ≠ ".tmpl") as Hne by (intros E; by rewrite E in Hp).
    by rewrite bool_decide_eq_false_2.
Qed.

(** What [*.tmpl] matches. *)
Lemma Match_tmpl_spec n : Filepath.Match "*.tmpl" n = Done (is_template_name n).
Proof.
  unfold Filepath.Match.
  change (S (String.length "*.tmpl")) with 7.
  cbn [Filepath.Match_loop]. unfold Filepath.Match_iter at 1.
  rewrite decide_False by done.
  change (Filepath.scanChunk "*.tmpl") with (true, ".tmpl", "").
  cbv beta iota zeta.
  change (true && bool_decide (".tmpl" = "")) with false. cbv iota.
  change (Filepath.check_rest (S (String.length "")) "") with (Done (A:=unit) ()).
  change (bool_decide ("" = "")) with true.
  cbv beta iota zeta.
  assert (∀ t, Filepath.Match_iter
                 (Filepath.Match_iter
                    (Filepath.Match_iter
                       (Filepath.Match_iter
                          (Filepath.Match_iter
                             (Filepath.Match_iter (λ _ _, OutOfFuel)))))) "" t
               = Done (bool_decide (t = ""))) as Hend by done.
  rewrite star_search_tmpl_spec, matchChunk_tmpl_spec.
  assert (is_template_name n
          = match n with
            | "" => false
            | String c n' => negb (IsPathSeparator c) && is_template_name n'
            end
          ∨ n = ".tmpl") as Hn.
  { destruct n as [|c n]; [by left|]. rewrite is_template_name_cons.
    case_bool_decide; [by right|by left]. }
  destruct (Strings.HasPrefix n ".tmpl") eqn:Hp.
  - destruct (decide (Strings.drop 5 n = "")) as [Hd|Hd].
    + rewrite Hd. cbn -[is_template_name]. rewrite Hend.
      by rewrite (HasPrefix_all n ".tmpl" Hp Hd).
    + rewrite bool_decide_eq_false_2 by done. cbn [orb negb].
      destruct Hn as [-> | ->]; [|done].
      destruct n as [|c n]; [done|].
      destruct (negb _ && _); by rewrite ?Hend.
  - destruct Hn as [-> | ->]; [|done].
    destruct n as [|c n]; [done|].
    destruct (negb _ && _); by rewrite ?Hend.
Qed.

End find_facts.

Section glob_spec.

Context `{Libs}.
Implicit Types (fs : Os.filesystem) (cwd l : Os.location).

Lemma ContainsAny_app s1 s2 chars :
  Strings.ContainsAny (s1 +:+ s2) chars
  = Strings.ContainsAny s1 chars || Strings.ContainsAny s2 chars.
Proof.
  induction s1 as [|c s1 IH]; [done|].
  rewrite append_cons. cbn [Strings.ContainsAny]. rewrite IH.
  by destruct (Strings.ContainsByte chars c).
Qed.

Lemma plain_char c s :
  Filepath.hasMeta (String c s) = false →
  (c =? "*")%char = false ∧ (c =? "?")%char = false
  ∧ (c =? "[")%char = false ∧ (c =? "\")%char = false
  ∧ Filepath.hasMeta s = false.
Proof.
  unfold Filepath.hasMeta. cbn [Strings.ContainsAny Strings.ContainsByte].
  rewrite (Ascii.eqb_sym "*" c), (Ascii.eqb_sym "?" c),
    (Ascii.eqb_sym "[" c), (Ascii.eqb_sym "\" c).
  rewrite !orb_false_iff. tauto.
Qed.

(** Up to the star, a pattern without special characters is one chunk. *)
Lemma scan_plain pre rest :
  Filepath.hasMeta pre = false →
  Filepath.scan (pre +:+ String "*" rest) false = (pre, String "*" rest).
Proof.
  induction pre as [|c pre IH]; intros Hm; [done|].
  apply plain_char in Hm as (Hs & _ & Hb & He & Hm).
  rewrite append_cons. cbn [Filepath.scan]. rewrite He, Hb, Hs.
  cbn [andb]. destruct (c =? "]")%char; by rewrite IH.
Qed.

Lemma scanChunk_plain dir :
  Filepath.hasMeta dir = false →
  Filepath.scanChunk (dir +:+ "/*.tmpl") = (false, dir +:+ "/", "*.tmpl").
Proof.
  intros Hm. unfold Filepath.scanChunk.
  assert (Filepath.strip_stars (dir +:+ "/*.tmpl") = (false, dir +:+ "/*.tmpl")) as ->.
  { destruct dir as [|c dir]; [done|].
    apply plain_char in Hm as (Hs & _). rewrite append_cons.
    cbn [Filepath.strip_stars]. by rewrite Hs. }
  replace (dir +:+ "/*.tmpl") with ((dir +:+ "/") +:+ String "*" ".tmpl")
    by (by rewrite append_assoc).
  rewrite scan_plain; [done|].
  unfold Filepath.hasMeta in *. by rewrite ContainsAny_app, Hm.
Qed.

(** The pattern [main] hands to [Glob] is well formed when the templates
    directory has no special character in its name. *)
Lemma Match_pattern_plain dir :
  Filepath.hasMeta dir = false →
  Filepath.Match (dir +:+ "/*.tmpl") "" = Done false.
Proof.
  intros Hm. unfold Filepath.Match. cbn [Filepath.Match_loop].
  unfold Filepath.Match_iter at 1.
  rewrite decide_False by (by destruct dir).
  rewrite scanChunk_plain by done. cbv beta iota zeta. cbn [andb].
  unfold Filepath.matchChunk.
  rewrite matchChunk_loop_plain_spec; [| |lia].
  2:{ unfold Filepath.hasMeta in Hm.
      assert (Strings.ContainsAny dir "[?\" = false) as Hd.
      { clear -Hm. induction dir as [|c dir IH]; [done|].
        cbn [Strings.ContainsAny Strings.ContainsByte] in *.
        apply orb_false_iff in Hm as [Hc Hm]. rewrite (IH Hm), orb_false_r.
        rewrite !orb_false_iff in Hc. rewrite !orb_false_iff. tauto. }
      by rewrite ContainsAny_app, Hd. }
  assert (Strings.HasPrefix "" (dir +:+ "/") = false) as -> by (by destruct dir).
  cbn [orb negb].
  by change (Filepath.check_rest (S (String.length "*.tmpl")) "*.tmpl")
    with (Done (A:=unit) ()).
Qed.

Lemma cleanGlobPath_slash dir :
  dir ≠ "" → Filepath.cleanGlobPath (dir +:+ "/") = dir.
Proof.
  intros Hd. unfold Filepath.cleanGlobPath.
  rewrite decide_False by (by destruct dir).
  rewrite decide_False.
  2:{ intros E. apply (f_equal String.length) in E.
      rewrite length_append in E. destruct dir; [done|]. simpl in E. lia. }
  rewrite length_append. change (String.length "/") with 1.
  replace (String.length dir + 1 - 1) with (String.length dir) by lia.
  apply take_append.
Qed.

Lemma glob_names_spec dir names m :
  Filepath.glob_names dir "*.tmpl" names m
  = (m ++ map (λ n, Path.Join [dir; n]) (filter is_template_name names), None).
Proof.
  revert m. induction names as [|n names IH]; intros m.
  { simpl. by rewrite app_nil_r. }
  cbn [Filepath.glob_names]. unfold Filepath.Match_result.
  rewrite Match_tmpl_spec, filter_cons.
  destruct (is_template_name n) eqn:Hn.
  - rewrite decide_True by done. rewrite IH.
    by rewrite <-app_assoc.
  - rewrite decide_False by (by intros []). apply IH.
Qed.

(** What [Glob] returns for the templates directory [dir]: the entries of
    the directory that [*.tmpl] stands for, in the order of their names;
    nothing if [dir] is not a directory. *)
Lemma Glob_plain fs cwd dir :
  dir ≠ "" → Filepath.hasMeta dir = false →
  Filepath.Glob fs cwd (dir +:+ "/*.tmpl")
  = (match Os.namei fs cwd dir with
     | Some l =>
         if Os.is_dir fs l
         then map (λ n, Path.Join [dir; n])
                (filter is_template_name (Os.Readdirnames fs l))
         else []
     | None => []
     end, None).
Proof.
  intros Hd Hm. unfold Filepath.Glob.
  change Filepath.pathSeparatorsLimit with (S 9999).
  cbn [Filepath.globWithLimit]. unfold Filepath.Match_result.
  rewrite Match_pattern_plain by done.
  assert (Filepath.hasMeta (dir +:+ "/*.tmpl") = true) as ->.
  { unfold Filepath.hasMeta. rewrite ContainsAny_app. apply orb_true_r. }
  cbn [negb]. rewrite Split_tmpl, cleanGlobPath_slash by done.
  rewrite Hm. cbn [negb]. unfold Filepath.glob.
  destruct (Os.namei fs cwd dir) as [l|]; [|done].
  destruct (Os.is_dir fs l); [|done]. by rewrite glob_names_spec.
Qed.

Lemma child_of_spec l k e : Os.child_of l k = Some e ↔ k = l ++ [e].
Proof.
  unfold Os.child_of. split.
  - destruct (drop (length l) k) as [|x [|y r]] eqn:Hdrop; [done| |done].
    case_decide as Ht; [|done]. intros [= ->].
    by rewrite <-(take_drop (length l) k), Ht, Hdrop.
  - intros ->. rewrite drop_app_length, take_app_length.
    by rewrite decide_True.
Qed.

(** The names [Readdirnames] returns are those of the entries of the
    directory, sorted, each once. *)
Lemma Readdirnames_spec fs l :
  (∀ n, n ∈ Os.Readdirnames fs l ↔ is_Some (fs !! (l ++ [n])))
  ∧ Sorted String.le (Os.Readdirnames fs l)
  ∧ NoDup (Os.Readdirnames fs l).
Proof.
  unfold Os.Readdirnames.
  set (names := omap (λ kv : list string * Os.node, Os.child_of l kv.1)
                  (map_to_list fs)).
  assert (∀ n, n ∈ names ↔ is_Some (fs !! (l ++ [n]))) as Hin.
  { intros n. subst names. rewrite list_elem_of_omap. split.
    - intros ([k nd] & Hk%elem_of_map_to_list & Hc%child_of_spec).
      simpl in Hc. subst k. by exists nd.
    - intros [nd Hn]. exists (l ++ [n], nd). split.
      + by apply elem_of_map_to_list.
      + by apply child_of_spec. }
  assert (NoDup names) as Hnd.
  { subst names. clear Hin. generalize (NoDup_fst_map_to_list fs).
    induction (map_to_list fs) as [|[k nd] kvs IH]; [constructor|].
    rewrite fmap_cons, NoDup_cons. intros [Hk Hkvs]. cbn [omap list_omap].
    destruct (Os.child_of l (k, nd).1) as [e|] eqn:He; [|by apply IH].
    apply NoDup_cons. split; [|by apply IH].
    rewrite list_elem_of_omap. intros ([k' nd'] & Hin' & He').
    apply child_of_spec in He, He'. simpl in *. subst k k'.
    apply Hk. apply list_elem_of_fmap. by exists (l ++ [e], nd'). }
  split_and!.
  - intros n. by rewrite merge_sort_Permutation.
  - apply (Sorted_merge_sort String.le).
  - by rewrite merge_sort_Permutation.
Qed.

Lemma Join_nonempty a b : b ≠ "" → Path.Join [a; b] ≠ "".
Proof.
  intros Hb. unfold Path.Join. rewrite !filter_cons, filter_nil.
  rewrite (decide_True (P := b ≠ "")) by done.
  assert (∀ p, Path.Clean p ≠ "") as Hc.
  { intros p. unfold Path.Clean. case_decide; [done|].
    destruct (Path.IsRooted p); [done|]. case_decide as He; [done|].
    destruct (Path.clean_elems false (Strings.SplitSlash p)) as [|e es] eqn:E;
      [done|].
    assert (e ≠ "") as Hne.
    { assert (∀ out x, Forall (λ y, y ≠ "") out →
                Forall (λ y, y ≠ "") (Path.clean_elem false out x)) as Hstep.
      { intros out x Hout. unfold Path.clean_elem.
        case_decide as H1; [done|]. case_decide as H2.
        - destruct out as [|top out']; [subst x; by repeat constructor|].
          case_decide; [constructor; [by subst x|done]|].
          by apply Forall_cons in Hout as [_ ?].
        - constructor; [|done]. intros ->. apply H1. by left. }
      assert (∀ xs out, Forall (λ y, y ≠ "") out →
                Forall (λ y, y ≠ "") (foldl (Path.clean_elem false) out xs))
        as Hfold.
      { induction xs as [|x xs IH]; intros out Hout; [done|].
        simpl. apply IH. by apply Hstep. }
      unfold Path.clean_elems in E.
      specialize (Hfold (Strings.SplitSlash p) [] (Forall_nil_2 _)).
      apply Forall_rev in Hfold. rewrite E in Hfold.
      by apply Forall_cons in Hfold as [? _]. }
    destruct es as [|e' es]; [done|]. rewrite JoinSlash_cons2.
    destruct e; [done|]. by rewrite append_cons. }
  case_decide; apply Hc.
Qed.

(** The names [Glob] finds in the templates directory [dir]. *)
Lemma Glob_tmpl_names fs cwd dir :
  dir ≠ "" → Filepath.hasMeta dir = false →
  ∃ names,
    Filepath.Glob fs cwd (dir +:+ "/*.tmpl")
    = (map (λ n, Path.Join [dir; n]) names, None)
    ∧ Sorted String.le names ∧ NoDup names
    ∧ ∀ n, n ∈ names ↔
        ((∃ a, n = a +:+ ".tmpl") ∧ no_slash n)
        ∧ ∃ l, Os.namei fs cwd dir = Some l
               ∧ Os.is_dir fs l = true ∧ is_Some (fs !! (l ++ [n])).
Proof.
  intros Hd Hm. rewrite Glob_plain by done.
  destruct (Os.namei fs cwd dir) as [l|] eqn:Hn; last first.
  { exists []. split_and!; [done|constructor|constructor|].
    intros n. split; [by intros ?%elem_of_nil|]. by intros (_ & l & ? & _). }
  destruct (Os.is_dir fs l) eqn:Hl; last first.
  { exists []. split_and!; [done|constructor|constructor|].
    intros n. split; [by intros ?%elem_of_nil|].
    intros (_ & l' & [= <-] & ? & _). congruence. }
  destruct (Readdirnames_spec fs l) as (Hin & Hsort & Hnd).
  exists (filter is_template_name (Os.Readdirnames fs l)).
  split_and!; [done| | |].
  - clear -Hsort. induction Hsort as [|n ns Hns IH Hhd]; [constructor|].
    rewrite filter_cons. case_decide; [|done]. constructor; [done|].
    clear -Hhd Hns. induction Hns as [|m ms Hms IH' Hhd']; [constructor|].
    rewrite filter_cons. apply HdRel_inv in Hhd.
    case_decide; [by constructor|]. apply IH'.
    destruct Hhd' as [|k ks Hk]; constructor. by etrans.
  - by apply NoDup_filter.
  - intros n. rewrite list_elem_of_filter, Hin, <-is_template_name_spec.
    rewrite Is_true_true. split.
    + intros [? ?]. split; [done|]. by exists l.
    + intros (? & l' & [= <-] & _ & ?). done.
Qed.

(** X17: which files [main] dispatches. When the name of the templates
    directory has none of the characters [*], [?], [[] and [\], the files
    handed to the goroutines are the entries of that directory whose names
    end in [.tmpl], and no others: each once, in the order of their names,
    each as the directory joined with the name. Directories are not told
    from files, and the name [.tmpl] itself counts. If the templates
    directory is missing, or is a file, no file is dispatched. *)
Theorem main_dispatches_templates P fs0 v files tmplDir :
  main_start P fs0 = Dispatch v files →
  templatesDirectory P = (tmplDir, None) →
  Filepath.hasMeta tmplDir = false →
  ∃ names,
    files = map (λ n, Path.Join [tmplDir; n]) names
    ∧ Sorted String.le names ∧ NoDup names
    ∧ ∀ n, n ∈ names ↔
        ((∃ a, n = a +:+ ".tmpl") ∧ no_slash n)
        ∧ ∃ l, Os.namei fs0 (cwd P) tmplDir = Some l
               ∧ Os.is_dir fs0 l = true ∧ is_Some (fs0 !! (l ++ [n])).
Proof.
  intros Hs Ht Hm. unfold main_start in Hs.
  destruct (parseConfiguration P fs0 Viper.new) as [v' [e|]]; [done|].
  rewrite Ht in Hs.
  assert (tmplDir ≠ "") as Hd.
  { unfold templatesDirectory in Ht.
    destruct (configHomeDirectory P) as [c [e|]]; [done|].
    injection Ht as <-. by apply Join_nonempty. }
  destruct (Glob_tmpl_names fs0 (cwd P) tmplDir Hd Hm) as (names & Hg & Hrest).
  rewrite Hg in Hs. injection Hs as -> <-. by exists names.
Qed.

End glob_spec.

Section find_examples.

Import Example.
#[local] Existing Instance Toy.libs.

Lemma main_dispatches_templates_witness :
  (main_start u ricer_fs = Dispatch ricer_v ricer_files ∧
   templatesDirectory u = ("/home/u/.config/ricer/templates", None) ∧
   Filepath.hasMeta "/home/u/.config/ricer/templates" = false) ∧
  ∃ names,
    ricer_files = map (λ n, Path.Join ["/home/u/.config/ricer/templates"; n]) names
    ∧ Sorted String.le names ∧ NoDup names
    ∧ ∀ n, n ∈ names ↔
        ((∃ a, n = a +:+ ".tmpl") ∧ no_slash n)
        ∧ ∃ l, Os.namei ricer_fs (cwd u) "/home/u/.config/ricer/templates" = Some l
               ∧ Os.is_dir ricer_fs l = true ∧ is_Some (ricer_fs !! (l ++ [n])).
Proof.
  assert (templatesDirectory u = ("/home/u/.config/ricer/templates", None)) as Ht
    by (vm_compute; reflexivity).
  assert (Filepath.hasMeta "/home/u/.config/ricer/templates" = false) as Hm
    by reflexivity.
  split; [exact (conj ricer_start (conj Ht Hm))|].
  exact (main_dispatches_templates u ricer_fs ricer_v ricer_files _ ricer_start Ht Hm).
Defined.

End find_examples.

(** ** The bounds of the library loops are never hit *)
Section fuel_facts.

Lemma drop_length_le n s : String.length (Strings.drop n s) ≤ String.length s.
Proof.
  revert s. induction n as [|n IH]; intros [|c s]; simpl; try lia.
  specialize (IH s). lia.
Qed.

Lemma getEsc_shorter chunk r rest :
  Filepath.getEsc chunk = Some (r, rest) →
  String.length rest < String.length chunk.
Proof.
  unfold Filepath.getEsc. destruct chunk as [|c chunk]; [done|].
  destruct ((c =? "-")%char || (c =? "]")%char); [done|].
  destruct (c =? "\")%char.
  - destruct chunk as [|d rest']; [done|]. case_decide; [done|].
    intros [= _ <-]. simpl. lia.
  - case_decide; [done|]. intros [= _ <-]. simpl. lia.
Qed.

Lemma ranges_fuel fuel r chunk matched nrange :
  String.length chunk < fuel →
  match Filepath.ranges fuel r chunk matched nrange with
  | Done (rest, _) => String.length rest < S (String.length chunk)
  | Raise _ => True
  | OutOfFuel => False
  end.
Proof.
  revert chunk matched nrange.
  induction fuel as [|fuel IH]; intros chunk matched nrange Hl; [lia|].
  cbn [Filepath.ranges]. unfold Filepath.ranges_iter.
  destruct (negb _ && _ && _).
  { pose proof (drop_length_le 1 chunk). lia. }
  destruct (Filepath.getEsc chunk) as [[lo chunk1]|] eqn:E1; [|done].
  apply getEsc_shorter in E1.
  destruct (Filepath.head_byte chunk1 =? "-")%char.
  - destruct (Filepath.getEsc (Strings.drop 1 chunk1)) as [[hi chunk2]|] eqn:E2;
      [|done].
    apply getEsc_shorter in E2. pose proof (drop_length_le 1 chunk1).
    specialize (IH chunk2 (matched || (Filepath.ascii_le lo r && Filepath.ascii_le r hi))
                  (S nrange)).
    destruct (Filepath.ranges fuel r chunk2 _ _) as [[rest b]| |];
      [|done|]; specialize (IH ltac:(lia)); [lia|done].
  - specialize (IH chunk1 (matched || (Filepath.ascii_le lo r && Filepath.ascii_le r lo))
                  (S nrange)).
    destruct (Filepath.ranges fuel r chunk1 _ _) as [[rest b]| |];
      [|done|]; specialize (IH ltac:(lia)); [lia|done].
Qed.

Lemma matchChunk_loop_fuel fuel chunk s failed :
  String.length chunk < fuel →
  Filepath.matchChunk_loop fuel chunk s failed ≠ OutOfFuel.
Proof.
  revert chunk s failed.
  induction fuel as [|fuel IH]; intros chunk s failed Hl; [lia|].
  cbn [Filepath.matchChunk_loop]. unfold Filepath.matchChunk_iter.
  destruct chunk as [|c chunk]; [done|]. cbn [String.length] in Hl.
  destruct (c =? "[")%char.
  { cbv zeta.
    set (chunk1 := if negb (bool_decide (chunk = ""))
                      && (Filepath.head_byte chunk =? "^")%char
                   then Strings.drop 1 chunk else chunk).
    assert (String.length chunk1 ≤ String.length chunk) as Hc1.
    { subst chunk1. destruct (negb _ && _); [apply drop_length_le|done]. }
    pose proof (ranges_fuel (S (String.length chunk1))
                  (if failed || bool_decide (s = "") then zero
                   else Filepath.head_byte s) chunk1 false 0 ltac:(lia)) as Hr.
    destruct (Filepath.ranges _ _ chunk1 false 0) as [[rest b]| |];
      [|done|done].
    apply IH. lia. }
  destruct (c =? "?")%char; [apply IH; lia|].
  destruct (c =? "\")%char.
  - case_decide; [done|]. apply IH.
    pose proof (drop_length_le 1 chunk). lia.
  - apply IH. cbn [Strings.drop]. lia.
Qed.

Lemma matchChunk_fuel chunk s : Filepath.matchChunk chunk s ≠ OutOfFuel.
Proof. apply matchChunk_loop_fuel. lia. Qed.

Lemma star_search_fuel chunk last name :
  Filepath.star_search chunk last name ≠ OutOfFuel.
Proof.
  induction name as [|c name IH]; [done|]. cbn [Filepath.star_search].
  destruct (IsPathSeparator c); [done|].
  pose proof (matchChunk_fuel chunk name) as Hm.
  destruct (Filepath.matchChunk chunk name) as [[t|]| |]; [|done..].
  by destruct (last && _).
Qed.

Lemma strip_stars_length pattern :
  String.length (Filepath.strip_stars pattern).2 ≤ String.length pattern
  ∧ ((Filepath.strip_stars pattern).1 = false →
     (Filepath.strip_stars pattern).2 = pattern
     ∧ ∀ c p, pattern = String c p → (c =? "*")%char = false).
Proof.
  induction pattern as [|c pattern [IH _]]; [by split; [|split]|].
  cbn [Filepath.strip_stars]. destruct (c =? "*")%char eqn:Hc; simpl.
  - split; [lia|done].
  - split; [lia|]. intros _. split; [done|]. by intros ?? [= <- _].
Qed.

Lemma scan_length pattern inrange :
  String.length (Filepath.scan pattern inrange).1
  + String.length (Filepath.scan pattern inrange).2 = String.length pattern.
Proof.
  remember (String.length pattern) as n eqn:Hn. revert pattern inrange Hn.
  induction (lt_wf n) as [n _ IH]. intros pattern inrange ->.
  destruct pattern as [|c pattern]; [done|]. cbn [Filepath.scan].
  assert (∀ b, String.length (Filepath.scan pattern b).1
               + String.length (Filepath.scan pattern b).2
               = String.length pattern) as IH1.
  { intros b. apply (IH (String.length pattern)); [simpl; lia|done]. }
  destruct (c =? "\")%char.
  { destruct pattern as [|d pattern]; [done|].
    specialize (IH (String.length pattern) ltac:(simpl; lia) pattern inrange eq_refl).
    destruct (Filepath.scan pattern inrange) as [chunk rest]. simpl in *. lia. }
  destruct (c =? "[")%char.
  { specialize (IH1 true). destruct (Filepath.scan pattern true). simpl in *. lia. }
  destruct (c =? "]")%char.
  { specialize (IH1 false). destruct (Filepath.scan pattern false). simpl in *. lia. }
  destruct ((c =? "*")%char && negb inrange); [done|].
  specialize (IH1 inrange). destruct (Filepath.scan pattern inrange). simpl in *. lia.
Qed.

Lemma scan_chunk_nonempty c pattern :
  (c =? "*")%char = false →
  (Filepath.scan (String c pattern) false).1 ≠ "".
Proof.
  intros Hc. cbn [Filepath.scan]. rewrite Hc. cbn [andb].
  destruct (c =? "\")%char.
  { destruct pattern as [|d pattern]; [done|].
    by destruct (Filepath.scan pattern false). }
  destruct (c =? "[")%char; [by destruct (Filepath.scan pattern true)|].
  destruct (c =? "]")%char; by destruct (Filepath.scan pattern false).
Qed.

(** What is left of a pattern after a chunk is shorter than the pattern. *)
Lemma scanChunk_shorter pattern star chunk rest :
  pattern ≠ "" →
  Filepath.scanChunk pattern = (star, chunk, rest) →
  String.length rest < String.length pattern.
Proof.
  intros Hne. unfold Filepath.scanChunk.
  destruct (strip_stars_length pattern) as [Hle Hfalse].
  destruct (Filepath.strip_stars pattern) as [st p] eqn:Hs. simpl in *.
  pose proof (scan_length p false) as Hlen.
  destruct (Filepath.scan p false) as [ch re] eqn:Hscan. simpl in Hlen.
  intros [= -> -> ->].
  destruct star.
  - destruct pattern as [|c pattern]; [done|].
    cbn [Filepath.strip_stars] in Hs.
    destruct (c =? "*")%char; [|done]. injection Hs as <-.
    pose proof (strip_stars_length pattern) as [? _]. simpl. lia.
  - destruct (Hfalse eq_refl) as [-> Hc].
    destruct pattern as [|c pattern]; [done|].
    pose proof (scan_chunk_nonempty c pattern (Hc _ _ eq_refl)) as Hch.
    rewrite Hscan in Hch. simpl in Hch.
    destruct chunk; [done|]. simpl in *. lia.
Qed.

Lemma check_rest_fuel fuel pattern :
  String.length pattern < fuel → Filepath.check_rest fuel pattern ≠ OutOfFuel.
Proof.
  revert pattern. induction fuel as [|fuel IH]; intros pattern Hl; [lia|].
  cbn [Filepath.check_rest]. unfold Filepath.check_rest_iter.
  case_decide as Hne; [done|].
  destruct (Filepath.scanChunk pattern) as [[star chunk] rest] eqn:Hs.
  apply scanChunk_shorter in Hs; [|done].
  pose proof (matchChunk_fuel chunk "") as Hm.
  destruct (Filepath.matchChunk chunk "") as [?| |]; [|done..].
  apply IH. lia.
Qed.

Lemma Match_loop_fuel fuel pattern name :
  String.length pattern < fuel → Filepath.Match_loop fuel pattern name ≠ OutOfFuel.
Proof.
  revert pattern name. induction fuel as [|fuel IH]; intros pattern name Hl; [lia|].
  cbn [Filepath.Match_loop]. unfold Filepath.Match_iter.
  case_decide as Hne; [done|].
  destruct (Filepath.scanChunk pattern) as [[star chunk] rest] eqn:Hs.
  apply scanChunk_shorter in Hs; [|done].
  destruct (star && bool_decide (chunk = "")); [done|].
  assert (∀ t, Filepath.Match_loop fuel rest t ≠ OutOfFuel) as Hcont
    by (intros t; apply IH; lia).
  assert (match Filepath.check_rest (S (String.length rest)) rest with
          | Done _ => Done false
          | Raise e => Raise e
          | OutOfFuel => OutOfFuel
          end ≠ (OutOfFuel : run bool)) as Hfail.
  { pose proof (check_rest_fuel (S (String.length rest)) rest ltac:(lia)).
    by destruct (Filepath.check_rest _ rest). }
  assert ((if star then
             match Filepath.star_search chunk (bool_decide (rest = "")) name with
             | Done (Some t) => Filepath.Match_loop fuel rest t
             | Done None =>
                 match Filepath.check_rest (S (String.length rest)) rest with
                 | Done _ => Done false
                 | Raise e => Raise e
                 | OutOfFuel => OutOfFuel
                 end
             | Raise e => Raise e
             | OutOfFuel => OutOfFuel
             end
           else
             match Filepath.check_rest (S (String.length rest)) rest with
             | Done _ => Done false
             | Raise e => Raise e
             | OutOfFuel => OutOfFuel
             end) ≠ OutOfFuel) as Hsearch.
  { destruct star; [|done].
    pose proof (star_search_fuel chunk (bool_decide (rest = "")) name).
    destruct (Filepath.star_search _ _ _) as [[t|]| |]; done. }
  pose proof (matchChunk_fuel chunk name) as Hm.
  destruct (Filepath.matchChunk chunk name) as [[t|]| |]; [|done..].
  by destruct (bool_decide (t = "") || _).
Qed.

(** [Match] always comes to a result: the bound on its loops, which Go
    does not have, is not what ends it. *)
Lemma Match_fuel pattern name : Filepath.Match pattern name ≠ OutOfFuel.
Proof. apply Match_loop_fuel. lia. Qed.

End fuel_facts.

(** ** Cleaned path names *)
Section clean_facts.

Context `{Libs}.
Implicit Types (es ns out : list string) (r : bool).

Lemma Clean_path_of p :
  p ≠ "" →
  Path.Clean p
  = path_of (Path.IsRooted p) (Path.clean_elems (Path.IsRooted p) (Strings.SplitSlash p)).
Proof. intros Hp. unfold Path.Clean, path_of. by rewrite decide_False. Qed.

Lemma clean_elem_named r out e :
  named e = true → Path.clean_elem r out e = e :: out.
Proof.
  intros (? & ? & ?)%named_true. unfold Path.clean_elem.
  rewrite decide_False by tauto. by rewrite decide_False.
Qed.

Lemma clean_elem_skip r out e : e = "" ∨ e = "." → Path.clean_elem r out e = out.
Proof. intros He. unfold Path.clean_elem. by rewrite decide_True. Qed.

Lemma foldl_clean_named r out ns :
  Forall (λ e, named e = true) ns →
  foldl (Path.clean_elem r) out ns = rev ns ++ out.
Proof.
  revert out. induction ns as [|n ns IH]; intros out Hn; [done|].
  apply Forall_cons in Hn as [Hn Hns]. cbn [foldl].
  rewrite clean_elem_named, IH by done. cbn [rev]. by rewrite <-app_assoc.
Qed.

Lemma foldl_clean_dots k j :
  foldl (Path.clean_elem false) (replicate j "..") (replicate k "..")
  = replicate (k + j) "..".
Proof.
  revert j. induction k as [|k IH]; intros j; [done|].
  cbn [replicate foldl].
  assert (Path.clean_elem false (replicate j "..") ".." = replicate (S j) "..") as ->.
  { by destruct j. }
  rewrite IH. f_equal. lia.
Qed.

Lemma rev_replicate {A} k (x : A) : rev (replicate k x) = replicate k x.
Proof.
  induction k as [|k IH]; [done|]. cbn [replicate rev]. rewrite IH.
  clear. induction k as [|k IH]; [done|]. simpl. by rewrite IH.
Qed.

(** Cleaning what is clean changes nothing. *)
Lemma clean_elems_cleaned r es : cleaned r es → Path.clean_elems r es = es.
Proof.
  intros (k & ns & -> & Hns & Hk & _). unfold Path.clean_elems.
  rewrite foldl_app.
  assert (foldl (Path.clean_elem r) [] (replicate k "..") = replicate k "..") as ->.
  { destruct r; [by rewrite (Hk eq_refl)|].
    pose proof (foldl_clean_dots k 0) as Hd. cbn [replicate] in Hd.
    rewrite Hd. f_equal. lia. }
  rewrite foldl_clean_named by done.
  by rewrite rev_app_distr, List.rev_involutive, rev_replicate.
Qed.

Lemma clean_elem_from r out e x : x ∈ Path.clean_elem r out e → x = e ∨ x ∈ out.
Proof.
  unfold Path.clean_elem. repeat case_decide; try (by right).
  - destruct out as [|top out']; [destruct r|case_decide].
    + by right.
    + intros ->%list_elem_of_singleton. by left.
    + intros [->|?]%elem_of_cons; [by left|by right].
    + intros ?. right. by right.
  - intros [->|?]%elem_of_cons; [by left|by right].
Qed.

Lemma clean_elems_sound r es : cleaned r (Path.clean_elems r es) ↔ Forall no_slash (Path.clean_elems r es).
Proof.
  split; [by intros (? & ? & _ & _ & _ & ?)|]. intros Hs.
  unfold Path.clean_elems in *.
  assert (∃ k ns, foldl (Path.clean_elem r) [] es = ns ++ replicate k ".."
                  ∧ Forall (λ e, named e = true) ns ∧ (r = true → k = 0))
    as (k & ns & Hout & Hns & Hk).
  { clear Hs. induction es as [|e es IH] using rev_ind.
    { exists 0, []. by split_and!. }
    destruct IH as (k & ns & Hout & Hns & Hk). rewrite foldl_app. cbn [foldl].
    rewrite Hout. destruct (decide (e = "" ∨ e = ".")) as [He|He].
    { rewrite clean_elem_skip by done. by exists k, ns. }
    destruct (decide (e = "..")) as [->|Hd].
    - unfold Path.clean_elem. rewrite decide_False by done.
      rewrite decide_True by done.
      destruct ns as [|n ns].
      + destruct k as [|k]; simpl.
        * destruct r; [by exists 0, []|]. exists 1, []. by split_and!.
        * exists (S (S k)), [].
          split_and!; [done|done|]. intros Hr. by specialize (Hk Hr).
      + apply Forall_cons in Hns as [Hn Hns]. simpl.
        apply named_true in Hn as (_ & _ & Hn). rewrite decide_False by done.
        by exists k, ns.
    - assert (named e = true) as Hn by (apply named_true; tauto).
      rewrite clean_elem_named by done. exists k, (e :: ns).
      split_and!; [done|by constructor|done]. }
  rewrite Hout, rev_app_distr, rev_replicate in Hs.
  exists k, (rev ns). rewrite Hout, rev_app_distr, rev_replicate.
  split_and!; [done|by apply Forall_rev|done|done].
Qed.

Lemma clean_elems_no_slash r es :
  Forall no_slash es → Forall no_slash (Path.clean_elems r es).
Proof.
  intros Hs. unfold Path.clean_elems. apply Forall_rev.
  assert (∀ out, Forall no_slash out →
            Forall no_slash (foldl (Path.clean_elem r) out es)) as Hf.
  { induction es as [|e es IH]; intros out Hout; [done|].
    apply Forall_cons in Hs as [He Hes]. cbn [foldl]. apply IH; [done|].
    apply Forall_forall. intros x [->|Hx]%clean_elem_from; [done|].
    by eapply Forall_forall in Hout. }
  by apply Hf.
Qed.

(** What [Path.Clean] returns is a cleaned path name. *)
Lemma Clean_cleaned p :
  p ≠ "" →
  ∃ r es, Path.Clean p = path_of r es ∧ cleaned r es.
Proof.
  intros Hp. eexists _, _. split; [by apply Clean_path_of|].
  apply clean_elems_sound, clean_elems_no_slash, SplitSlash_no_slash.
Qed.

Lemma cleaned_nonempty r es e : cleaned r es → e ∈ es → e ≠ "".
Proof.
  intros (k & ns & -> & Hns & _) [He|He]%elem_of_app.
  - apply elem_of_replicate in He as [-> _]. done.
  - eapply Forall_forall in Hns; [|done]. by apply named_true in Hns as (? & _).
Qed.

Lemma cleaned_snoc r es n :
  cleaned r es → named n = true → no_slash n → cleaned r (es ++ [n]).
Proof.
  intros (k & ns & -> & Hns & Hk & Hs) Hn Hsn. exists k, (ns ++ [n]).
  split_and!; [by rewrite <-app_assoc| |done|].
  - apply Forall_app. split; [done|by constructor].
  - apply Forall_app. split; [done|by constructor].
Qed.

Lemma IsRooted_path_of r es : cleaned r es → Path.IsRooted (path_of r es) = r.
Proof.
  intros Hc. unfold path_of. destruct r; [done|].
  case_decide as He; [done|]. destruct es as [|e es]; [done|].
  assert (e ≠ "") as Hne by (eapply cleaned_nonempty; [done|left]).
  destruct Hc as (_ & _ & _ & _ & _ & Hs). apply Forall_cons in Hs as [Hs _].
  destruct e as [|c e]; [done|]. unfold no_slash in Hs.
  cbn [Strings.ContainsByte] in Hs. apply orb_false_iff in Hs as [Hc' _].
  destruct es as [|e' es]; [exact Hc'|]. rewrite JoinSlash_cons2. exact Hc'.
Qed.

End clean_facts.

Section layout_facts.

Context `{Libs}.
Implicit Types (es ns out : list string) (r : bool).

Lemma SplitSlash_append_slash a s :
  Strings.SplitSlash (a +:+ String "/" s)
  = Strings.SplitSlash a ++ Strings.SplitSlash s.
Proof.
  induction a as [|c a IH]; [done|]. rewrite append_cons.
  cbn [Strings.SplitSlash]. rewrite IH.
  destruct (IsPathSeparator c); [done|].
  pose proof (SplitSlash_nonempty a). by destruct (Strings.SplitSlash a).
Qed.

Lemma JoinSlash_snoc es n :
  es ≠ [] → Strings.JoinSlash (es ++ [n]) = Strings.JoinSlash es +:+ "/" +:+ n.
Proof.
  induction es as [|e es IH]; [done|]. intros _.
  destruct es as [|e' es]; [done|].
  change ((e :: e' :: es) ++ [n]) with (e :: (e' :: es) ++ [n]).
  change ((e' :: es) ++ [n]) with (e' :: es ++ [n]) at 1.
  rewrite !JoinSlash_cons2.
  change (e' :: es ++ [n]) with ((e' :: es) ++ [n]). rewrite IH by done.
  change (String "/" ?x) with ("/" +:+ x). by rewrite !append_assoc.
Qed.

Lemma path_of_snoc r es n :
  es ≠ [] → path_of r (es ++ [n]) = path_of r es +:+ "/" +:+ n.
Proof.
  intros He. unfold path_of. rewrite JoinSlash_snoc by done.
  destruct r; [by rewrite append_assoc|].
  rewrite !decide_False; [done..|]. by destruct es.
Qed.

Lemma path_of_nonempty r es : cleaned r es → path_of r es ≠ "".
Proof.
  intros Hc E. pose proof (IsRooted_path_of r es Hc) as Hr.
  rewrite E in Hr. simpl in Hr. subst r. unfold path_of in E.
  case_decide as He; [done|]. destruct es as [|e es]; [done|].
  assert (e ≠ "") as Hne by (eapply cleaned_nonempty; [done|left]).
  destruct es; [done|]. rewrite JoinSlash_cons2 in E. by destruct e.
Qed.

Lemma clean_elems_skip_first r e es :
  e = "" ∨ e = "." → Path.clean_elems r (e :: es) = Path.clean_elems r es.
Proof. intros He. unfold Path.clean_elems. cbn [foldl]. by rewrite clean_elem_skip. Qed.

Lemma clean_elems_snoc_named r es n :
  named n = true → Path.clean_elems r (es ++ [n]) = Path.clean_elems r es ++ [n].
Proof.
  intros Hn. unfold Path.clean_elems. rewrite foldl_app. cbn [foldl].
  by rewrite clean_elem_named.
Qed.

Lemma clean_elems_snoc_skip r es e :
  e = "" ∨ e = "." → Path.clean_elems r (es ++ [e]) = Path.clean_elems r es.
Proof.
  intros He. unfold Path.clean_elems. rewrite foldl_app. cbn [foldl].
  by rewrite clean_elem_skip.
Qed.

Lemma SplitSlash_path_of r es :
  cleaned r es → es ≠ [] →
  Strings.SplitSlash (path_of r es) = if r then "" :: es else es.
Proof.
  intros (_ & _ & _ & _ & _ & Hs) He. unfold path_of. destruct r.
  - change ("/" +:+ ?x) with (String "/" x). cbn [Strings.SplitSlash].
    change (IsPathSeparator "/") with true. cbv iota.
    by rewrite SplitSlash_JoinSlash.
  - rewrite decide_False by done. by apply SplitSlash_JoinSlash.
Qed.

Lemma clean_SplitSlash_path_of r es :
  cleaned r es → Path.clean_elems r (Strings.SplitSlash (path_of r es)) = es.
Proof.
  intros Hc. destruct (decide (es = [])) as [->|He]; [by destruct r|].
  rewrite SplitSlash_path_of by done. destruct r.
  - rewrite clean_elems_skip_first by (by left). by apply clean_elems_cleaned.
  - by apply clean_elems_cleaned.
Qed.

Lemma IsRooted_append a b : a ≠ "" → Path.IsRooted (a +:+ b) = Path.IsRooted a.
Proof. by destruct a. Qed.

Lemma SplitSlash_slash_name n :
  no_slash n → Strings.SplitSlash ("/" +:+ n) = [""; n].
Proof.
  intros Hs. change ("/" +:+ n) with (String "/" n). cbn [Strings.SplitSlash].
  change (IsPathSeparator "/") with true. cbv iota. by rewrite SplitSlash_single.
Qed.

(** A name joined to a cleaned path is one more element of it. *)
Lemma Join_path_of r es n :
  cleaned r es → named n = true → no_slash n →
  Path.Join [path_of r es; n] = path_of r (es ++ [n])
  ∧ Path.Join [path_of r es; "/" +:+ n] = path_of r (es ++ [n]).
Proof.
  intros Hc Hn Hs. pose proof (path_of_nonempty r es Hc) as Hne.
  assert (n ≠ "") as Hn0 by (by apply named_true in Hn as (? & _)).
  unfold Path.Join. rewrite !filter_cons, filter_nil.
  rewrite !(decide_True (P := path_of r es ≠ "")) by done.
  rewrite (decide_True (P := n ≠ "")) by done.
  rewrite (decide_True (P := "/" +:+ n ≠ "")) by done.
  cbn [Strings.JoinSlash].
  change ("/" +:+ ?x) with (String "/" x).
  assert (path_of r es +:+ String "/" n ≠ "") as H1 by (by destruct (path_of r es)).
  assert (path_of r es +:+ String "/" (String "/" n) ≠ "") as H2
    by (by destruct (path_of r es)).
  rewrite !Clean_path_of by done.
  rewrite !IsRooted_append, IsRooted_path_of by done.
  rewrite !SplitSlash_append_slash.
  rewrite (SplitSlash_slash_name n), (SplitSlash_single n) by done. split.
  - by rewrite clean_elems_snoc_named, clean_SplitSlash_path_of.
  - change [""; n] with ([""] ++ [n]). rewrite app_assoc.
    rewrite clean_elems_snoc_named by done.
    by rewrite clean_elems_snoc_skip, clean_SplitSlash_path_of by (done || by left).
Qed.

(** A subdirectory joined to any path is the last element of a cleaned
    path. *)
Lemma Join_sub y n :
  named n = true → no_slash n →
  ∃ r es, Path.Join [y; "/" +:+ n] = path_of r (es ++ [n]) ∧ cleaned r (es ++ [n]).
Proof.
  intros Hn Hs.
  assert (n ≠ "") as Hn0 by (by apply named_true in Hn as (? & _)).
  unfold Path.Join. rewrite !filter_cons, filter_nil.
  rewrite (decide_True (P := "/" +:+ n ≠ "")) by done.
  change ("/" +:+ ?x) with (String "/" x).
  destruct (decide (y ≠ "")) as [Hy|Hy].
  - cbn [Strings.JoinSlash]. change ("/" +:+ ?x) with (String "/" x).
    assert (y +:+ String "/" (String "/" n) ≠ "") as H2 by (by destruct y).
    rewrite Clean_path_of by done. rewrite IsRooted_append by done.
    rewrite SplitSlash_append_slash.
    change (String "/" n) with ("/" +:+ n).
    rewrite (SplitSlash_slash_name n) by done.
    change [""; n] with ([""] ++ [n]). rewrite app_assoc.
    rewrite clean_elems_snoc_named by done.
    rewrite clean_elems_snoc_skip by (by left).
    eexists _, _. split; [done|]. apply cleaned_snoc; [|done..].
    apply clean_elems_sound, clean_elems_no_slash, SplitSlash_no_slash.
  - cbn [Strings.JoinSlash]. rewrite Clean_path_of by done.
    change (String "/" n) with ("/" +:+ n).
    rewrite (SplitSlash_slash_name n) by done.
    change (Path.IsRooted ("/" +:+ n)) with true.
    rewrite clean_elems_skip_first by (by left).
    change [n] with ([] ++ [n]). rewrite clean_elems_snoc_named by done.
    exists true, []. split; [done|]. apply cleaned_snoc; [|done..].
    exists 0, []. by split_and!.
Qed.

(** The directory of a cleaned path is the path without its last
    element. *)
Lemma Dir_path_of r es n :
  cleaned r (es ++ [n]) → Path.Dir (path_of r (es ++ [n])) = path_of r es.
Proof.
  intros Hc. unfold Path.Dir.
  assert (cleaned r es) as Hc'.
  { destruct Hc as (k & ns & E & Hns & Hk & Hs).
    apply Forall_app in Hs as [Hs _].
    destruct ns as [|x ns _] using rev_ind.
    - rewrite app_nil_r in E. destruct k as [|k]; [by destruct es|].
      assert (es = replicate k "..") as ->.
      { rewrite replicate_S_end in E. by apply app_inj_tail in E as [? _]. }
      exists k, []. rewrite app_nil_r. split_and!; [done|done| |done].
      intros Hr. specialize (Hk Hr). lia.
    - rewrite app_assoc in E. apply app_inj_tail in E as [-> _].
      apply Forall_app in Hns as [Hns _]. by exists k, ns. }
  pose proof (SplitSlash_path_of r (es ++ [n]) Hc ltac:(by destruct es)) as Hsp.
  pose proof (SplitSlash_Split (path_of r (es ++ [n]))) as Hd.
  pose proof (IsRooted_path_of _ _ Hc) as Hr.
  destruct (decide ((Path.Split (path_of r (es ++ [n]))).1 = "")) as [E|E].
  - pose proof (Split_fst_empty _ E) as [E1 E2]. rewrite E.
    rewrite Hr in E1. subst r. rewrite Hsp, removelast_last in E2. by subst es.
  - rewrite Clean_path_of by done. rewrite IsRooted_Split, Hr, Hd, Hsp by done.
    rewrite clean_elems_snoc_skip by (by left). destruct r.
    + change ("" :: es ++ [n]) with (("" :: es) ++ [n]). rewrite removelast_last.
      rewrite clean_elems_skip_first by (by left).
      by rewrite clean_elems_cleaned.
    + rewrite removelast_last. by rewrite clean_elems_cleaned.
Qed.

Lemma configHomeDirectory_cleaned P c :
  configHomeDirectory P = (c, None) →
  ∃ r es, c = path_of r (es ++ ["ricer"]) ∧ cleaned r (es ++ ["ricer"]).
Proof.
  unfold configHomeDirectory. intros Hc.
  assert (∀ y, ∃ r es, Path.Join [y; "/ricer"] = path_of r (es ++ ["ricer"])
                       ∧ cleaned r (es ++ ["ricer"])) as Hj.
  { intros y. by apply (Join_sub y "ricer"). }
  repeat case_decide; [|simplify_eq; apply Hj..].
  destruct (user_Current P) as [home [e|]]; simplify_eq. apply Hj.
Qed.

(** X18: where the templates are looked for. When [templatesDirectory]
    returns a path, it is the path of the configuration home followed by
    [/templates], and the configuration home is its [path.Dir]: no
    cleaning of the joined path changes the configuration home it was
    joined to. *)
Theorem templatesDirectory_layout P t :
  templatesDirectory P = (t, None) →
  ∃ c, configHomeDirectory P = (c, None)
       ∧ t = c +:+ "/templates" ∧ Path.Dir t = c.
Proof.
  unfold templatesDirectory.
  destruct (configHomeDirectory P) as [c [e|]] eqn:Hc; [done|].
  intros [= <-]. exists c. split; [done|].
  destruct (configHomeDirectory_cleaned P c Hc) as (r & es & -> & Hcl).
  destruct (Join_path_of r (es ++ ["ricer"]) "templates" Hcl eq_refl eq_refl)
    as [_ Hj].
  change ("/" +:+ "templates") with "/templates" in Hj. rewrite Hj.
  split.
  - apply path_of_snoc. by destruct es.
  - apply Dir_path_of. by apply cleaned_snoc.
Qed.

Lemma templatesDirectory_cleaned P t :
  templatesDirectory P = (t, None) →
  ∃ r es, t = path_of r (es ++ ["templates"]) ∧ cleaned r (es ++ ["templates"]).
Proof.
  unfold templatesDirectory.
  destruct (configHomeDirectory P) as [c [e|]] eqn:Hc; [done|].
  intros [= <-].
  destruct (configHomeDirectory_cleaned P c Hc) as (r & es & -> & Hcl).
  destruct (Join_path_of r (es ++ ["ricer"]) "templates" Hcl eq_refl eq_refl)
    as [_ Hj].
  change ("/" +:+ "templates") with "/templates" in Hj. rewrite Hj.
  exists r, (es ++ ["ricer"]). split; [done|]. by apply cleaned_snoc.
Qed.

Lemma template_name_named a : named (a +:+ ".tmpl") = true.
Proof.
  apply named_true.
  assert (∀ s, a +:+ ".tmpl" = s → 5 ≤ String.length s) as Hl.
  { intros s <-. rewrite length_append. simpl. lia. }
  split_and!; intros E; apply Hl in E; simpl in E; lia.
Qed.

(** X19: under which name a template is configured. When the name of the
    templates directory has no special character, every file [main]
    dispatches is [<templates directory>/a.tmpl] for an [a] without a
    separator, and unless [a] is empty, [a] is the name [handleTemplate]
    looks up in the configuration: its output is the setting [a.output]
    and its variables are the setting [a.vars]. *)
Theorem dispatched_template_name P fs0 v files tmplDir file :
  main_start P fs0 = Dispatch v files →
  templatesDirectory P = (tmplDir, None) →
  Filepath.hasMeta tmplDir = false →
  file ∈ files →
  ∃ a, file = tmplDir +:+ "/" +:+ a +:+ ".tmpl" ∧ no_slash a
       ∧ (a ≠ "" → tmplName file = a
                   ∧ outputFile v file = Viper.GetString v (a +:+ ".output")).
Proof.
  intros Hs Ht Hm Hin.
  destruct (templatesDirectory_cleaned P tmplDir Ht) as (r & es & -> & Hcl).
  set (tmplDir := path_of r (es ++ ["templates"])) in *.
  unfold main_start in Hs.
  destruct (parseConfiguration P fs0 Viper.new) as [v' [e|]]; [done|].
  rewrite Ht in Hs.
  destruct (Glob_tmpl_names fs0 (cwd P) tmplDir) as (names & Hg & _ & _ & Hnames);
    [by apply path_of_nonempty|done|].
  rewrite Hg in Hs. injection Hs as -> <-.
  apply list_elem_of_fmap in Hin as (n & -> & Hn).
  apply Hnames in Hn as [[[a ->] Hns] _].
  assert (no_slash a) as Ha.
  { unfold no_slash in *. rewrite ContainsByte_app in Hns.
    by apply orb_false_iff in Hns as [? _]. }
  assert (Path.Join [tmplDir; a +:+ ".tmpl"] = tmplDir +:+ "/" +:+ a +:+ ".tmpl")
    as ->.
  { subst tmplDir.
    destruct (Join_path_of r (es ++ ["templates"]) (a +:+ ".tmpl") Hcl
                (template_name_named a) Hns) as [-> _].
    apply path_of_snoc. by destruct es. }
  exists a. split_and!; [done..|].
  intros Hne.
  assert (tmplName (tmplDir +:+ "/" +:+ a +:+ ".tmpl") = a) as Hname.
  { unfold tmplName.
    replace (tmplDir +:+ "/" +:+ a +:+ ".tmpl")
      with ((tmplDir +:+ "/" +:+ a) +:+ ".tmpl") by (by rewrite !append_assoc).
    rewrite TrimSuffix_Ext_tmpl. by apply Base_name. }
  unfold outputFile. by rewrite Hname.
Qed.

End layout_facts.

Section layout_examples.

Import Example.
#[local] Existing Instance Toy.libs.

Lemma ricer_templates :
  templatesDirectory u = ("/home/u/.config/ricer/templates", None).
Proof. vm_compute. reflexivity. Qed.

Lemma templatesDirectory_layout_witness :
  templatesDirectory u = ("/home/u/.config/ricer/templates", None) ∧
  ∃ c, configHomeDirectory u = (c, None)
       ∧ "/home/u/.config/ricer/templates" = c +:+ "/templates"
       ∧ Path.Dir "/home/u/.config/ricer/templates" = c.
Proof.
  split; [exact ricer_templates|].
  exact (templatesDirectory_layout u _ ricer_templates).
Defined.

Lemma dispatched_template_name_witness :
  (main_start u ricer_fs = Dispatch ricer_v ricer_files ∧
   templatesDirectory u = ("/home/u/.config/ricer/templates", None) ∧
   Filepath.hasMeta "/home/u/.config/ricer/templates" = false ∧
   plain_tmpl ∈ ricer_files) ∧
  ∃ a, plain_tmpl = "/home/u/.config/ricer/templates" +:+ "/" +:+ a +:+ ".tmpl"
       ∧ no_slash a
       ∧ (a ≠ "" → tmplName plain_tmpl = a
                   ∧ outputFile ricer_v plain_tmpl
                     = Viper.GetString ricer_v (a +:+ ".output")).
Proof.
  assert (Filepath.hasMeta "/home/u/.config/ricer/templates" = false) as Hm
    by reflexivity.
  assert (plain_tmpl ∈ ricer_files) as Hin by compute_done.
  split; [exact (conj ricer_start (conj ricer_templates (conj Hm Hin)))|].
  exact (dispatched_template_name u ricer_fs ricer_v ricer_files _ plain_tmpl
           ricer_start ricer_templates Hm Hin).
Defined.

End layout_examples.
